(** * Monthly-revenue dashboard: the data-reconciliation pipeline

    A shallow embedding of [app.py] (registry loader, cache reader, live
    fetcher, sector resolver, KPI enricher, and the tables behind the page's
    overview and drill-down) and of [fetch_monthly_revenue.py] (the batch
    refresh), followed by the properties of the specification that concern
    them and by further properties of the code.

    A pandas table is a list of column labels and a list of rows; a cell is
    a string, a float64, a calendar date, a timestamp or the null NaT. A
    Python string is held as its UTF-8 encoding and read character by
    character. Python exceptions are the [Raise] branch of the result type
    [res]. Everything the program takes from outside itself (the file
    system, the environment, the clock, the FinMind client, pandas' scalar
    parsers, the Excel writer) is a field of the class [Host]. *)

From Stdlib Require Import ZArith Floats String Ascii Sorted Permutation Lia.
From stdpp Require Import base option list strings gmap.

Local Open Scope string_scope.
Local Open Scope list_scope.
Local Open Scope Z_scope.

(** ** Exceptions and results *)

Inductive exn : Type :=
| SchemaError (missing : list string)
    (* [raise ValueError(f"groups.csv ... {missing}")] of both loaders *)
| ValueError
| KeyError (label : string)
| UndefinedVariableError (label : string)
| InvalidIndexError
| AttributeError
| TypeError
| ProviderFault (msg : string)
| WriterFault (msg : string)
    (* what the Excel writer raises: a [ValueError] for a sheet title that
       openpyxl refuses, an [OSError] for a file it cannot write, ... *)
| SystemExit (msg : string).

Inductive res (A : Type) : Type :=
| Raise (e : exn)
| Ret (a : A).
Arguments Raise {A} e.
Arguments Ret {A} a.

#[global] Instance res_ret : MRet res := @Ret.
#[global] Instance res_bind : MBind res := λ A B f m,
  match m with
  | Raise e => Raise e
  | Ret a => f a
  end.

(** Exit status of the interpreter for a script that ended with [r]: an
    uncaught exception, [SystemExit] with a message included, gives 1. *)
Definition exit_status {A} (r : res A) : Z :=
  match r with
  | Raise _ => 1
  | Ret _ => 0
  end.

(** ** Python strings *)

(** A [str] is held as its UTF-8 encoding. The bytes [10xxxxxx] continue
    the character begun before them. *)
Definition is_continuation (a : ascii) : bool :=
  let n := nat_of_ascii a in
  ((128 <=? n) && (n <=? 191))%nat.

(** The characters of a string, each as the bytes of its encoding: a
    leading byte and the continuation bytes that follow it. *)
Fixpoint chars (s : string) : list string :=
  match s with
  | EmptyString => []
  | String a s' =>
      match chars s' with
      | String b c :: cs =>
          if is_continuation b then String a (String b c) :: cs
          else String a EmptyString :: String b c :: cs
      | cs => String a EmptyString :: cs
      end
  end.

(** ["".join(cs)] *)
Definition join (cs : list string) : string := foldr String.append EmptyString cs.

Definition char_of (bytes : list nat) : string :=
  foldr (λ n s, String (ascii_of_nat n) s) EmptyString bytes.

(** The characters for which [str.isspace] holds: U+0009..U+000D,
    U+001C..U+0020, U+0085, U+00A0, U+1680, U+2000..U+200A, U+2028,
    U+2029, U+202F, U+205F and U+3000. *)
Definition spaces : list string :=
  char_of <$>
    [[9]; [10]; [11]; [12]; [13]; [28]; [29]; [30]; [31]; [32];
     [194; 133]; [194; 160]; [225; 154; 128];
     [226; 128; 128]; [226; 128; 129]; [226; 128; 130]; [226; 128; 131];
     [226; 128; 132]; [226; 128; 133]; [226; 128; 134]; [226; 128; 135];
     [226; 128; 136]; [226; 128; 137]; [226; 128; 138];
     [226; 128; 168]; [226; 128; 169]; [226; 128; 175]; [226; 129; 159];
     [227; 128; 128]]%nat.

Definition is_space (c : string) : bool := bool_decide (c ∈ spaces).

(** Characters without the whitespace they begin with, and end with. *)
Fixpoint lstrip (cs : list string) : list string :=
  match cs with
  | [] => []
  | c :: cs' => if is_space c then lstrip cs' else cs
  end.

Fixpoint rstrip (cs : list string) : list string :=
  match cs with
  | [] => []
  | c :: cs' =>
      match rstrip cs' with
      | [] => if is_space c then [] else [c]
      | r => c :: r
      end
  end.

(** [s.strip()]: the whitespace characters at either end are removed. *)
Definition strip (s : string) : string := join (rstrip (lstrip (chars s))).

Definition lower_ascii (a : ascii) : ascii :=
  let n := nat_of_ascii a in
  if ((65 <=? n) && (n <=? 90))%nat then ascii_of_nat (n + 32) else a.

(** [s.lower()] on the letters A..Z. Python lowers the capital letters of
    other scripts as well; see [ascii_cased]. *)
Fixpoint lower (s : string) : string :=
  match s with
  | EmptyString => EmptyString
  | String a s' => String (lower_ascii a) (lower s')
  end.


(** [s[:n]]: the first [n] characters. *)
Definition prefix_of (n : nat) (s : string) : string := join (take n (chars s)).

(** A string is trimmed when neither end is a whitespace character. *)
Definition starts_clean (cs : list string) : Prop :=
  match cs with
  | [] => True
  | c :: _ => is_space c = false
  end.

Fixpoint ends_clean (cs : list string) : Prop :=
  match cs with
  | [] => True
  | [c] => is_space c = false
  | _ :: cs' => ends_clean cs'
  end.

Definition trimmed (s : string) : Prop := starts_clean (chars s) ∧ ends_clean (chars s).

(** A character as [chars] cuts it: a byte and continuation bytes. *)
Definition char_like (c : string) : Prop :=
  match c with
  | EmptyString => False
  | String _ rest => ∀ b, b ∈ list_ascii_of_string rest → is_continuation b = true
  end.

Definition leading (c : string) : Prop :=
  match c with
  | EmptyString => False
  | String a _ => is_continuation a = false
  end.

(** The result of [chars]: every part is a character, and every part but
    the first starts with a leading byte. *)
Definition well_cut (cs : list string) : Prop :=
  Forall char_like cs ∧ Forall leading (List.tl cs).

(** Whether no byte of the string is an ASCII letter. *)
Definition letterless (s : string) : bool :=
  forallb (λ a, let n := nat_of_ascii a in
                negb ((65 <=? n) && (n <=? 90) || (97 <=? n) && (n <=? 122))%nat)
    (list_ascii_of_string s).

(** ** Calendar dates of [datetime] *)

Record date : Type := Date { year : Z; month : Z; day : Z }.

(** [d.replace(day=1)]: every month has a first day. *)
Definition replace_day1 (d : date) : date := Date (year d) (month d) 1.

(** [d.replace(year=y)] for a first-of-month [d]: [ValueError] outside
    [MINYEAR..MAXYEAR]. *)
Definition replace_year (y : Z) (d : date) : res date :=
  if ((1 <=? y) && (y <=? 9999))%Z then Ret (Date y (month d) (day d))
  else Raise ValueError.

Definition digit (n : Z) : string :=
  String (ascii_of_nat (48 + Z.to_nat (n `mod` 10))) EmptyString.

Definition pad2 (n : Z) : string := digit (n / 10) +:+ digit n.
Definition pad4 (n : Z) : string := pad2 (n / 100) +:+ pad2 n.

(** [d.isoformat()] *)
Definition isoformat (d : date) : string :=
  pad4 (year d) +:+ "-" +:+ pad2 (month d) +:+ "-" +:+ pad2 (day d).

(** ** Cells *)

(** Leibniz equality of float64 values is decided by the kernel's
    [Leibniz.eqb]; all NaNs are one value. *)
Definition float_eqb_true (x y : float) (E : PrimFloat.Leibniz.eqb x y = true) : x = y :=
  proj1 (FloatAxioms.Leibniz.eqb_spec x y) E.

Definition float_eqb_false (x y : float) (E : PrimFloat.Leibniz.eqb x y = false) : x ≠ y :=
  λ H : x = y,
    eq_ind true (λ b, if b then True else False) I false
      (eq_trans (eq_sym (proj2 (FloatAxioms.Leibniz.eqb_spec x y) H)) E).

#[global] Instance float_eq_dec : EqDecision float := λ x y,
  match PrimFloat.Leibniz.eqb x y as b
        return PrimFloat.Leibniz.eqb x y = b → Decision (x = y) with
  | true => λ E, left (float_eqb_true x y E)
  | false => λ E, right (float_eqb_false x y E)
  end eq_refl.

(** A value held in a table: a Python [str], a float64 (its NaN is the null
    of numeric data, [np.nan]), a [datetime.date] counted in days since the
    epoch, a pandas [Timestamp] counted in nanoseconds since the epoch, and
    [NaT]. *)
Inductive cell : Type :=
| NaT
| Str (s : string)
| Num (x : float)
| Day (d : Z)
| Stamp (t : Z).

#[global] Instance cell_eq_dec : EqDecision cell.
Proof. solve_decision. Defined.

(** [np.nan] *)
Definition NaN : cell := Num nan.

(** [pd.isna] *)
Definition isna (c : cell) : bool :=
  match c with
  | NaT => true
  | Num x => is_nan x
  | _ => false
  end.

Definition rank (c : cell) : nat :=
  match c with
  | Str _ => 0
  | Num _ => 1
  | Day _ => 2
  | Stamp _ => 3
  | NaT => 4
  end.

(** The Python type of a non-null cell. *)
Definition kind (c : cell) : option nat :=
  if isna c then None else Some (rank c).

(** Whether the non-null cells of a column have one type, as sorting
    requires: comparing a [str] with a number or a date is a [TypeError]. *)
Definition homogeneous (l : list cell) : bool :=
  match omap kind l with
  | [] => true
  | k :: ks => forallb (Nat.eqb k) ks
  end.

(** Ascending order with nulls last ([na_position="last"]). Cells of
    different types are ordered by [rank]; [sort_values] raises before it
    compares any. *)
Definition cell_le (a b : cell) : bool :=
  if isna b then true
  else if isna a then false
  else match a, b with
       | Str s, Str t => (s <=? t)%string
       | Num x, Num y => (x <=? y)%float
       | Day d, Day e => (d <=? e)%Z
       | Stamp d, Stamp e => (d <=? e)%Z
       | _, _ => (rank a <=? rank b)%nat
       end.

(** Lexicographic order of two rows' sort keys. *)
Fixpoint lex_le (k1 k2 : list cell) : bool :=
  match k1, k2 with
  | a :: k1', b :: k2' =>
      if negb (cell_le b a) then true
      else if negb (cell_le a b) then false
      else lex_le k1' k2'
  | _, _ => true
  end.

(** A stable sort: an element goes before the first one that is not below
    it, so rows with equal keys keep their order. *)
Fixpoint insert_sorted {A} (le : A → A → bool) (x : A) (l : list A) : list A :=
  match l with
  | [] => [x]
  | y :: l' => if le x y then x :: l else y :: insert_sorted le x l'
  end.

Definition stable_sort {A} (le : A → A → bool) (l : list A) : list A :=
  foldr (insert_sorted le) [] l.

(** [Series.unique()]: first occurrences, in order of appearance. *)
Fixpoint unique {A} `{EqDecision A} (l : list A) : list A :=
  match l with
  | [] => []
  | x :: l' => x :: filter (λ y, y ≠ x) (unique l')
  end.

(** ** Tables *)

Record frame : Type := DataFrame { columns : list string; rows : list (list cell) }.

(** Every row has one cell per column. *)
Definition wf_frame (df : frame) : Prop :=
  Forall (λ r, length r = length (columns df)) (rows df).

(** [df.empty]: some axis has length zero. *)
Definition empty (df : frame) : bool :=
  bool_decide (rows df = []) || bool_decide (columns df = []).

Definition count_label (c : string) (cols : list string) : nat :=
  length (filter (λ l, l = c) cols).

(** The cells of row [r] under the label [c], left to right. *)
Fixpoint at_label (c : string) (cols : list string) (r : list cell) : list cell :=
  match cols, r with
  | l :: cols', x :: r' =>
      if decide (l = c) then x :: at_label c cols' r' else at_label c cols' r'
  | _, _ => []
  end.

Definition cell_of (c : string) (cols : list string) (r : list cell) : cell :=
  default NaN (head (at_label c cols r)).

(** Row [r] with [v] written under the label [c]. *)
Fixpoint put_label (c : string) (v : cell) (cols : list string) (r : list cell) : list cell :=
  match cols, r with
  | l :: cols', x :: r' => (if decide (l = c) then v else x) :: put_label c v cols' r'
  | _, _ => r
  end.

(** [df[c]] used as a Series. A label that is absent is a [KeyError]; a
    label carried by several columns selects a sub-frame, on which the
    Series operation that follows raises [on_frame]. *)
Definition series (on_frame : exn) (c : string) (df : frame) : res (list cell) :=
  match count_label c (columns df) with
  | O => Raise (KeyError c)
  | S O => Ret (map (cell_of c (columns df)) (rows df))
  | _ => Raise on_frame
  end.

(** [df[c] = values], for values aligned with the rows: an existing label
    is overwritten in place, a new one is appended as the last column. *)
Definition setitem (c : string) (vals : list cell) (df : frame) : frame :=
  if decide (c ∈ columns df)
  then DataFrame (columns df)
         (zip_with (λ v r, put_label c v (columns df) r) vals (rows df))
  else DataFrame (columns df ++ [c]) (zip_with (λ v r, r ++ [v]) vals (rows df)).

(** [df[c] = scalar] *)
Definition setitem_scalar (c : string) (v : cell) (df : frame) : frame :=
  setitem c (map (λ _, v) (rows df)) df.

(** [df.rename(columns=mapping)] *)
Definition rename (mapping : list (string * string)) (df : frame) : frame :=
  DataFrame
    (map (λ l, match list_find (λ p, p.1 = l) mapping with
               | Some (_, (_, new)) => new
               | None => l
               end)
         (columns df))
    (rows df).

(** [df[labels]]: the columns under each label, in the order of [labels]. *)
Definition select (labels : list string) (df : frame) : res frame :=
  match list_find (λ c, c ∉ columns df) labels with
  | Some (_, c) => Raise (KeyError c)
  | None =>
      Ret (DataFrame
             (labels ≫= λ c, filter (λ l, l = c) (columns df))
             (map (λ r, labels ≫= λ c, at_label c (columns df) r) (rows df)))
  end.

(** [df.query("c in @vals")] and [df.query("c == @v")]: the rows whose cell
    under [c] passes the test. *)
Definition query (c : string) (test : cell → bool) (df : frame) : res frame :=
  match count_label c (columns df) with
  | O => Raise (UndefinedVariableError c)
  | S O => Ret (DataFrame (columns df)
                  (filter (λ r, test (cell_of c (columns df) r) = true) (rows df)))
  | _ => Raise ValueError
  end.

(** Whether row [r] holds no null under the label [c]. *)
Definition notna_at (c : string) (cols : list string) (r : list cell) : bool :=
  forallb (λ x, negb (isna x)) (at_label c cols r).

(** [df.dropna(subset=[c])] *)
Definition dropna (c : string) (df : frame) : res frame :=
  if decide (c ∈ columns df)
  then Ret (DataFrame (columns df)
              (filter (λ r, notna_at c (columns df) r = true) (rows df)))
  else Raise (KeyError c).

(** Row [r] of a table with columns [cols], laid out on [target]; a label
    the table lacks is filled with NaN. *)
Definition reindex_row (target cols : list string) (r : list cell) : list cell :=
  map (λ c, if decide (c ∈ cols) then cell_of c cols r else NaN) target.

(** [pd.concat(frames, ignore_index=True)]. Tables with the same columns
    are stacked; otherwise the columns are the union in order of first
    appearance, which pandas refuses when a table repeats a label. *)
Definition pd_concat (frames : list frame) : res frame :=
  match frames with
  | [] => Raise ValueError
  | f :: _ =>
      if forallb (λ g, bool_decide (columns g = columns f)) frames
      then Ret (DataFrame (columns f) (frames ≫= rows))
      else if forallb (λ g, bool_decide (NoDup (columns g))) frames
      then let target := unique (frames ≫= columns) in
           Ret (DataFrame target
                  (frames ≫= λ g, map (reindex_row target (columns g)) (rows g)))
      else Raise InvalidIndexError
  end.

Definition sort_key (by_ : list string) (cols : list string) (r : list cell) : list cell :=
  map (λ c, cell_of c cols r) by_.

Definition row_le (by_ : list string) (cols : list string) (r1 r2 : list cell) : bool :=
  lex_le (sort_key by_ cols r1) (sort_key by_ cols r2).

(** What [sort_values] checks of one key before it sorts. (Sorting by
    several keys, pandas orders a key column that mixes numbers and strings,
    numbers first, where this check raises; the program sorts no such
    column.) *)
Definition check_sort_key (c : string) (df : frame) : res unit :=
  col ← series ValueError c df;
  if homogeneous col then Ret () else Raise TypeError.

(** [df.sort_values(by)], ascending, nulls last. Rows with equal keys keep
    their order (for a single key numpy's default sort may not; nothing
    below depends on that order). *)
Definition sort_values (by_ : list string) (df : frame) : res frame :=
  _ ← mapM (λ c, check_sort_key c df) by_;
  Ret (DataFrame (columns df) (stable_sort (row_le by_ (columns df)) (rows df))).

(** ** The host of the program *)

(** What [pct_change] does with nulls before it divides: pandas 1.x and 2.x
    forward-fill them ([fill_method="pad"]), later versions do not. *)
Inductive fill_policy : Type := Ffill | NoFill.

Class Host : Type := {
  (** [pd.read_csv(path)] *)
  read_csv : string → res frame;
  (** [os.path.exists(path)] *)
  path_exists : string → bool;
  (** [pd.ExcelFile(path).sheet_names] *)
  sheet_names : string → res (list string);
  (** [pd.read_excel(xls, sheet_name=sheet)] *)
  read_excel : string → string → res frame;
  (** [os.environ.get(name)] *)
  environ_get : string → option string;
  (** [datetime.today().date()] *)
  today : date;
  (** [dl.taiwan_stock_month_revenue(stock_id, start_date)] of a
      [DataLoader] logged in with the given token, if any *)
  taiwan_stock_month_revenue : option string → string → string → res frame;
  (** [str(x)] for a scalar that is not a [str] *)
  py_str : cell → string;
  (** pandas' reading of a string or a number as a point in time: [None]
      where it raises, [Some None] for NaT *)
  scalar_to_datetime : cell → option (option Z);
  pct_fill : fill_policy;
  (** the place [sorted] gives each value of a list that holds a null among
      values of its own type (a NaN among numbers): every comparison with
      the null is false, and the order that results is that of the sorting
      algorithm on these answers *)
  sorted_place : list cell → cell → nat;
  (** [pd.ExcelWriter(path, engine="openpyxl")]; [Some msg] is what it
      raises *)
  excel_writer : string → option string;
  (** [df.to_excel(writer, sheet_name=title, index=False)] on the writer of
      [path], which has taken the given sheets before. A title it has taken
      before is written to again, cell over cell; openpyxl refuses a title
      with one of the characters [\/*?:[]] *)
  to_excel : string → list (string * frame) → string → frame → option string;
  (** leaving the [with] block: the workbook with the sheets taken is saved *)
  excel_close : string → list (string * frame) → option string
}.

Definition day_ns : Z := 86400000000000.

(** [x.astype(str)] on one cell *)
Definition astype_str `{Host} (c : cell) : string :=
  match c with
  | Str s => s
  | _ => py_str c
  end.

(** The nanoseconds a [Timestamp] can count: those of an int64, whose
    least value stands for NaT. Midnights from 1677-09-22 to 2262-04-11. *)
Definition in_bounds (t : Z) : bool := (- 2 ^ 63 <? t) && (t <? 2 ^ 63).

(** [pd.to_datetime] on one cell; a calendar date beyond the bounds is an
    [OutOfBoundsDatetime], which is a [ValueError]. *)
Definition to_datetime `{Host} (c : cell) : res cell :=
  match c with
  | NaT => Ret NaT
  | Stamp t => Ret (Stamp t)
  | Day d => if in_bounds (d * day_ns) then Ret (Stamp (d * day_ns)) else Raise ValueError
  | _ =>
      if isna c then Ret NaT
      else match scalar_to_datetime c with
           | Some (Some t) => Ret (Stamp t)
           | Some None => Ret NaT
           | None => Raise ValueError
           end
  end.

(** [.dt.date] on one cell of a datetime column *)
Definition dt_date (c : cell) : cell :=
  match c with
  | Stamp t => Day (t `div` day_ns)
  | _ => c
  end.

(** [df["date"] = pd.to_datetime(df["date"])] *)
Definition datetime_column `{Host} (df : frame) : res frame :=
  col ← series ValueError "date" df;
  ts ← mapM to_datetime col;
  Ret (setitem "date" ts df).

(** [df["date"] = pd.to_datetime(df["date"]).dt.date] *)
Definition date_column `{Host} (df : frame) : res frame :=
  col ← series ValueError "date" df;
  ts ← mapM to_datetime col;
  Ret (setitem "date" (map dt_date ts) df).

(** Row [r] with [f] applied to the cells under the label [c]. *)
Fixpoint map_label (c : string) (f : cell → cell) (cols : list string) (r : list cell) : list cell :=
  match cols, r with
  | l :: cols', x :: r' => (if decide (l = c) then f x else x) :: map_label c f cols' r'
  | _, _ => r
  end.

(** [df[c] = df[c].astype(str)]; every column under the label is
    converted. *)
Definition astype_str_column `{Host} (c : string) (df : frame) : res frame :=
  if decide (c ∈ columns df)
  then Ret (DataFrame (columns df)
              (map (map_label c (λ x, Str (astype_str x)) (columns df)) (rows df)))
  else Raise (KeyError c).

(** [df[c] = df[c].astype(str).str.strip()]; a sub-frame has no [.str]. *)
Definition strip_column `{Host} (c : string) (df : frame) : res frame :=
  col ← series AttributeError c df;
  Ret (setitem c (map (λ x, Str (strip (astype_str x))) col) df).

(** Python's [x == y] on cells: a null equals nothing. *)
Definition py_eq (x y : cell) : bool :=
  negb (isna x) && negb (isna y) && bool_decide (x = y).

(** A [dict] in insertion order. *)
Definition dict_get {V} (k : cell) (d : list (cell * V)) : option V :=
  snd <$> (snd <$> list_find (λ p, p.1 = k) d).

Fixpoint dict_set {V} (k : cell) (v : V) (d : list (cell * V)) : list (cell * V) :=
  match d with
  | [] => [(k, v)]
  | (k', v') :: d' => if decide (k' = k) then (k, v) :: d' else (k', v') :: dict_set k v d'
  end.

(** [Series.to_dict()] of values indexed by keys: the last row of a key wins. *)
Definition to_dict {V} (keys : list cell) (vals : list V) : list (cell * V) :=
  foldl (λ d p, dict_set p.1 p.2 d) [] (zip keys vals).

(** [s.map(d)] on one cell: a key the dict lacks gives NaN. *)
Definition map_dict (d : list (cell * string)) (k : cell) : cell :=
  match dict_get k d with
  | Some s => Str s
  | None => NaN
  end.

(** ** [pct_change] within groups *)

(** [s.shift(periods)] *)
Definition shift (periods : nat) (s : list float) : list float :=
  take (length s) (replicate periods nan ++ s).

(** [s.ffill()], with [last] the latest value seen *)
Fixpoint ffill_from (last : float) (s : list float) : list float :=
  match s with
  | [] => []
  | x :: s' => let y := if is_nan x then last else x in y :: ffill_from y s'
  end.

Definition fill (p : fill_policy) (s : list float) : list float :=
  match p with
  | Ffill => ffill_from nan s
  | NoFill => s
  end.

(** [s.pct_change(periods)]: [(filled / filled.shift(periods)) - 1] *)
Definition pct_change `{Host} (periods : nat) (s : list float) : list float :=
  let filled := fill pct_fill s in
  zip_with (λ a b, (a / b - 1)%float) filled (shift periods filled).

(** The values of the rows whose key is [k], in row order. *)
Definition group_of (k : cell) (keys : list cell) (vals : list float) : list float :=
  snd <$> filter (λ p, p.1 = k) (zip keys vals).

(** [groupby(keys)[vals].transform(f)]: each row receives the entry of its
    group's result at the row's position within the group; [seen] are the
    keys of the rows already passed. Rows with a null key belong to no
    group and receive NaN. *)
Fixpoint transform_from (f : list float → list float) (keys : list cell) (vals : list float)
    (seen rest : list cell) : list float :=
  match rest with
  | [] => []
  | k :: rest' =>
      (if isna k then nan
       else default nan (f (group_of k keys vals) !! length (filter (λ k', k' = k) seen)))
      :: transform_from f keys vals (seen ++ [k]) rest'
  end.

Definition groupby_transform (f : list float → list float) (keys : list cell) (vals : list float)
    : list float :=
  transform_from f keys vals [] keys.

(** A cell as an operand of float arithmetic. *)
Definition to_float (c : cell) : res float :=
  match c with
  | Num x => Ret x
  | _ => Raise TypeError
  end.

(** [df.groupby(by_)[col].pct_change(periods)] *)
Definition groupby_pct_change `{Host} (by_ col : string) (periods : nat) (df : frame)
    : res (list cell) :=
  keys ← series ValueError by_ df;
  vals ← series ValueError col df;
  xs ← mapM to_float vals;
  Ret (Num <$> groupby_transform (pct_change periods) keys xs).

(** * app.py *)

Definition DATA_XLSX : string := "sector_dashboard.xlsx".
Definition GROUPS_CSV : string := "groups.csv".
Definition SHEET_NAME_FALLBACK : string := "連接器".

(** The columns of a revenue table. *)
Definition canonical : list string := ["ticker"; "name"; "date"; "revenue"].

(** The columns of the registry. *)
Definition required : list string := ["ticker"; "name"; "sector"].

(** [df.columns = [c.strip().lower() for c in df.columns]] *)
Definition normalize_header (df : frame) : frame :=
  DataFrame (map (λ c, lower (strip c)) (columns df)) (rows df).

(** [required - set(df.columns)] *)
Definition missing_columns (df : frame) : list string :=
  filter (λ c, c ∉ columns df) required.

Definition load_groups `{Host} (groups_csv : string) : res frame :=
  df ← read_csv groups_csv;
  let df := normalize_header df in
  let missing := missing_columns df in
  if bool_decide (missing ≠ []) then Raise (SchemaError missing)
  else
    df ← strip_column "ticker" df;
    df ← strip_column "sector" df;
    df ← strip_column "name" df;
    Ret df.

(** [{"ticker","name","date","revenue"}.issubset(set(df.columns))] *)
Definition has_canonical (df : frame) : bool :=
  forallb (λ c, bool_decide (c ∈ columns df)) canonical.

(** The loop of [load_excel_dashboard] over [xls.sheet_names]. *)
Fixpoint read_sheets `{Host} (xlsx_path : string) (names : list string)
    (sheets : gmap string frame) : res (gmap string frame) :=
  match names with
  | [] => Ret sheets
  | sheet :: names' =>
      df ← read_excel xlsx_path sheet;
      if has_canonical df
      then df ← date_column df;
           read_sheets xlsx_path names' (<[sheet := df]> sheets)
      else read_sheets xlsx_path names' sheets
  end.

Definition load_excel_dashboard `{Host} (xlsx_path : string) : res (gmap string frame) :=
  if negb (path_exists xlsx_path) then Ret ∅
  else
    names ← sheet_names xlsx_path;
    read_sheets xlsx_path names ∅.

(** The token the [DataLoader] is logged in with: [if token:] skips an
    absent or empty one. *)
Definition login `{Host} : option string :=
  match environ_get "FINMIND_TOKEN" with
  | Some token => if bool_decide (token = "") then None else Some token
  | None => None
  end.

Definition provider_columns : list (string * string) :=
  [("stock_id", "ticker"); ("Revenue", "revenue"); ("revenue", "revenue");
   ("date", "date"); ("stock_name", "name")].

(** [groups_df.set_index("ticker")["name"].astype(str).to_dict()] *)
Definition name_map_of `{Host} (groups_df : frame) : res (list (cell * string)) :=
  tickers ← series ValueError "ticker" groups_df;
  names ← series ValueError "name" groups_df;
  Ret (to_dict tickers (astype_str <$> names)).

(** ["name" not in df.columns or df["name"].isna().all()] *)
Definition lacks_names (df : frame) : res bool :=
  if bool_decide ("name" ∉ columns df) then Ret true
  else col ← series ValueError "name" df; Ret (forallb isna col).

(** [df["name"] = df["ticker"].map(name_map)] *)
Definition names_from_registry (name_map : list (cell * string)) (df : frame) : res frame :=
  tickers ← series TypeError "ticker" df;
  Ret (setitem "name" (map_dict name_map <$> tickers) df).

(** [for c in need: if c not in out.columns: out[c] = np.nan] *)
Definition add_missing (need : list string) (out : frame) : frame :=
  foldl (λ o c, if bool_decide (c ∈ columns o) then o else setitem_scalar c NaN o) out need.

(** Lines 58-83 of [fetch_monthly_revenue_finmind]: what becomes of the
    provider's answer [raw]. *)
Definition live_table `{Host} (groups_df : frame) (raw : frame) : res frame :=
  if empty raw then Ret (DataFrame canonical [])
  else
    let out := rename provider_columns raw in
    out ← astype_str_column "ticker" out;
    out ← date_column out;
    name_map ← name_map_of groups_df;
    no_names ← lacks_names out;
    out ← (if no_names : bool then names_from_registry name_map out else Ret out);
    let need := canonical in
    let out := add_missing need out in
    out ← select need out;
    sort_values ["date"] out.

(** [groups_df] is the module-level registry the function reads. *)
Definition fetch_monthly_revenue_finmind `{Host} (groups_df : frame) (ticker : cell) (years : Z)
    : res frame :=
  let dl := login in
  let start := Date 2023 1 1 in
  raw ← taiwan_stock_month_revenue dl (astype_str ticker) (isoformat start);
  live_table groups_df raw.

(** Steps 1 and 2 of [get_sector_data]: the cached rows of the sector's
    tickers, from the sector's sheet or else from the fallback sheet. *)
Definition cached_frames (sector : string) (tickers : list cell)
    (excel_sheets : gmap string frame) : res (list frame) :=
  let isin := λ x, bool_decide (x ∈ tickers) in
  match excel_sheets !! sector with
  | Some sheet => f ← query "ticker" isin sheet; Ret [f]
  | None =>
      match excel_sheets !! SHEET_NAME_FALLBACK with
      | Some sheet => f ← query "ticker" isin sheet; Ret [f]
      | None => Ret []
      end
  end.

(** [set(pd.concat(frames)["ticker"]) if frames else set()] *)
Definition covered (frames : list frame) : res (list cell) :=
  match frames with
  | [] => Ret []
  | _ => df ← pd_concat frames; series ValueError "ticker" df
  end.

(** [groups.query("sector == @sector")["ticker"].unique().tolist()] *)
Definition sector_tickers (sector : cell) (groups : frame) : res (list cell) :=
  g ← query "sector" (λ x, py_eq x sector) groups;
  col ← series ValueError "ticker" g;
  Ret (unique col).

Definition get_sector_data `{Host} (groups_df : frame) (sector : string) (groups : frame)
    (excel_sheets : gmap string frame) : res frame :=
  tickers ← sector_tickers (Str sector) groups;
  frames ← cached_frames sector tickers excel_sheets;
  have ← covered frames;
  let need := filter (λ t, t ∉ have) tickers in
  live ← mapM (λ t, fetch_monthly_revenue_finmind groups_df t 3) need;
  let frames := frames ++ live in
  if bool_decide (frames = []) then Ret (DataFrame canonical [])
  else
    df ← pd_concat frames;
    df ← dropna "date" df;
    sort_values ["ticker"; "date"] df.

Definition enrich_kpi `{Host} (df : frame) : res frame :=
  if empty df then Ret df
  else
    df ← datetime_column df;
    df ← sort_values ["ticker"; "date"] df;
    mom ← groupby_pct_change "ticker" "revenue" 1 df;
    let df := setitem "revenue_mom" mom df in
    yoy ← groupby_pct_change "ticker" "revenue" 12 df;
    let df := setitem "revenue_yoy" yoy df in
    Ret df.

(** ** The page *)

(** [df.groupby(key).tail(n)]: the last [n] rows of each group, in table
    order; a row with a null key belongs to no group. *)
Fixpoint groupby_tail (n : nat) (key : list cell → cell) (l : list (list cell))
    : list (list cell) :=
  match l with
  | [] => []
  | r :: l' =>
      if negb (isna (key r)) && (length (filter (λ r', key r' = key r) l') <? n)%nat
      then r :: groupby_tail n key l'
      else groupby_tail n key l'
  end.

(** Line 150: [sector_df.sort_values("date").groupby("ticker").tail(1)] *)
Definition latest_rows (sector_df : frame) : res frame :=
  df ← sort_values ["date"] sector_df;
  _ ← series ValueError "ticker" df;
  Ret (DataFrame (columns df) (groupby_tail 1 (cell_of "ticker" (columns df)) (rows df))).

(** Line 201: [sector_df.query("ticker == @ticker")] *)
Definition stock_rows (ticker : cell) (sector_df : frame) : res frame :=
  query "ticker" (λ x, py_eq x ticker) sector_df.

(** [df.tail(n)] *)
Definition tail (n : nat) (df : frame) : frame :=
  DataFrame (columns df) (drop (length (rows df) - n) (rows df)).

(** [f"{v:.1%}" if pd.notna(v) else "—"]: [None] is the dash, [Some v] the
    value that is formatted. *)
Definition shown (v : cell) : option cell := if isna v then None else Some v.

(** [df[c]] evaluated: only an absent label raises. *)
Definition getitem (c : string) (df : frame) : res unit :=
  if decide (c ∈ columns df) then Ret () else Raise (KeyError c).

(** Lines 217-222: the two figures of the drill-down, [None] when the
    stock has no rows. Both columns are read before either figure is
    tested; testing a sub-frame for null is a [ValueError]. *)
Definition latest_metrics (stock_df : frame) : res (option (option cell * option cell)) :=
  let last12 := tail 12 stock_df in
  if empty last12 then Ret None
  else
    _ ← getitem "revenue_yoy" last12;
    _ ← getitem "revenue_mom" last12;
    yoy ← series ValueError "revenue_yoy" last12;
    mom ← series ValueError "revenue_mom" last12;
    Ret (y ← last yoy; m ← last mom; Some (shown y, shown m)).

(** * fetch_monthly_revenue.py *)

Definition batch_columns : list (string * string) :=
  [("stock_id", "ticker"); ("date", "date"); ("Revenue", "revenue");
   ("revenue", "revenue"); ("stock_name", "name")].

(** The start date of a batch request: the first of this month, [years] ago. *)
Definition batch_start `{Host} (years : Z) : res string :=
  d ← replace_year (year today - years) (replace_day1 today);
  Ret (isoformat d).

(** The inner loop of [fetch_all] over the tickers of one sector; [frames]
    are the tables gathered so far. *)
Fixpoint fetch_tickers `{Host} (dl : option string) (name_map : list (cell * string))
    (years : Z) (tickers : list string) (frames : list frame) : res (list frame) :=
  match tickers with
  | [] => Ret frames
  | t :: tickers' =>
      start ← batch_start years;
      sub ← taiwan_stock_month_revenue dl t start;
      if empty sub then fetch_tickers dl name_map years tickers' frames
      else
        let sub := rename batch_columns sub in
        sub ← astype_str_column "ticker" sub;
        no_names ← lacks_names sub;
        sub ← (if no_names : bool then names_from_registry name_map sub else Ret sub);
        sub ← select canonical sub;
        fetch_tickers dl name_map years tickers' (frames ++ [sub])
  end.

(** The outer loop of [fetch_all] over the sorted sectors. *)
Fixpoint fetch_sectors `{Host} (dl : option string) (name_map : list (cell * string))
    (years : Z) (df : frame) (sectors : list cell) (sheets : list (cell * frame))
    : res (list (cell * frame)) :=
  match sectors with
  | [] => Ret sheets
  | sector :: sectors' =>
      g ← query "sector" (λ x, py_eq x sector) df;
      col ← series ValueError "ticker" g;
      frames ← fetch_tickers dl name_map years (unique (astype_str <$> col)) [];
      if bool_decide (frames ≠ [])
      then out ← pd_concat frames;
           out ← date_column out;
           out ← sort_values ["ticker"; "date"] out;
           fetch_sectors dl name_map years df sectors' (dict_set sector out sheets)
      else fetch_sectors dl name_map years df sectors' sheets
  end.

(** The Python type of a cell, as a comparison sees it: NaN is a float,
    NaT goes with the timestamps. *)
Definition py_type (c : cell) : nat :=
  match c with
  | Str _ => 0
  | Num _ => 1
  | Day _ => 2
  | Stamp _ | NaT => 3
  end.

(** [sorted(l)]. A list of fewer than two values is returned without a
    comparison. Values of different types cannot be compared: a
    [TypeError], also for a NaN among strings. A null among values of its
    own type compares false with each of them; the order of the result is
    then no sorted order, and is taken from the host. *)
Definition py_sorted `{Host} (l : list cell) : res (list cell) :=
  match l with
  | [] | [_] => Ret l
  | c :: _ =>
      if forallb (λ x, py_type x =? py_type c)%nat l
      then Ret (if existsb isna l
                then stable_sort (λ a b, sorted_place l a <=? sorted_place l b)%nat l
                else stable_sort cell_le l)
      else Raise TypeError
  end.

(** [sorted(df["sector"].unique())] *)
Definition sorted_sectors `{Host} (df : frame) : res (list cell) :=
  col ← series AttributeError "sector" df;
  py_sorted (unique col).

Definition fetch_all `{Host} (groups_csv : string) (years : Z) : res (list (cell * frame)) :=
  df ← read_csv groups_csv;
  let df := normalize_header df in
  let missing := missing_columns df in
  if bool_decide (missing ≠ []) then Raise (SchemaError missing)
  else
    tickers ← series ValueError "ticker" df;
    names ← series ValueError "name" df;
    let name_map := to_dict ((λ x, Str (astype_str x)) <$> tickers) (astype_str <$> names) in
    sectors ← sorted_sectors df;
    let dl := login in
    fetch_sectors dl name_map years df sectors [].

(** [sheet[:31]], the first 31 characters: only a [str] key can be sliced. *)
Definition sheet_title (sheet : cell) : res string :=
  match sheet with
  | Str s => Ret (prefix_of 31 s)
  | _ => Raise TypeError
  end.

Definition writer_step (r : option string) : res unit :=
  match r with
  | Some msg => Raise (WriterFault msg)
  | None => Ret ()
  end.

(** The loop of the [__main__] block over [sheets.items()]; [written] are
    the sheets the writer has taken so far. The result is the sheets it has
    taken when the loop ends, and what ended the loop. *)
Fixpoint write_sheets `{Host} (path : string) (sheets : list (cell * frame))
    (written : list (string * frame)) : list (string * frame) * res unit :=
  match sheets with
  | [] => (written, Ret ())
  | (sheet, df) :: sheets' =>
      match sheet_title sheet with
      | Raise e => (written, Raise e)
      | Ret title =>
          match to_excel path written title df with
          | Some msg => (written, Raise (WriterFault msg))
          | None => write_sheets path sheets' (written ++ [(title, df)])
          end
      end
  end.

(** The [__main__] block. When the script completes, its result is the
    list of the calls of [to_excel] it has made on the writer of
    [sector_dashboard.xlsx], each with its sheet title and table, in
    order; what the workbook then holds is the writer's matter (two calls
    with one title fill one sheet). Leaving the [with] block closes the
    writer whether or not the loop has raised, and an exception of the
    closing takes the place of that of the loop. *)
Definition main `{Host} : res (list (string * frame)) :=
  sheets ← fetch_all "groups.csv" 3;
  if bool_decide (sheets = [])
  then Raise (SystemExit "No data fetched. Check groups.csv or FinMind token.")
  else
    _ ← writer_step (excel_writer "sector_dashboard.xlsx");
    let (written, body) := write_sheets "sector_dashboard.xlsx" sheets [] in
    _ ← writer_step (excel_close "sector_dashboard.xlsx" written);
    _ ← body;
    Ret written.

(** * Notions used in the statements *)

(** What [read_sheets] keeps true of every sheet it has stored. *)
Definition from_workbook `{Host} (xlsx_path sheet : string) (df : frame) : Prop :=
  ∃ raw, read_excel xlsx_path sheet = Ret raw ∧ has_canonical raw = true
         ∧ columns df = columns raw.

(** One row of [df[c] = df[c].astype(str).str.strip()]. *)
Definition strip_row `{Host} (c : string) (cols : list string) (r : list cell) : list cell :=
  put_label c (Str (strip (astype_str (cell_of c cols r)))) cols r.

(** [setitem] on the header and on one row. *)
Definition set_cols (c : string) (cols : list string) : list string :=
  if decide (c ∈ cols) then cols else cols ++ [c].

Definition set_row (c : string) (v : cell) (cols : list string) (r : list cell) : list cell :=
  if decide (c ∈ cols) then put_label c v cols r else r ++ [v].

(** * The growth rates in the words of the specification *)

(** Entry [j] of a growth-rate column over the sequence [s], [periods]
    back: null for the first [periods] positions, and
    [(s[j] / s[j - periods]) - 1] afterwards. *)
Definition spec_pct (periods : nat) (s : list float) (j : nat) : float :=
  if (j <? periods)%nat then nan
  else (default nan (s !! j) / default nan (s !! (j - periods)%nat) - 1)%float.

(** The rows of ticker [k], in table order. *)
Definition ticker_rows (k : cell) (df : frame) : list (list cell) :=
  filter (λ r, cell_of "ticker" (columns df) r = k) (rows df).

(** A revenue table as the data model has it: one ticker, one date and one
    revenue column; tickers are strings, dates are dates (or timestamps,
    or missing), revenues are numbers. *)
Definition revenue_row (cols : list string) (r : list cell) : Prop :=
  length r = length cols
  ∧ (∃ s, cell_of "ticker" cols r = Str s)
  ∧ (cell_of "date" cols r = NaT ∨ (∃ d, cell_of "date" cols r = Day d)
     ∨ ∃ t, cell_of "date" cols r = Stamp t)
  ∧ ∃ x, cell_of "revenue" cols r = Num x.

Definition revenue_table (df : frame) : Prop :=
  Forall (λ c, count_label c (columns df) = 1%nat) ["ticker"; "date"; "revenue"]
  ∧ Forall (revenue_row (columns df)) (rows df).

(** A date [pd.to_datetime] takes as it is: NaT, a timestamp, or a
    calendar date within the bounds of timestamps. *)
Definition datable (c : cell) : Prop :=
  match c with
  | Day d => in_bounds (d * day_ns) = true
  | _ => True
  end.

(** * The enriched table *)

(** A cell of a datetime column. *)
Definition is_time (c : cell) : Prop := c = NaT ∨ ∃ t, c = Stamp t.

(** A cell of a column of calendar dates. *)
Definition is_day (c : cell) : Prop := c = NaT ∨ ∃ d, c = Day d.

(** A calendar date as the timestamp of its midnight. *)
Definition midnight (c : cell) : cell :=
  match c with
  | Day d => Stamp (d * day_ns)
  | _ => c
  end.

(** Line 117 on a table of such dates: every calendar date has become the
    timestamp of its midnight, and nothing else has changed. *)
Definition stamped (df : frame) : frame :=
  setitem "date" (map (λ r, midnight (cell_of "date" (columns df) r)) (rows df)) df.

(** Line 118 after it: the rows of the table in (ticker, date) order, rows
    with equal keys in the order they had. *)
Definition chronological (df : frame) : frame :=
  let d := stamped df in
  DataFrame (columns d) (stable_sort (row_le ["ticker"; "date"] (columns d)) (rows d)).

(** What lines 117-118 of [enrich_kpi] leave: a table [d] sorted by ticker
    and date, whose dates are timestamps and whose revenues are the
    floats [xs]. *)
Definition sorted_base (d : frame) (xs : list float) : Prop :=
  wf_frame d
  ∧ Forall (λ c, count_label c (columns d) = 1%nat) ["ticker"; "date"; "revenue"]
  ∧ homogeneous (map (cell_of "ticker" (columns d)) (rows d)) = true
  ∧ homogeneous (map (cell_of "date" (columns d)) (rows d)) = true
  ∧ Forall is_time (map (cell_of "date" (columns d)) (rows d))
  ∧ map (cell_of "revenue" (columns d)) (rows d) = Num <$> xs
  ∧ Sorted (λ r1 r2, row_le ["ticker"; "date"] (columns d) r1 r2 = true) (rows d).

(** What lines 120-121 add to it. *)
Definition with_rates `{Host} (d : frame) (xs : list float) : frame :=
  let keys := map (cell_of "ticker" (columns d)) (rows d) in
  setitem "revenue_yoy" (Num <$> groupby_transform (pct_change 12) keys xs)
    (setitem "revenue_mom" (Num <$> groupby_transform (pct_change 1) keys xs) d).

(** * Sectors with data *)




(** The message of the [SystemExit] in the [__main__] block. *)
Definition no_data : string := "No data fetched. Check groups.csv or FinMind token.".



(** * Notions used in the further results *)

(** [dl.taiwan_stock_month_revenue] replaced, everything else of the host kept. *)
Definition with_provider (H : Host) (provider : option string → string → string → res frame)
    : Host :=
  {| read_csv := @read_csv H;
     path_exists := @path_exists H;
     sheet_names := @sheet_names H;
     read_excel := @read_excel H;
     environ_get := @environ_get H;
     today := @today H;
     taiwan_stock_month_revenue := provider;
     py_str := @py_str H;
     scalar_to_datetime := @scalar_to_datetime H;
     pct_fill := @pct_fill H;
     sorted_place := @sorted_place H;
     excel_writer := @excel_writer H;
     to_excel := @to_excel H;
     excel_close := @excel_close H |}.

(** A row's name is what the registry has for its ticker. *)
Definition named_by (name_map : list (cell * string)) (cols : list string) (r : list cell)
    : Prop :=
  cell_of "name" cols r = map_dict name_map (cell_of "ticker" cols r).

(** A row of a fetched table: the ticker is a string, the date a calendar
    date or NaT. *)
Definition live_row (cols : list string) (r : list cell) : Prop :=
  (∃ s, cell_of "ticker" cols r = Str s) ∧ is_day (cell_of "date" cols r).

(** * A host for the examples *)

(** January, February and March 2023, in days since the epoch. *)
Definition iso_dates : list (string * Z) :=
  [("2023-01-01", 19358); ("2023-02-01", 19389); ("2023-03-01", 19417)].

Definition demo_datetime (c : cell) : option (option Z) :=
  match c with
  | Str s =>
      match list_find (λ p, p.1 = s) iso_dates with
      | Some (_, (_, d)) => Some (Some (d * day_ns))
      | None => None
      end
  | _ => None
  end.

(** Only the nulls are printed; the examples hold no other non-string. *)
Definition demo_str (c : cell) : string :=
  match c with
  | Str s => s
  | NaT => "NaT"
  | _ => "nan"
  end.

(** The characters openpyxl refuses in a sheet title. *)
Definition refused : list string := ["\"; "/"; "*"; "?"; ":"; "["; "]"].

Definition demo_to_excel (title : string) : option string :=
  if bool_decide (Exists (λ c, c ∈ refused) (chars title))
  then Some "Invalid character found in sheet title"
  else None.

(** A host with one registry file, one workbook ([None]: no file), a
    provider that ignores the token, and no token in the environment. It
    leaves a list with a NaN in the order it has, and its Excel writer
    refuses nothing but the titles openpyxl refuses. *)
Definition demo_host (registry : res frame) (book : option (list (string * frame)))
    (provider : string → string → res frame) (policy : fill_policy) : Host :=
  {| read_csv _ := registry;
     path_exists _ := bool_decide (is_Some book);
     sheet_names _ := Ret (fst <$> default [] book);
     read_excel _ sheet :=
       match list_find (λ p, p.1 = sheet) (default [] book) with
       | Some (_, (_, df)) => Ret df
       | None => Raise ValueError
       end;
     environ_get _ := None;
     today := Date 2026 11 3;
     taiwan_stock_month_revenue _ := provider;
     py_str := demo_str;
     scalar_to_datetime := demo_datetime;
     pct_fill := policy;
     sorted_place _ _ := 0%nat;
     excel_writer _ := None;
     to_excel _ _ title _ := demo_to_excel title;
     excel_close _ _ := None |}.

(** A registry of one sector, "chips", with the tickers A and B. *)
Definition demo_registry : frame :=
  DataFrame ["ticker"; "name"; "sector"]
    [[Str "A"; Str "Alpha"; Str "chips"]; [Str "B"; Str "Beta"; Str "chips"]].

(** The provider's answer for one ticker: a revenue per ISO date. *)
Definition provider_rows (ticker : string) (l : list (string * float)) : frame :=
  DataFrame ["date"; "stock_id"; "revenue"]
    (map (λ p, [Str p.1; Str ticker; Num p.2]) l).

(** A provider answer without a ticker column. *)
Definition headless_answer : frame :=
  DataFrame ["date"; "revenue"] [[Str "2023-01-01"; Num 100]].

(** A provider answer without a revenue column. *)
Definition revenueless_answer : frame :=
  DataFrame ["date"; "stock_id"] [[Str "2023-01-01"; Str "A"]].

(** A workbook with a revenue sheet and a sheet of notes. *)
Definition demo_book : list (string * frame) :=
  [("chips", DataFrame ["ticker"; "name"; "date"; "revenue"]
               [[Str "A"; Str "Alpha"; Str "2023-01-01"; Num 100]]);
   ("notes", DataFrame ["ticker"; "memo"] [[Str "A"; Str "call the auditor"]])].

(** A provider without data. *)
Definition silent (stock_id start_date : string) : res frame := Ret (DataFrame [] []).

(** The revenue sheet of [demo_book] as the cache reader returns it. *)
Definition demo_sheet : frame :=
  DataFrame ["ticker"; "name"; "date"; "revenue"]
    [[Str "A"; Str "Alpha"; Day 19358; Num 100]].

(** A provider that answers for every ticker but B. *)
Definition flaky (stock_id start_date : string) : res frame :=
  if bool_decide (stock_id = "B") then Raise (ProviderFault "timeout")
  else Ret (provider_rows stock_id [("2023-01-01", 100%float); ("2023-02-01", 110%float)]).

(** A provider that answers for every ticker. *)
Definition steady (stock_id start_date : string) : res frame :=
  Ret (provider_rows stock_id [("2023-01-01", 100%float); ("2023-02-01", 110%float)]).

(** A workbook whose sheet for the sector holds the same row twice. *)
Definition doubled_book : list (string * frame) :=
  [("chips", DataFrame ["ticker"; "name"; "date"; "revenue"]
               [[Str "A"; Str "Alpha"; Str "2023-01-01"; Num 100];
                [Str "A"; Str "Alpha"; Str "2023-01-01"; Num 100]])].

(** Its sheet as the cache reader returns it. *)
Definition doubled_sheet : frame :=
  DataFrame ["ticker"; "name"; "date"; "revenue"]
    [[Str "A"; Str "Alpha"; Day 19358; Num 100];
     [Str "A"; Str "Alpha"; Day 19358; Num 100]].

(** The (ticker, date) pairs of a revenue table. *)
Definition ticker_dates (df : frame) : list (cell * cell) :=
  map (λ r, (cell_of "ticker" (columns df) r, cell_of "date" (columns df) r)) (rows df).



(** U+3000, the ideographic space, and U+00A0, the no-break space. *)
Definition wide_space : string := char_of [227; 128; 128]%nat.
Definition hard_space : string := char_of [194; 160]%nat.

(** A registry file with untidy header and fields. *)
Definition untidy_csv : frame :=
  DataFrame [" Ticker"; "NAME"; "Sector" +:+ wide_space; "memo"]
    [[Str " A "; Str ("Alpha " +:+ wide_space); Str " chips"; Str " keep "];
     [Str "B"; Str (hard_space +:+ "Beta"); Str "chips "; NaN]].

(** Revenues of two tickers, out of order: A has 100, 110, 121 in January,
    February, March; B has 0 then 5. *)
Definition demo_revenue : frame :=
  DataFrame ["ticker"; "name"; "date"; "revenue"]
    [[Str "B"; Str "Beta"; Day 19389; Num 5];
     [Str "A"; Str "Alpha"; Day 19417; Num 121];
     [Str "A"; Str "Alpha"; Day 19358; Num 100];
     [Str "B"; Str "Beta"; Day 19358; Num 0];
     [Str "A"; Str "Alpha"; Day 19389; Num 110]].

(** [demo_revenue] enriched; no revenue is null, so the fill plays no part. *)
Definition demo_enriched : frame :=
  DataFrame ["ticker"; "name"; "date"; "revenue"; "revenue_mom"; "revenue_yoy"]
    [[Str "A"; Str "Alpha"; Stamp (19358 * day_ns); Num 100; NaN; NaN];
     [Str "A"; Str "Alpha"; Stamp (19389 * day_ns); Num 110; Num (110 / 100 - 1); NaN];
     [Str "A"; Str "Alpha"; Stamp (19417 * day_ns); Num 121; Num (121 / 110 - 1); NaN];
     [Str "B"; Str "Beta"; Stamp (19358 * day_ns); Num 0; NaN; NaN];
     [Str "B"; Str "Beta"; Stamp (19389 * day_ns); Num 5; Num infinity; NaN]].

(** Revenues of one ticker with a missing figure in the middle. *)
Definition gapped_revenue : frame :=
  DataFrame ["ticker"; "name"; "date"; "revenue"]
    [[Str "A"; Str "Alpha"; Day 19358; Num 100];
     [Str "A"; Str "Alpha"; Day 19389; NaN];
     [Str "A"; Str "Alpha"; Day 19417; Num 110]].

(** A registry of two sectors. *)
Definition two_sector_registry : frame :=
  DataFrame ["ticker"; "name"; "sector"]
    [[Str "A"; Str "Alpha"; Str "chips"]; [Str "P"; Str "Pulp"; Str "paper"]].

(** A provider that has rows for ticker A only. *)
Definition only_A (stock_id start_date : string) : res frame :=
  if bool_decide (stock_id = "A")
  then Ret (provider_rows "A" [("2023-01-01", 100%float)])
  else Ret (DataFrame [] []).

(** What [fetch_all] returns for [two_sector_registry] and [only_A]. *)
Definition chips_only : list (cell * frame) :=
  [(Str "chips",
    DataFrame ["ticker"; "name"; "date"; "revenue"]
      [[Str "A"; Str "Alpha"; Day 19358; Num 100]])].

(** A registry that lists ticker A twice, under two names. *)
Definition renamed_registry : frame :=
  DataFrame ["ticker"; "name"; "sector"]
    [[Str "A"; Str "Alpha"; Str "chips"]; [Str "A"; Str "Alfa"; Str "chips"]].

(** What the fetcher returns for ticker A from [steady]. *)
Definition steady_A : frame :=
  DataFrame ["ticker"; "name"; "date"; "revenue"]
    [[Str "A"; Str "Alpha"; Day 19358; Num 100];
     [Str "A"; Str "Alpha"; Day 19389; Num 110]].

(** A provider that fails for ticker A and answers for the others. *)
Definition steady_but_A (token : option string) (stock_id start_date : string) : res frame :=
  if bool_decide (stock_id = "A") then Raise (ProviderFault "timeout")
  else steady stock_id start_date.

(** A registry file with a header and no rows. *)
Definition blank_registry : frame := DataFrame ["ticker"; "name"; "sector"] [].

(** [untidy_csv] as the registry loader returns it. *)
Definition tidy_registry : frame :=
  DataFrame ["ticker"; "name"; "sector"; "memo"]
    [[Str "A"; Str "Alpha"; Str "chips"; Str " keep "];
     [Str "B"; Str "Beta"; Str "chips"; NaN]].

(** [gapped_revenue] enriched under the forward fill. *)
Definition gapped_enriched : frame :=
  DataFrame ["ticker"; "name"; "date"; "revenue"; "revenue_mom"; "revenue_yoy"]
    [[Str "A"; Str "Alpha"; Stamp (19358 * day_ns); Num 100; NaN; NaN];
     [Str "A"; Str "Alpha"; Stamp (19389 * day_ns); NaN; Num 0; NaN];
     [Str "A"; Str "Alpha"; Stamp (19417 * day_ns); Num 110; Num (110 / 100 - 1); NaN]].

(** The latest month of each ticker of [demo_enriched]. *)
Definition demo_latest : frame :=
  DataFrame ["ticker"; "name"; "date"; "revenue"; "revenue_mom"; "revenue_yoy"]
    [[Str "B"; Str "Beta"; Stamp (19389 * day_ns); Num 5; Num infinity; NaN];
     [Str "A"; Str "Alpha"; Stamp (19417 * day_ns); Num 121; Num (121 / 110 - 1); NaN]].

(** The rows of ticker A in [demo_enriched]. *)
Definition demo_stock_A : frame :=
  DataFrame ["ticker"; "name"; "date"; "revenue"; "revenue_mom"; "revenue_yoy"]
    [[Str "A"; Str "Alpha"; Stamp (19358 * day_ns); Num 100; NaN; NaN];
     [Str "A"; Str "Alpha"; Stamp (19389 * day_ns); Num 110; Num (110 / 100 - 1); NaN];
     [Str "A"; Str "Alpha"; Stamp (19417 * day_ns); Num 121; Num (121 / 110 - 1); NaN]].

(** A cache sheet with rows of A and B, and one of a ticker of another
    sector. *)
Definition shared_sheet : frame :=
  DataFrame ["ticker"; "name"; "date"; "revenue"]
    [[Str "B"; Str "Beta"; Day 19358; Num 7];
     [Str "P"; Str "Pulp"; Day 19358; Num 3];
     [Str "A"; Str "Alpha"; Day 19358; Num 100]].

(** Revenues dated 2262-04-11, the last day a timestamp can hold, and the
    day after. *)
Definition late_revenue : frame :=
  DataFrame ["ticker"; "name"; "date"; "revenue"]
    [[Str "A"; Str "Alpha"; Day 106751; Num 100]].

Definition too_late_revenue : frame :=
  DataFrame ["ticker"; "name"; "date"; "revenue"]
    [[Str "A"; Str "Alpha"; Day 106752; Num 100]].

(** A registry whose two sectors have their first 31 characters in common. *)
Definition long_registry : frame :=
  DataFrame ["ticker"; "name"; "sector"]
    [[Str "A"; Str "Alpha"; Str "Semiconductor equipment makers (front end)"];
     [Str "P"; Str "Pulp"; Str "Semiconductor equipment makers (back end)"]].

(** A registry with a sector whose name openpyxl refuses as a title. *)
Definition slash_registry : frame :=
  DataFrame ["ticker"; "name"; "sector"] [[Str "A"; Str "Alpha"; Str "R/D"]].

(** A registry in which a row lacks its sector. *)
Definition holed_registry : frame :=
  DataFrame ["ticker"; "name"; "sector"]
    [[Str "A"; Str "Alpha"; Str "chips"]; [Str "P"; Str "Pulp"; NaN]].

(** * Results *)

(** The steps of the program are unfolded by name, not by [simpl]. *)
Arguments is_space : simpl never.
Arguments prefix_of : simpl never.
Arguments series : simpl never.
Arguments setitem : simpl never.
Arguments select : simpl never.
Arguments query : simpl never.
Arguments dropna : simpl never.
Arguments pd_concat : simpl never.
Arguments sort_values : simpl never.
Arguments covered : simpl never.
Arguments cached_frames : simpl never.
Arguments sector_tickers : simpl never.
Arguments live_table : simpl never.
Arguments fetch_monthly_revenue_finmind : simpl never.
Arguments groupby_pct_change : simpl never.
Arguments datetime_column : simpl never.
Arguments date_column : simpl never.


Lemma bind_Ret_inv {A B} (m : res A) (f : A → res B) (b : B) :
  m ≫= f = Ret b → ∃ a, m = Ret a ∧ f a = Ret b.
Proof. destruct m as [e|a]; [done|]. intros Hf. by exists a. Qed.

(** Splits a [Ret] hypothesis on a sequence of binds into its steps. *)
Ltac ret_inv H :=
  repeat match type of H with
  | Raise _ = Ret _ => discriminate H
  | Ret _ = Ret _ => injection H as H
  | mret ?a = Ret ?b => change (Ret a = Ret b) in H
  | _ ≫= _ = Ret _ =>
      let a := fresh "a" in
      let Ha := fresh "Ha" in
      apply bind_Ret_inv in H as (a & Ha & H)
  end.

Lemma mapM_Ret_Forall2 {A B} (f : A → res B) (l : list A) (k : list B) :
  mapM f l = Ret k ↔ Forall2 (λ x y, f x = Ret y) l k.
Proof.
  revert k. induction l as [|x l IH]; intros k; simpl.
  - split; [intros [= <-]; constructor | by inversion 1].
  - split.
    + intros H. ret_inv H. ret_inv H. subst k. constructor; [done|]. by apply IH.
    + inversion 1 as [|? y ? k' Hy Hk]; subst.
      rewrite Hy. simpl. apply IH in Hk. rewrite Hk. done.
Qed.

Lemma mapM_Ret_length {A B} (f : A → res B) (l : list A) (k : list B) :
  mapM f l = Ret k → length k = length l.
Proof. rewrite mapM_Ret_Forall2. intros H. symmetry. by eapply Forall2_length. Qed.

Lemma mapM_Ret_all {A B} (f : A → res B) (g : A → B) (l : list A) :
  (∀ x, x ∈ l → f x = Ret (g x)) → mapM f l = Ret (g <$> l).
Proof.
  intros Hf. apply mapM_Ret_Forall2. induction l as [|x l IH]; simpl; constructor.
  - apply Hf. left.
  - apply IH. intros y Hy. apply Hf. by right.
Qed.

(** The first failure ends a [mapM]: the loop body is not run again. *)
Lemma mapM_Raise_first {A B} (f : A → res B) (l1 l2 : list A) (x : A) (e : exn) :
  (∀ y, y ∈ l1 → ∃ b, f y = Ret b) → f x = Raise e → mapM f (l1 ++ x :: l2) = Raise e.
Proof.
  intros Hl1 Hx. induction l1 as [|y l1 IH]; simpl.
  - by rewrite Hx.
  - destruct (Hl1 y) as [b ->]; [left|]. simpl.
    rewrite IH; [done|]. intros z Hz. apply Hl1. by right.
Qed.

(** * Strings *)

Lemma join_chars (s : string) : join (chars s) = s.
Proof.
  induction s as [|a s IH]; [done|]. cbn [chars]. rewrite <- IH at 2.
  destruct (chars s) as [|[|b c] cs]; [done..|].
  by destruct (is_continuation b).
Qed.

Lemma chars_well_cut (s : string) : well_cut (chars s).
Proof.
  induction s as [|a s [Hchars Hlead]]; [by split|]. cbn [chars].
  destruct (chars s) as [|[|b c] cs].
  - split; [|done]. constructor; [|done]. by intros b ?%elem_of_nil.
  - by apply Forall_cons_1 in Hchars as [[] _].
  - apply Forall_cons_1 in Hchars as [Hbc Hcs]. simpl in Hlead.
    destruct (is_continuation b) eqn:Hb.
    + split; [|done]. constructor; [|done]. simpl.
      intros x [->|Hx]%elem_of_cons; [done|]. by apply Hbc.
    + split.
      * constructor; [by intros x ?%elem_of_nil|]. by constructor.
      * simpl. by constructor.
Qed.

Lemma chars_cons_leading (a : ascii) (s : string) :
  match chars s with [] => True | c :: _ => leading c end →
  chars (String a s) = String a EmptyString :: chars s.
Proof.
  cbn [chars]. destruct (chars s) as [|[|b c] cs]; try done. simpl. by intros ->.
Qed.

Lemma chars_cons_continuation (a b : ascii) (c s : string) (cs : list string) :
  chars s = String b c :: cs → is_continuation b = true →
  chars (String a s) = String a (String b c) :: cs.
Proof. intros Hs Hb. cbn [chars]. by rewrite Hs, Hb. Qed.

(** Cutting a character followed by whole characters. *)
Lemma chars_app_char (c t : string) :
  char_like c → match chars t with [] => True | c' :: _ => leading c' end →
  chars (c +:+ t) = c :: chars t.
Proof.
  destruct c as [|a rest]; [done|]. simpl. intros Hrest Ht.
  revert a. induction rest as [|r rest IH]; intros a.
  - simpl. by apply chars_cons_leading.
  - change (String a (String r rest) +:+ t) with (String a (String r rest +:+ t)).
    apply chars_cons_continuation.
    + apply IH. intros b Hb. apply Hrest. simpl. by right.
    + apply Hrest. simpl. left.
Qed.

Lemma chars_join (cs : list string) : well_cut cs → chars (join cs) = cs.
Proof.
  intros [Hchars Hlead]. induction Hchars as [|c cs Hc Hcs IH]; [done|].
  simpl in Hlead. change (join (c :: cs)) with (c +:+ join cs).
  rewrite chars_app_char; [|done|].
  - f_equal. apply IH. destruct Hlead; simpl; [done|]. done.
  - rewrite IH; [by destruct Hlead|]. destruct Hlead; simpl; [done|]. done.
Qed.

Lemma well_cut_tail (c : string) (cs : list string) : well_cut (c :: cs) → well_cut cs.
Proof.
  intros [Hchars Hlead]. apply Forall_cons_1 in Hchars as [_ Hchars]. simpl in Hlead.
  split; [done|]. destruct Hlead; simpl; [done|]. done.
Qed.

Lemma lstrip_well_cut (cs : list string) : well_cut cs → well_cut (lstrip cs).
Proof.
  induction cs as [|c cs IH]; [done|]. simpl. intros Hcut.
  destruct (is_space c); [|done]. by eapply IH, well_cut_tail.
Qed.

Lemma rstrip_well_cut (cs : list string) : well_cut cs → well_cut (rstrip cs).
Proof.
  induction cs as [|c cs IH]; [done|]. simpl. intros Hcut.
  pose proof (IH (well_cut_tail _ _ Hcut)) as [Hchars' Hlead'].
  destruct Hcut as [Hchars Hlead]. apply Forall_cons_1 in Hchars as [Hc Hchars].
  simpl in Hlead.
  destruct (rstrip cs) as [|c' r] eqn:Hr.
  - destruct (is_space c); [done|]. split; [by constructor|done].
  - split; [by constructor|]. simpl. constructor.
    + destruct cs as [|c0 cs]; [done|]. apply Forall_cons_1 in Hlead as [Hc0 _].
      simpl in Hr. destruct (rstrip cs); [destruct (is_space c0)|]; congruence.
    + done.
Qed.

Lemma chars_strip (s : string) : chars (strip s) = rstrip (lstrip (chars s)).
Proof. apply chars_join, rstrip_well_cut, lstrip_well_cut, chars_well_cut. Qed.

Lemma lstrip_starts_clean (cs : list string) : starts_clean (lstrip cs).
Proof.
  induction cs as [|c cs IH]; simpl; [done|].
  destruct (is_space c) eqn:Hc; [done|]. by simpl.
Qed.

Lemma rstrip_ends_clean (cs : list string) : ends_clean (rstrip cs).
Proof.
  induction cs as [|c cs IH]; simpl; [done|].
  destruct (rstrip cs) as [|b r] eqn:Hr.
  - by destruct (is_space c) eqn:Hc.
  - done.
Qed.

Lemma rstrip_starts_clean (cs : list string) : starts_clean cs → starts_clean (rstrip cs).
Proof.
  destruct cs as [|c cs]; simpl; [done|]. intros Hc.
  destruct (rstrip cs); simpl; [by rewrite Hc|done].
Qed.

Lemma strip_trimmed (s : string) : trimmed (strip s).
Proof.
  unfold trimmed. rewrite chars_strip. split.
  - apply rstrip_starts_clean, lstrip_starts_clean.
  - apply rstrip_ends_clean.
Qed.

(** * Floats *)

Lemma SFleb_total (a b : spec_float) :
  SFeqb a a = true → SFeqb b b = true → SFleb a b = false → SFleb b a = true.
Proof.
  unfold SFeqb, SFleb.
  destruct a as [sa|sa| |sa ma ea], b as [sb|sb| |sb mb eb]; simpl; try done;
    try (by destruct sa); try (by destruct sb); try (by destruct sa, sb).
  intros _ _. rewrite (Z.compare_antisym ea eb).
  rewrite !Pos.compare_cont_spec. simpl.
  rewrite (Pos.compare_antisym ma mb).
  destruct sa, sb; try done; destruct (ea ?= eb); simpl; try done;
    destruct (ma ?= mb)%positive; simpl; done.
Qed.

Lemma float_leb_total (x y : float) :
  is_nan x = false → is_nan y = false → (x <=? y)%float = false → (y <=? x)%float = true.
Proof.
  unfold is_nan. rewrite !FloatAxioms.leb_spec, !FloatAxioms.eqb_spec.
  intros Hx%negb_false_iff Hy%negb_false_iff. by apply SFleb_total.
Qed.

(** Division by a null is null, and so is what is subtracted from it. *)
Lemma div_nan_sub (x y : float) : (x / nan - y)%float = nan.
Proof.
  apply Prim2SF_inj. rewrite sub_spec, div_spec.
  change (Prim2SF nan) with S754_nan. by destruct (Prim2SF x).
Qed.

(** * Sorting *)

Section stable_sort.
Context {A : Type} (le : A → A → bool).

Lemma insert_sorted_perm (x : A) (l : list A) : insert_sorted le x l ≡ₚ x :: l.
Proof.
  induction l as [|y l IH]; simpl; [done|].
  destruct (le x y); [done|]. rewrite IH. apply perm_swap.
Qed.

Lemma stable_sort_perm (l : list A) : stable_sort le l ≡ₚ l.
Proof.
  induction l as [|x l IH]; simpl; [done|].
  rewrite insert_sorted_perm. by rewrite IH.
Qed.

Lemma stable_sort_length (l : list A) : length (stable_sort le l) = length l.
Proof. by rewrite stable_sort_perm. Qed.

(** A sorted list is left as it is: the sort is stable. *)
Lemma stable_sort_id (l : list A) : Sorted (λ x y, le x y = true) l → stable_sort le l = l.
Proof.
  induction 1 as [|x l Hl IH Hx]; simpl; [done|].
  rewrite IH. destruct Hx as [|y l Hxy]; simpl; [done|]. by rewrite Hxy.
Qed.

Hypothesis le_total : ∀ x y, le x y = false → le y x = true.

Lemma insert_sorted_Sorted (x : A) (l : list A) :
  Sorted (λ x y, le x y = true) l → Sorted (λ x y, le x y = true) (insert_sorted le x l).
Proof.
  induction 1 as [|y l Hl IH Hy]; simpl.
  - by repeat constructor.
  - destruct (le x y) eqn:Hxy.
    + constructor; [by constructor|]. constructor. by rewrite Hxy.
    + constructor; [done|].
      destruct Hy as [|z l Hyz]; simpl.
      * constructor. by rewrite le_total.
      * destruct (le x z); constructor; [by rewrite le_total|done].
Qed.

Lemma stable_sort_Sorted (l : list A) : Sorted (λ x y, le x y = true) (stable_sort le l).
Proof.
  induction l as [|x l IH]; simpl; [constructor|]. by apply insert_sorted_Sorted.
Qed.

End stable_sort.

(** * The order of cells and rows *)

Lemma cell_le_total (a b : cell) : cell_le a b = false → cell_le b a = true.
Proof.
  unfold cell_le. destruct (isna b) eqn:Hb; [done|].
  destruct (isna a) eqn:Ha; [done|].
  destruct a, b; simpl in *; try done; try lia.
  - intros H. destruct (String.leb_total s s0) as [H'|H']; congruence.
  - by apply float_leb_total.
Qed.

(** Two sort keys in order: the first cells are, and if they tie, so are
    the second. *)
Lemma lex_le_pair (t1 d1 t2 d2 : cell) :
  lex_le [t1; d1] [t2; d2] = true
  ↔ cell_le t1 t2 = true ∧ (cell_le t2 t1 = true → cell_le d1 d2 = true).
Proof.
  simpl. pose proof (cell_le_total t2 t1) as Ht. pose proof (cell_le_total d2 d1) as Hd.
  destruct (cell_le t2 t1), (cell_le t1 t2), (cell_le d2 d1), (cell_le d1 d2);
    simpl; intuition congruence.
Qed.

Lemma lex_le_total (k1 k2 : list cell) : lex_le k1 k2 = false → lex_le k2 k1 = true.
Proof.
  revert k2. induction k1 as [|a k1 IH]; intros [|b k2]; simpl; try done.
  destruct (cell_le b a) eqn:Hba, (cell_le a b) eqn:Hab; simpl; try done.
  apply IH.
Qed.

Lemma row_le_total (by_ cols : list string) (r1 r2 : list cell) :
  row_le by_ cols r1 r2 = false → row_le by_ cols r2 r1 = true.
Proof. apply lex_le_total. Qed.

(** * Labels and columns *)

Lemma count_label_pos (c : string) (cols : list string) :
  c ∈ cols ↔ (0 < count_label c cols)%nat.
Proof.
  unfold count_label. induction cols as [|l cols IH]; simpl.
  - split; [by intros ?%elem_of_nil|lia].
  - rewrite filter_cons, elem_of_cons. destruct (decide (l = c)) as [->|Hne]; simpl.
    + split; [lia|by left].
    + rewrite <- IH. split; [by intros [?|?]|by right].
Qed.

Lemma count_label_one_in (c : string) (cols : list string) :
  count_label c cols = 1%nat → c ∈ cols.
Proof. intros Hc. apply count_label_pos. lia. Qed.

Lemma count_label_NoDup (c : string) (cols : list string) :
  NoDup cols → c ∈ cols → count_label c cols = 1%nat.
Proof.
  unfold count_label. induction 1 as [|l cols Hl Hcols IH]; [by intros ?%elem_of_nil|].
  rewrite filter_cons. destruct (decide (l = c)) as [->|Hne]; simpl.
  - intros _. f_equal. apply Nat.le_antisymm; [|lia].
    apply Nat.nlt_ge. intros Hpos. by apply Hl, count_label_pos.
  - intros [?|Hin]%elem_of_cons; [done|]. by apply IH.
Qed.

Lemma series_Ret (e : exn) (c : string) (df : frame) :
  count_label c (columns df) = 1%nat →
  series e c df = Ret (map (cell_of c (columns df)) (rows df)).
Proof. unfold series. by intros ->. Qed.

Lemma series_Ret_inv (e : exn) (c : string) (df : frame) (col : list cell) :
  series e c df = Ret col →
  count_label c (columns df) = 1%nat ∧ col = map (cell_of c (columns df)) (rows df).
Proof.
  unfold series. destruct (count_label c (columns df)) as [|[|n]]; try done.
  by intros [= <-].
Qed.

Lemma series_absent (e : exn) (c : string) (df : frame) :
  c ∉ columns df → series e c df = Raise (KeyError c).
Proof.
  intros Hc. unfold series.
  destruct (count_label c (columns df)) eqn:Hn; [done|].
  exfalso. apply Hc, count_label_pos. lia.
Qed.

Lemma setitem_columns_in (c : string) (vals : list cell) (df : frame) :
  c ∈ columns df → columns (setitem c vals df) = columns df.
Proof. intros Hc. unfold setitem. by rewrite decide_True. Qed.

Lemma setitem_in (c : string) (g : list cell → cell) (df : frame) :
  c ∈ columns df →
  setitem c (map g (rows df)) df
  = DataFrame (columns df) (map (λ r, put_label c (g r) (columns df) r) (rows df)).
Proof.
  intros Hc. unfold setitem. rewrite decide_True by done. f_equal.
  induction (rows df) as [|r l IH]; simpl; [done|]. by rewrite IH.
Qed.

Lemma date_column_columns `{Host} (df df' : frame) :
  date_column df = Ret df' → columns df' = columns df.
Proof.
  unfold date_column. intros Hd. ret_inv Hd. subst df'.
  apply setitem_columns_in. apply series_Ret_inv in Ha as [Hc _].
  by apply count_label_one_in.
Qed.

Lemma has_canonical_spec (df : frame) :
  has_canonical df = true ↔ canonical ⊆ columns df.
Proof.
  unfold has_canonical. rewrite forallb_forall. split.
  - intros Hall c Hc. eapply bool_decide_eq_true_1, Hall. by apply list_elem_of_In.
  - intros Hsub c Hc. apply bool_decide_eq_true_2, Hsub. by apply list_elem_of_In.
Qed.

Lemma sort_values_Ret_inv (by_ : list string) (df df' : frame) :
  sort_values by_ df = Ret df' →
  df' = DataFrame (columns df) (stable_sort (row_le by_ (columns df)) (rows df))
  ∧ Forall (λ c, count_label c (columns df) = 1%nat
                 ∧ homogeneous (map (cell_of c (columns df)) (rows df)) = true) by_.
Proof.
  unfold sort_values. intros Hs. ret_inv Hs. split; [done|].
  apply mapM_Ret_Forall2 in Ha. clear Hs.
  induction Ha as [|c u by' us Hc _ IH]; constructor; [|done].
  unfold check_sort_key in Hc. apply bind_Ret_inv in Hc as (col & Hcol & Hc).
  apply series_Ret_inv in Hcol as [? ->]. split; [done|].
  by destruct (homogeneous _).
Qed.

Lemma sort_values_Ret (by_ : list string) (df : frame) :
  Forall (λ c, count_label c (columns df) = 1%nat
               ∧ homogeneous (map (cell_of c (columns df)) (rows df)) = true) by_ →
  sort_values by_ df
  = Ret (DataFrame (columns df) (stable_sort (row_le by_ (columns df)) (rows df))).
Proof.
  intros Hby. unfold sort_values.
  rewrite (mapM_Ret_all _ (λ _, ())); [done|].
  intros c Hc. unfold check_sort_key.
  eapply Forall_forall in Hby as [Hcount Hhom]; [|done].
  rewrite series_Ret by done. simpl. by rewrite Hhom.
Qed.

(** A table without rows sorts without complaint. *)
Lemma sort_values_no_rows (by_ cols : list string) :
  Forall (λ c, count_label c cols = 1%nat) by_ →
  sort_values by_ (DataFrame cols []) = Ret (DataFrame cols []).
Proof.
  intros Hby. rewrite sort_values_Ret; [done|].
  eapply Forall_impl; [done|]. intros c Hc. by split.
Qed.

(** * The cache reader *)

Lemma read_sheets_only `{Host} (xlsx_path : string) (names : list string)
    (acc sheets : gmap string frame) :
  read_sheets xlsx_path names acc = Ret sheets →
  (∀ sheet df, acc !! sheet = Some df → from_workbook xlsx_path sheet df) →
  ∀ sheet df, sheets !! sheet = Some df → from_workbook xlsx_path sheet df.
Proof.
  revert acc. induction names as [|name names IH]; intros acc; simpl.
  - by intros [= <-].
  - intros Hrun Hacc. ret_inv Hrun. rename a into raw.
    destruct (has_canonical raw) eqn:Hraw; [|by eapply IH].
    ret_inv Hrun. rename a into df'. eapply IH; [done|].
    intros sheet df. rewrite lookup_insert. case_decide as Hs; [|by apply Hacc].
    intros [= <-]. subst sheet. exists raw. split_and!; [done..|].
    by eapply date_column_columns.
Qed.

Lemma read_sheets_all `{Host} (xlsx_path : string) (names : list string)
    (acc sheets : gmap string frame) :
  read_sheets xlsx_path names acc = Ret sheets →
  ∀ sheet, (is_Some (acc !! sheet)
            ∨ sheet ∈ names ∧ ∃ raw, read_excel xlsx_path sheet = Ret raw
                                      ∧ has_canonical raw = true) →
           is_Some (sheets !! sheet).
Proof.
  revert acc. induction names as [|name names IH]; intros acc; simpl.
  - intros [= <-] sheet [?|[[]%elem_of_nil _]]. done.
  - intros Hrun sheet Hsheet. ret_inv Hrun. rename a into raw.
    destruct (has_canonical raw) eqn:Hraw.
    + ret_inv Hrun. rename a into df'. eapply IH; [done|].
      destruct (decide (name = sheet)) as [->|Hne].
      * left. rewrite lookup_insert_eq. by eexists.
      * destruct Hsheet as [Hsome|[[?|Hin]%elem_of_cons Hok]]; [|done|by right].
        left. by rewrite lookup_insert_ne.
    + eapply IH; [done|].
      destruct Hsheet as [Hsome|[[->|Hin]%elem_of_cons Hok]]; [by left| |by right].
      destruct Hok as (raw' & Hraw' & Hcan). congruence.
Qed.

(** C5. A cache file that is not on disk gives the empty mapping, not an
    error. When the file exists and the read returns, a sheet is in the
    mapping only if its columns include ticker, name, date and revenue
    (and every sheet of the workbook that has them is in it). *)
Theorem C5_cache_reader `{Host} (xlsx_path : string) :
  (path_exists xlsx_path = false → load_excel_dashboard xlsx_path = Ret ∅)
  ∧ (∀ sheets sheet df,
       load_excel_dashboard xlsx_path = Ret sheets →
       sheets !! sheet = Some df →
       canonical ⊆ columns df ∧ from_workbook xlsx_path sheet df)
  ∧ (∀ sheets names sheet raw,
       path_exists xlsx_path = true →
       load_excel_dashboard xlsx_path = Ret sheets →
       sheet_names xlsx_path = Ret names → sheet ∈ names →
       read_excel xlsx_path sheet = Ret raw → canonical ⊆ columns raw →
       is_Some (sheets !! sheet)).
Proof.
  unfold load_excel_dashboard. split_and!.
  - by intros ->.
  - intros sheets sheet df Hload Hdf.
    destruct (path_exists xlsx_path); simpl in Hload.
    + ret_inv Hload.
      assert (from_workbook xlsx_path sheet df) as Hfrom.
      { eapply read_sheets_only; [done| |done]. intros ? ?. by rewrite lookup_empty. }
      split; [|done]. destruct Hfrom as (raw & _ & Hraw & ->).
      by apply has_canonical_spec.
    + injection Hload as <-. by rewrite lookup_empty in Hdf.
  - intros sheets names sheet raw -> Hload Hnames Hin Hraw Hcan. simpl in Hload.
    rewrite Hnames in Hload. simpl in Hload.
    eapply read_sheets_all; [done|]. right. split; [done|].
    exists raw. split; [done|]. by apply has_canonical_spec.
Qed.

Lemma C5_cache_reader_witness :
  @load_excel_dashboard (demo_host (Ret demo_registry) None silent NoFill) DATA_XLSX = Ret ∅
  ∧ @load_excel_dashboard (demo_host (Ret demo_registry) (Some demo_book) silent NoFill)
      DATA_XLSX = Ret {[ "chips" := demo_sheet ]}
  ∧ canonical ⊆ columns demo_sheet.
Proof.
  split.
  - destruct (@C5_cache_reader (demo_host (Ret demo_registry) None silent NoFill) DATA_XLSX)
      as (Hmissing & _ & _).
    apply Hmissing. reflexivity.
  - destruct (@C5_cache_reader (demo_host (Ret demo_registry) (Some demo_book) silent NoFill)
                DATA_XLSX) as (_ & Honly & _).
    split; [vm_compute; reflexivity|].
    apply (Honly {[ "chips" := demo_sheet ]} "chips"); vm_compute; reflexivity.
Defined.

(** * The live fetcher *)

(** C10. The lookback argument of the interactive fetcher has no effect:
    for every ticker and any two values of [years] the results are the
    same, because the provider is always asked for the history from
    2023-01-01. *)
Theorem C10_years_has_no_effect `{Host} (groups_df : frame) (ticker : cell) (y1 y2 : Z) :
  fetch_monthly_revenue_finmind groups_df ticker y1
  = fetch_monthly_revenue_finmind groups_df ticker y2
  ∧ fetch_monthly_revenue_finmind groups_df ticker y1
    = taiwan_stock_month_revenue login (astype_str ticker) "2023-01-01"
      ≫= live_table groups_df.
Proof. split; reflexivity. Qed.

(** An answer without a ticker column raises at line 68, before the
    loop that adds missing columns is reached. *)
Lemma live_table_without_ticker `{Host} (groups_df raw : frame) :
  empty raw = false →
  "ticker" ∉ columns (rename provider_columns raw) →
  live_table groups_df raw = Raise (KeyError "ticker").
Proof.
  intros Hraw Hticker. unfold live_table. rewrite Hraw.
  unfold astype_str_column. by rewrite decide_False.
Qed.

(** An answer without a date column raises at line 69. *)
Lemma live_table_without_date `{Host} (groups_df raw : frame) :
  empty raw = false →
  "ticker" ∈ columns (rename provider_columns raw) →
  "date" ∉ columns (rename provider_columns raw) →
  live_table groups_df raw = Raise (KeyError "date").
Proof.
  intros Hraw Hticker Hdate. unfold live_table. rewrite Hraw.
  unfold astype_str_column. rewrite decide_True by done. simpl.
  unfold date_column. rewrite series_absent; done.
Qed.

(** What the loop at lines 78-80 does for the column it can reach: an
    answer without revenue is completed with NaN. *)
Lemma live_table_without_revenue :
  @fetch_monthly_revenue_finmind
    (demo_host (Ret demo_registry) None (λ _ _, Ret revenueless_answer) NoFill)
    demo_registry (Str "A") 3
  = Ret (DataFrame canonical [[Str "A"; Str "Alpha"; Day 19358; NaN]]).
Proof. vm_compute. reflexivity. Qed.

Lemma select_Ret_inv (labels : list string) (df df' : frame) :
  select labels df = Ret df' →
  labels ⊆ columns df
  ∧ df' = DataFrame (labels ≫= λ c, filter (λ l, l = c) (columns df))
            (map (λ r, labels ≫= λ c, at_label c (columns df) r) (rows df)).
Proof.
  unfold select. destruct (list_find _ labels) as [[i c]|] eqn:Hfind; [done|].
  intros [= <-]. split; [|done]. intros c Hc.
  rewrite list_find_None, Forall_forall in Hfind.
  destruct (decide (c ∈ columns df)) as [|Hout]; [done|]. by apply Hfind in Hout.
Qed.

(** What the fetcher does deliver: whenever it returns, the table has the
    four columns and its rows are in ascending order of date; an answer
    without rows gives the table of four columns without rows. *)
Lemma live_table_shape `{Host} (groups_df raw out : frame) :
  live_table groups_df raw = Ret out →
  canonical ⊆ columns out
  ∧ Sorted (λ r1 r2, row_le ["date"] (columns out) r1 r2 = true) (rows out)
  ∧ (empty raw = true → out = DataFrame canonical []).
Proof.
  unfold live_table. destruct (empty raw).
  - intros [= <-]. split; [done|]. split; [constructor|done].
  - intros Hrun.
    apply bind_Ret_inv in Hrun as (out1 & _ & Hrun).
    apply bind_Ret_inv in Hrun as (out2 & _ & Hrun).
    apply bind_Ret_inv in Hrun as (name_map & _ & Hrun).
    apply bind_Ret_inv in Hrun as (no_names & _ & Hrun).
    apply bind_Ret_inv in Hrun as (out3 & _ & Hrun). cbv zeta in Hrun.
    apply bind_Ret_inv in Hrun as (out4 & Hselect & Hrun).
    apply select_Ret_inv in Hselect as [Hsub ->].
    apply sort_values_Ret_inv in Hrun as [-> _]. cbn [columns rows].
    split; [|split; [|done]].
    + intros c Hc. apply list_elem_of_bind. exists c. split; [|done].
      apply list_elem_of_filter. split; [done|]. by apply Hsub.
    + apply stable_sort_Sorted, row_le_total.
Qed.

(** C7, at the failing input. The provider answers with dates and revenues
    but no ticker column: the fetcher raises [KeyError] where the
    specification has it return a table whose ticker column is filled
    with nulls. *)
Theorem C7_missing_ticker_raises :
  @fetch_monthly_revenue_finmind
    (demo_host (Ret demo_registry) None (λ _ _, Ret headless_answer) NoFill)
    demo_registry (Str "A") 3
  = Raise (KeyError "ticker").
Proof.
  apply (@live_table_without_ticker
           (demo_host (Ret demo_registry) None (λ _ _, Ret headless_answer) NoFill)).
  - reflexivity.
  - apply (bool_decide_eq_true_1 _). reflexivity.
Qed.

(** * The sector resolver *)

Lemma query_Ret (c : string) (test : cell → bool) (df : frame) :
  count_label c (columns df) = 1%nat →
  query c test df
  = Ret (DataFrame (columns df)
           (filter (λ r, test (cell_of c (columns df) r) = true) (rows df))).
Proof. unfold query. by intros ->. Qed.

Lemma filter_none {A} (P : A → Prop) `{∀ x, Decision (P x)} (l : list A) :
  (∀ x, x ∈ l → ¬ P x) → filter P l = [].
Proof.
  intros HP. induction l as [|x l IH]; [done|].
  rewrite filter_cons_False by (apply HP; left).
  apply IH. intros y Hy. apply HP. by right.
Qed.

Lemma pd_concat_single (f : frame) : pd_concat [f] = Ret (DataFrame (columns f) (rows f)).
Proof.
  unfold pd_concat. simpl. rewrite bool_decide_eq_true_2 by done. simpl.
  by rewrite app_nil_r.
Qed.

Lemma dropna_Ret_inv (c : string) (df df' : frame) :
  dropna c df = Ret df' →
  c ∈ columns df ∧
  df' = DataFrame (columns df) (filter (λ r, notna_at c (columns df) r = true) (rows df)).
Proof. unfold dropna. case_decide; [|done]. by intros [= <-]. Qed.

(** The last three steps of [get_sector_data] on one cached table that has
    no row for the sector. *)
Lemma resolve_no_rows (cols : list string) :
  NoDup cols → canonical ⊆ cols →
  (df ← pd_concat [DataFrame cols []];
   df ← dropna "date" df;
   sort_values ["ticker"; "date"] df)
  = Ret (DataFrame cols []).
Proof.
  intros Hnd Hcan. rewrite pd_concat_single. simpl.
  assert ("date" ∈ cols) as Hdate by (apply Hcan; apply (bool_decide_eq_true_1 _); reflexivity).
  assert ("ticker" ∈ cols) as Hticker by (apply Hcan; apply (bool_decide_eq_true_1 _); reflexivity).
  unfold dropna. simpl. rewrite decide_True by done. simpl.
  apply sort_values_no_rows. repeat constructor; by apply count_label_NoDup.
Qed.

Lemma py_eq_Str (x : cell) (s : string) : py_eq x (Str s) = true ↔ x = Str s.
Proof.
  unfold py_eq. split.
  - intros [[_ _]%andb_prop Hx%bool_decide_eq_true]%andb_prop. done.
  - intros ->. simpl. by apply bool_decide_eq_true.
Qed.

(** A sector that no row of the registry names has no tickers. *)
Lemma sector_tickers_none (sector : string) (groups : frame) :
  count_label "sector" (columns groups) = 1%nat →
  count_label "ticker" (columns groups) = 1%nat →
  Forall (λ r, cell_of "sector" (columns groups) r ≠ Str sector) (rows groups) →
  sector_tickers (Str sector) groups = Ret [].
Proof.
  intros Hsector Hticker Hrows. unfold sector_tickers. rewrite query_Ret by done. simpl.
  rewrite series_Ret by done. simpl. rewrite filter_none; [done|].
  intros r Hr Heq%py_eq_Str. by eapply Forall_forall in Hrows.
Qed.

(** C6. For a sector that no row of the registry names, whatever the
    cache holds, the resolver returns (it does not raise) a table without
    rows that has the columns ticker, name, date and revenue. The registry
    has one sector and one ticker column, as the loader leaves it; every
    sheet of the cache has distinct labels, the four among them, as the
    cache reader leaves it. *)
Theorem C6_empty_sector `{Host} (groups_df : frame) (sector : string) (groups : frame)
    (excel_sheets : gmap string frame) :
  count_label "sector" (columns groups) = 1%nat →
  count_label "ticker" (columns groups) = 1%nat →
  Forall (λ r, cell_of "sector" (columns groups) r ≠ Str sector) (rows groups) →
  (∀ name sheet, excel_sheets !! name = Some sheet →
                 NoDup (columns sheet) ∧ canonical ⊆ columns sheet) →
  ∃ df, get_sector_data groups_df sector groups excel_sheets = Ret df
        ∧ rows df = [] ∧ canonical ⊆ columns df.
Proof.
  intros Hsector Hticker Hrows Hsheets. unfold get_sector_data.
  rewrite sector_tickers_none by done. simpl.
  assert (∀ sheet, NoDup (columns sheet) → canonical ⊆ columns sheet →
            query "ticker" (λ x, bool_decide (x ∈ @nil cell)) sheet
            = Ret (DataFrame (columns sheet) [])) as Hquery.
  { intros sheet Hnd Hcan. rewrite query_Ret.
    - f_equal. f_equal. apply filter_none. intros r _.
      rewrite bool_decide_eq_true. apply not_elem_of_nil.
    - apply count_label_NoDup; [done|]. apply Hcan.
      apply (bool_decide_eq_true_1 _). reflexivity. }
  assert (∀ sheet, NoDup (columns sheet) → canonical ⊆ columns sheet →
            covered [DataFrame (columns sheet) []] = Ret []) as Hcovered.
  { intros sheet Hnd Hcan. unfold covered. rewrite pd_concat_single. simpl.
    rewrite series_Ret; [done|]. apply count_label_NoDup; [done|]. apply Hcan.
    apply (bool_decide_eq_true_1 _). reflexivity. }
  unfold cached_frames.
  destruct (excel_sheets !! sector) as [sheet|] eqn:Hsheet;
    [|destruct (excel_sheets !! SHEET_NAME_FALLBACK) as [sheet|] eqn:Hfallback].
  - destruct (Hsheets _ _ Hsheet) as [Hnd Hcan].
    rewrite Hquery by done. simpl. rewrite (Hcovered sheet) by done. simpl.
    exists (DataFrame (columns sheet) []). split; [|done].
    by apply resolve_no_rows.
  - destruct (Hsheets _ _ Hfallback) as [Hnd Hcan].
    rewrite Hquery by done. simpl. rewrite (Hcovered sheet) by done. simpl.
    exists (DataFrame (columns sheet) []). split; [|done].
    by apply resolve_no_rows.
  - simpl. exists (DataFrame canonical []). done.
Qed.

Lemma C6_empty_sector_witness :
  ∃ df, @get_sector_data (demo_host (Ret demo_registry) (Some demo_book) silent NoFill)
          demo_registry "paper" demo_registry {[ "chips" := demo_sheet ]} = Ret df
        ∧ rows df = [] ∧ canonical ⊆ columns df.
Proof.
  apply (@C6_empty_sector (demo_host (Ret demo_registry) (Some demo_book) silent NoFill)).
  - reflexivity.
  - reflexivity.
  - by repeat constructor.
  - intros name sheet. rewrite lookup_singleton. case_decide; [|done].
    intros [= <-]. split; [|done]. apply (bool_decide_eq_true_1 _). reflexivity.
Defined.

Lemma fetch_provider_fault `{Host} (groups_df : frame) (t : cell) (years : Z) (e : exn) :
  taiwan_stock_month_revenue login (astype_str t) "2023-01-01" = Raise e →
  fetch_monthly_revenue_finmind groups_df t years = Raise e.
Proof.
  intros Hraise. unfold fetch_monthly_revenue_finmind.
  change (isoformat (Date 2023 1 1)) with "2023-01-01". by rewrite Hraise.
Qed.

(** C1, as the code has it. There is no handler around the provider call:
    when it raises for a ticker the cache does not cover, after the
    tickers before it were fetched, [get_sector_data] raises the same
    exception. The sector is not resolved and no row of any ticker is
    returned. *)
Theorem C1_provider_fault_aborts `{Host} (groups_df : frame) (sector : string)
    (groups : frame) (excel_sheets : gmap string frame)
    (tickers have before after : list cell) (frames : list frame) (t : cell) (e : exn) :
  sector_tickers (Str sector) groups = Ret tickers →
  cached_frames sector tickers excel_sheets = Ret frames →
  covered frames = Ret have →
  filter (λ t, t ∉ have) tickers = before ++ t :: after →
  (∀ u, u ∈ before → ∃ df, fetch_monthly_revenue_finmind groups_df u 3 = Ret df) →
  taiwan_stock_month_revenue login (astype_str t) "2023-01-01" = Raise e →
  get_sector_data groups_df sector groups excel_sheets = Raise e.
Proof.
  intros Htickers Hcached Hhave Hneed Hbefore Ht. unfold get_sector_data.
  rewrite Htickers. simpl. rewrite Hcached. simpl. rewrite Hhave. simpl.
  rewrite Hneed. rewrite (mapM_Raise_first _ before after t e); [done|done|].
  by apply fetch_provider_fault.
Qed.

Lemma C1_provider_fault_aborts_witness :
  @get_sector_data (demo_host (Ret demo_registry) None flaky NoFill)
    demo_registry "chips" demo_registry ∅
  = Raise (ProviderFault "timeout").
Proof.
  apply (@C1_provider_fault_aborts (demo_host (Ret demo_registry) None flaky NoFill)
           demo_registry "chips" demo_registry ∅
           [Str "A"; Str "B"] [] [Str "A"] [] [] (Str "B")).
  - reflexivity.
  - reflexivity.
  - reflexivity.
  - vm_compute. reflexivity.
  - intros u ->%list_elem_of_singleton. eexists. vm_compute. reflexivity.
  - reflexivity.
Defined.

(** C1, refuted as stated: in a two-ticker sector the provider answers for
    A and raises for B; the resolver raises, and the rows of A are in no
    output. *)
Lemma C1_counterexample :
  (∃ df, @fetch_monthly_revenue_finmind (demo_host (Ret demo_registry) None flaky NoFill)
           demo_registry (Str "A") 3 = Ret df ∧ rows df ≠ [])
  ∧ @taiwan_stock_month_revenue (demo_host (Ret demo_registry) None flaky NoFill)
      None "B" "2023-01-01" = Raise (ProviderFault "timeout")
  ∧ ∀ df, @get_sector_data (demo_host (Ret demo_registry) None flaky NoFill)
            demo_registry "chips" demo_registry ∅ ≠ Ret df.
Proof.
  split_and!.
  - eexists. split; [vm_compute; reflexivity|done].
  - reflexivity.
  - intros df. vm_compute. discriminate.
Qed.

(** C2, as the code has it. Whenever the resolver returns, its rows are
    in ascending order of (ticker, date) and none has a null date; and no
    row is removed for repeating a (ticker, date) pair: the rows are, up
    to their order, all the rows with a date among the cached rows of the
    sector's tickers and the provider's rows for the tickers the cache
    does not cover. *)
Theorem C2_sorted_not_deduplicated `{Host} (groups_df : frame) (sector : string)
    (groups : frame) (excel_sheets : gmap string frame) (df : frame) :
  get_sector_data groups_df sector groups excel_sheets = Ret df →
  Sorted (λ r1 r2, row_le ["ticker"; "date"] (columns df) r1 r2 = true) (rows df)
  ∧ Forall (λ r, notna_at "date" (columns df) r = true) (rows df)
  ∧ ∃ tickers cached have live,
      sector_tickers (Str sector) groups = Ret tickers
      ∧ cached_frames sector tickers excel_sheets = Ret cached
      ∧ covered cached = Ret have
      ∧ Forall2 (λ t f, fetch_monthly_revenue_finmind groups_df t 3 = Ret f)
          (filter (λ t, t ∉ have) tickers) live
      ∧ (cached ++ live = [] ∧ df = DataFrame canonical []
         ∨ ∃ all, pd_concat (cached ++ live) = Ret all
                  ∧ columns df = columns all
                  ∧ rows df ≡ₚ filter (λ r, notna_at "date" (columns all) r = true) (rows all)).
Proof.
  unfold get_sector_data. intros Hrun.
  apply bind_Ret_inv in Hrun as (tickers & Htickers & Hrun).
  apply bind_Ret_inv in Hrun as (cached & Hcached & Hrun).
  apply bind_Ret_inv in Hrun as (have & Hhave & Hrun).
  apply bind_Ret_inv in Hrun as (live & Hlive & Hrun).
  apply mapM_Ret_Forall2 in Hlive. cbv zeta in Hrun.
  case_bool_decide as Hnil.
  - injection Hrun as <-. split; [constructor|]. split; [constructor|].
    exists tickers, cached, have, live. repeat (split; [done|]). by left.
  - apply bind_Ret_inv in Hrun as (all & Hall & Hrun).
    apply bind_Ret_inv in Hrun as (dated & Hdated & Hrun).
    apply dropna_Ret_inv in Hdated as [_ ->].
    apply sort_values_Ret_inv in Hrun as [-> _]. simpl.
    split; [|split].
    + apply stable_sort_Sorted, row_le_total.
    + rewrite stable_sort_perm. apply Forall_forall. by intros r [? _]%list_elem_of_filter.
    + exists tickers, cached, have, live. repeat (split; [done|]).
      right. exists all. repeat (split; [done|]). apply stable_sort_perm.
Qed.

Lemma C2_sorted_not_deduplicated_witness :
  Sorted (λ r1 r2, row_le ["ticker"; "date"] canonical r1 r2 = true)
    [[Str "A"; Str "Alpha"; Day 19358; Num 100];
     [Str "A"; Str "Alpha"; Day 19358; Num 100];
     [Str "B"; Str "Beta"; Day 19358; Num 100];
     [Str "B"; Str "Beta"; Day 19389; Num 110]].
Proof.
  apply (@C2_sorted_not_deduplicated
           (demo_host (Ret demo_registry) (Some doubled_book) steady NoFill)
           demo_registry "chips" demo_registry {[ "chips" := doubled_sheet ]}
           (DataFrame canonical
              [[Str "A"; Str "Alpha"; Day 19358; Num 100];
               [Str "A"; Str "Alpha"; Day 19358; Num 100];
               [Str "B"; Str "Beta"; Day 19358; Num 100];
               [Str "B"; Str "Beta"; Day 19389; Num 110]])).
  vm_compute. reflexivity.
Defined.

(** C2, refuted as stated: the cache sheet of the sector holds one row of
    ticker A twice and is read as such, the provider supplies ticker B;
    the resolved table holds the pair (A, 2023-01-01) twice. *)
Lemma C2_counterexample :
  @load_excel_dashboard (demo_host (Ret demo_registry) (Some doubled_book) steady NoFill)
    DATA_XLSX = Ret {[ "chips" := doubled_sheet ]}
  ∧ ∃ df, @get_sector_data (demo_host (Ret demo_registry) (Some doubled_book) steady NoFill)
            demo_registry "chips" demo_registry {[ "chips" := doubled_sheet ]} = Ret df
          ∧ ¬ NoDup (ticker_dates df).
Proof.
  split; [vm_compute; reflexivity|].
  eexists. split; [vm_compute; reflexivity|].
  apply (bool_decide_eq_false_1 _). vm_compute. reflexivity.
Qed.

(** * Cells under a label *)

Lemma at_label_length (c : string) (cols : list string) (r : list cell) :
  length r = length cols → length (at_label c cols r) = count_label c cols.
Proof.
  unfold count_label. revert r. induction cols as [|l cols IH]; intros [|x r]; simpl; try done.
  intros [= Hlen]. rewrite filter_cons. destruct (decide (l = c)); simpl; by rewrite IH.
Qed.

Lemma put_label_length (c : string) (v : cell) (cols : list string) (r : list cell) :
  length (put_label c v cols r) = length r.
Proof.
  revert r. induction cols as [|l cols IH]; intros [|x r]; simpl; try done. by rewrite IH.
Qed.

Lemma at_label_put_eq (c : string) (v : cell) (cols : list string) (r : list cell) :
  at_label c cols (put_label c v cols r) = (λ _, v) <$> at_label c cols r.
Proof.
  revert r. induction cols as [|l cols IH]; intros [|x r]; simpl; try done.
  destruct (decide (l = c)); simpl; by rewrite IH.
Qed.

Lemma at_label_put_ne (c c' : string) (v : cell) (cols : list string) (r : list cell) :
  c' ≠ c → at_label c' cols (put_label c v cols r) = at_label c' cols r.
Proof.
  intros Hne. revert r. induction cols as [|l cols IH]; intros [|x r]; simpl; try done.
  destruct (decide (l = c')) as [->|]; simpl.
  - rewrite decide_False by done. by rewrite IH.
  - by rewrite IH.
Qed.

Lemma cell_of_put_eq (c : string) (v : cell) (cols : list string) (r : list cell) :
  length r = length cols → c ∈ cols → cell_of c cols (put_label c v cols r) = v.
Proof.
  intros Hlen Hc. unfold cell_of. rewrite at_label_put_eq.
  pose proof (at_label_length c cols r Hlen) as Hn.
  apply count_label_pos in Hc.
  destruct (at_label c cols r); simpl in *; [lia|done].
Qed.

Lemma cell_of_put_ne (c c' : string) (v : cell) (cols : list string) (r : list cell) :
  c' ≠ c → cell_of c' cols (put_label c v cols r) = cell_of c' cols r.
Proof. intros Hne. unfold cell_of. by rewrite at_label_put_ne. Qed.

(** Under a label that names one column, a row of the right length holds
    exactly the cell [cell_of] reads. *)
Lemma at_label_single (c : string) (cols : list string) (r : list cell) :
  length r = length cols → count_label c cols = 1%nat →
  at_label c cols r = [cell_of c cols r].
Proof.
  intros Hlen Hc. unfold cell_of.
  pose proof (at_label_length c cols r Hlen) as Hn. rewrite Hc in Hn.
  by destruct (at_label c cols r) as [|x [|y l]].
Qed.

(** * The registry loader *)

Lemma strip_column_Ret `{Host} (c : string) (df : frame) :
  count_label c (columns df) = 1%nat →
  strip_column c df = Ret (DataFrame (columns df) (strip_row c (columns df) <$> rows df)).
Proof.
  intros Hc. unfold strip_column. rewrite series_Ret by done. simpl. f_equal.
  rewrite <- list_fmap_compose.
  apply (setitem_in c (λ r, Str (strip (astype_str (cell_of c (columns df) r))))).
  by apply count_label_one_in.
Qed.

Lemma strip_column_twice `{Host} (c : string) (df : frame) :
  (1 < count_label c (columns df))%nat → strip_column c df = Raise AttributeError.
Proof.
  intros Hc. unfold strip_column, series.
  by destruct (count_label c (columns df)) as [|[|n]]; [lia..|].
Qed.

Lemma missing_columns_spec (df : frame) (c : string) :
  c ∈ missing_columns df ↔ c ∈ required ∧ c ∉ columns df.
Proof. unfold missing_columns. rewrite list_elem_of_filter. tauto. Qed.

Lemma missing_columns_nil (df : frame) :
  missing_columns df = [] ↔ required ⊆ columns df.
Proof.
  split.
  - intros Hnil c Hc. destruct (decide (c ∈ columns df)) as [|Hout]; [done|].
    assert (c ∈ missing_columns df) as Hin by by apply missing_columns_spec.
    rewrite Hnil in Hin. by apply elem_of_nil in Hin.
  - intros Hsub. apply filter_none. intros c Hc Hout. by apply Hout, Hsub.
Qed.

Lemma strip_row_length `{Host} (c : string) (cols : list string) (r : list cell) :
  length (strip_row c cols r) = length r.
Proof. apply put_label_length. Qed.

Lemma strip_row_eq `{Host} (c : string) (cols : list string) (r : list cell) :
  length r = length cols → c ∈ cols →
  ∃ s, cell_of c cols (strip_row c cols r) = Str s ∧ trimmed s.
Proof.
  intros Hlen Hc. eexists. split; [by apply cell_of_put_eq|apply strip_trimmed].
Qed.

Lemma strip_row_ne `{Host} (c c' : string) (cols : list string) (r : list cell) :
  c' ≠ c → cell_of c' cols (strip_row c cols r) = cell_of c' cols r.
Proof. apply cell_of_put_ne. Qed.





(** * Writing a column *)

Lemma setitem_rows (c : string) (vals : list cell) (df : frame) :
  setitem c vals df
  = DataFrame (set_cols c (columns df))
      (zip_with (λ v r, set_row c v (columns df) r) vals (rows df)).
Proof. unfold setitem, set_cols, set_row. by destruct (decide (c ∈ columns df)). Qed.

Lemma at_label_app (c : string) (cols cols' : list string) (r r' : list cell) :
  length r = length cols →
  at_label c (cols ++ cols') (r ++ r') = at_label c cols r ++ at_label c cols' r'.
Proof.
  revert r. induction cols as [|l cols IH]; intros [|x r]; simpl; try done.
  intros [= Hlen]. destruct (decide (l = c)); simpl; by rewrite IH.
Qed.

Lemma at_label_absent (c : string) (cols : list string) (r : list cell) :
  c ∉ cols → at_label c cols r = [].
Proof.
  revert r. induction cols as [|l cols IH]; intros [|x r]; simpl; try done.
  intros Hc. rewrite decide_False by (intros ->; apply Hc; left).
  apply IH. intros Hin. apply Hc. by right.
Qed.

Lemma count_label_app (c : string) (cols cols' : list string) :
  count_label c (cols ++ cols') = (count_label c cols + count_label c cols')%nat.
Proof. unfold count_label. by rewrite filter_app, length_app. Qed.

Lemma set_cols_in (c : string) (cols : list string) : c ∈ set_cols c cols.
Proof.
  unfold set_cols. case_decide; [done|]. apply elem_of_app. right. left.
Qed.

Lemma set_cols_count_ne (c c' : string) (cols : list string) :
  c' ≠ c → count_label c' (set_cols c cols) = count_label c' cols.
Proof.
  intros Hne. unfold set_cols. case_decide; [done|].
  rewrite count_label_app. unfold count_label at 2. simpl.
  rewrite filter_cons, decide_False by done. simpl. lia.
Qed.

Lemma set_cols_nonempty (c : string) (cols : list string) : set_cols c cols ≠ [].
Proof. intros Hnil. pose proof (set_cols_in c cols) as Hin. rewrite Hnil in Hin. by apply elem_of_nil in Hin. Qed.

Lemma set_row_length (c : string) (v : cell) (cols : list string) (r : list cell) :
  length r = length cols → length (set_row c v cols r) = length (set_cols c cols).
Proof.
  intros Hlen. unfold set_row, set_cols. case_decide.
  - by rewrite put_label_length.
  - rewrite !length_app. simpl. lia.
Qed.

Lemma set_row_at_ne (c c' : string) (v : cell) (cols : list string) (r : list cell) :
  c' ≠ c → length r = length cols →
  at_label c' (set_cols c cols) (set_row c v cols r) = at_label c' cols r.
Proof.
  intros Hne Hlen. unfold set_row, set_cols. case_decide.
  - by apply at_label_put_ne.
  - rewrite at_label_app by done. simpl. rewrite decide_False by done. by rewrite app_nil_r.
Qed.

Lemma set_row_at_eq (c : string) (v : cell) (cols : list string) (r : list cell) :
  length r = length cols →
  ∃ n, at_label c (set_cols c cols) (set_row c v cols r) = replicate (S n) v.
Proof.
  intros Hlen. unfold set_row, set_cols. case_decide as Hc.
  - rewrite at_label_put_eq.
    pose proof (at_label_length c cols r Hlen) as Hn. apply count_label_pos in Hc.
    destruct (at_label c cols r) as [|x l]; simpl in *; [lia|].
    exists (length l). f_equal. clear. induction l as [|y l IH]; simpl; [done|]. by rewrite IH.
  - exists 0%nat. rewrite at_label_app by done. rewrite at_label_absent by done.
    simpl. by rewrite decide_True.
Qed.

Lemma set_row_cell_eq (c : string) (v : cell) (cols : list string) (r : list cell) :
  length r = length cols → cell_of c (set_cols c cols) (set_row c v cols r) = v.
Proof.
  intros Hlen. unfold cell_of. by destruct (set_row_at_eq c v cols r Hlen) as [n ->].
Qed.

Lemma set_row_cell_ne (c c' : string) (v : cell) (cols : list string) (r : list cell) :
  c' ≠ c → length r = length cols →
  cell_of c' (set_cols c cols) (set_row c v cols r) = cell_of c' cols r.
Proof. intros Hne Hlen. unfold cell_of. by rewrite set_row_at_ne. Qed.

Lemma put_label_same (c : string) (v : cell) (cols : list string) (r : list cell) :
  Forall (λ x, x = v) (at_label c cols r) → put_label c v cols r = r.
Proof.
  revert r. induction cols as [|l cols IH]; intros [|x r]; simpl; try done.
  destruct (decide (l = c)).
  - intros [-> Hall]%Forall_cons_1. by rewrite IH.
  - intros Hall. by rewrite IH.
Qed.

(** Writing to a row what it already holds changes nothing. *)
Lemma set_row_same (c : string) (v : cell) (cols : list string) (r : list cell) :
  c ∈ cols → Forall (λ x, x = v) (at_label c cols r) → set_row c v cols r = r.
Proof. intros Hc Hall. unfold set_row. rewrite decide_True by done. by apply put_label_same. Qed.

Lemma set_cols_same (c : string) (cols : list string) : c ∈ cols → set_cols c cols = cols.
Proof. intros Hc. unfold set_cols. by rewrite decide_True. Qed.

Lemma zip_with_same {A B} (f : A → B → B) (l : list A) (k : list B) :
  Forall2 (λ a b, f a b = b) l k → zip_with f l k = k.
Proof. induction 1 as [|a b l k Hab _ IH]; simpl; [done|]. by rewrite Hab, IH. Qed.

Lemma setitem_wf (c : string) (vals : list cell) (df : frame) :
  wf_frame df → wf_frame (setitem c vals df).
Proof.
  intros Hwf. rewrite setitem_rows. unfold wf_frame in *. simpl.
  revert vals. induction Hwf as [|r l Hr _ IH]; intros [|v vals]; simpl; try constructor.
  - by apply set_row_length.
  - apply IH.
Qed.

Lemma setitem_length (c : string) (vals : list cell) (df : frame) :
  length vals = length (rows df) → length (rows (setitem c vals df)) = length (rows df).
Proof. intros Hlen. rewrite setitem_rows. simpl. rewrite length_zip_with. lia. Qed.

(** The columns under other labels read as before. *)
Lemma setitem_cells_ne (c c' : string) (vals : list cell) (df : frame) :
  c' ≠ c → wf_frame df → length vals = length (rows df) →
  map (cell_of c' (columns (setitem c vals df))) (rows (setitem c vals df))
  = map (cell_of c' (columns df)) (rows df).
Proof.
  intros Hne Hwf. rewrite setitem_rows. simpl. unfold wf_frame in Hwf.
  revert vals. induction Hwf as [|r l Hr _ IH]; intros [|v vals]; simpl; try done.
  intros [= Hlen]. by rewrite set_row_cell_ne, IH.
Qed.

(** The column written reads as the values written. *)
Lemma setitem_cells_eq (c : string) (vals : list cell) (df : frame) :
  wf_frame df → length vals = length (rows df) →
  map (cell_of c (columns (setitem c vals df))) (rows (setitem c vals df)) = vals.
Proof.
  intros Hwf. rewrite setitem_rows. simpl. unfold wf_frame in Hwf.
  revert vals. induction Hwf as [|r l Hr _ IH]; intros [|v vals]; simpl; try done.
  intros [= Hlen]. by rewrite set_row_cell_eq, IH.
Qed.

(** * Growth rates within groups *)

Lemma fill_length (p : fill_policy) (s : list float) : length (fill p s) = length s.
Proof.
  destruct p; simpl; [|done]. generalize nan.
  induction s as [|x s IH]; intros last; simpl; [done|]. by rewrite IH.
Qed.

Lemma shift_length (periods : nat) (s : list float) : length (shift periods s) = length s.
Proof. unfold shift. rewrite length_take, length_app, length_replicate. lia. Qed.

Lemma shift_lookup (periods : nat) (s : list float) (j : nat) :
  (j < length s)%nat →
  shift periods s !! j = Some (if (j <? periods)%nat then nan
                               else default nan (s !! (j - periods)%nat)).
Proof.
  intros Hj. unfold shift. rewrite lookup_take_lt by done.
  destruct (j <? periods)%nat eqn:Hjp.
  - apply Nat.ltb_lt in Hjp. rewrite lookup_app_l by (rewrite length_replicate; lia).
    by rewrite lookup_replicate_2.
  - apply Nat.ltb_ge in Hjp. rewrite lookup_app_r by (rewrite length_replicate; lia).
    rewrite length_replicate.
    destruct (s !! (j - periods)%nat) eqn:Hs; [done|].
    apply lookup_ge_None in Hs. lia.
Qed.

Lemma pct_change_length `{Host} (periods : nat) (s : list float) :
  length (pct_change periods s) = length s.
Proof.
  unfold pct_change. rewrite length_zip_with, shift_length, fill_length. lia.
Qed.

(** [pct_change] computes the formula of the specification on the filled
    sequence. *)
Lemma pct_change_lookup `{Host} (periods : nat) (s : list float) (j : nat) :
  (j < length s)%nat →
  pct_change periods s !! j = Some (spec_pct periods (fill pct_fill s) j).
Proof.
  intros Hj. unfold pct_change, spec_pct. rewrite lookup_zip_with.
  destruct (lookup_lt_is_Some_2 (fill pct_fill s) j) as [x Hx]; [by rewrite fill_length|].
  rewrite Hx. simpl. rewrite shift_lookup by (by rewrite fill_length). simpl.
  destruct (j <? periods)%nat; [|done]. by rewrite div_nan_sub.
Qed.

Lemma spec_pct_first (periods : nat) (s : list float) (j : nat) :
  (j < periods)%nat → spec_pct periods s j = nan.
Proof. intros Hj. unfold spec_pct. apply Nat.ltb_lt in Hj. by rewrite Hj. Qed.

Lemma spec_pct_null_denominator (periods : nat) (s : list float) (j : nat) :
  (periods ≤ j)%nat → s !! (j - periods)%nat = Some nan → spec_pct periods s j = nan.
Proof.
  intros Hj Hs. unfold spec_pct. apply Nat.ltb_ge in Hj. rewrite Hj, Hs. simpl.
  apply div_nan_sub.
Qed.

Lemma group_of_length (k : cell) (keys : list cell) (vals : list float) :
  length keys = length vals →
  length (group_of k keys vals) = length (filter (λ k', k' = k) keys).
Proof.
  unfold group_of. rewrite length_fmap. revert vals.
  induction keys as [|k' keys IH]; intros [|v vals]; simpl; try done.
  intros [= Hlen]. rewrite !filter_cons. simpl.
  destruct (decide (k' = k)); simpl; by rewrite IH.
Qed.

(** The transformed values of the rows of one group are that group's
    result: here for the rows [rest] that follow the rows [seen]. *)
Lemma transform_from_group (f : list float → list float) (keys : list cell)
    (vals : list float) (k : cell) (seen rest : list cell) :
  keys = seen ++ rest → isna k = false →
  length (f (group_of k keys vals)) = length (filter (λ k', k' = k) keys) →
  snd <$> filter (λ p, p.1 = k) (zip rest (transform_from f keys vals seen rest))
  = drop (length (filter (λ k', k' = k) seen)) (f (group_of k keys vals)).
Proof.
  intros Hkeys Hk Hlen. revert seen Hkeys.
  induction rest as [|k' rest IH]; intros seen Hkeys; simpl.
  - rewrite app_nil_r in Hkeys. subst seen. by rewrite drop_ge by lia.
  - rewrite filter_cons. cbn [fst].
    specialize (IH (seen ++ [k'])). rewrite <- app_assoc in IH. specialize (IH Hkeys).
    rewrite filter_app, length_app in IH. rewrite filter_cons in IH. simpl in IH.
    destruct (decide (k' = k)) as [->|Hne].
    + rewrite fmap_cons. cbn [snd length] in *. rewrite Hk, IH.
      assert (length (filter (λ k', k' = k) seen) < length (f (group_of k keys vals)))%nat
        as Hlt.
      { rewrite Hlen, Hkeys, filter_app, length_app, filter_cons, decide_True by done.
        simpl. lia. }
      destruct (lookup_lt_is_Some_2 _ _ Hlt) as [y Hy]. rewrite Hy. simpl.
      rewrite Nat.add_1_r. symmetry. by apply drop_S.
    + simpl in IH. rewrite IH. by rewrite Nat.add_0_r.
Qed.

Lemma groupby_transform_group (f : list float → list float) (keys : list cell)
    (vals : list float) (k : cell) :
  length keys = length vals → isna k = false →
  (∀ s, length (f s) = length s) →
  group_of k keys (groupby_transform f keys vals) = f (group_of k keys vals).
Proof.
  intros Hlen Hk Hf. unfold groupby_transform, group_of at 1.
  rewrite (transform_from_group f keys vals k [] keys); [done..|].
  by rewrite Hf, group_of_length.
Qed.

Lemma transform_from_length (f : list float → list float) (keys : list cell)
    (vals : list float) (seen rest : list cell) :
  length (transform_from f keys vals seen rest) = length rest.
Proof. revert seen. induction rest as [|k rest IH]; intros seen; simpl; [done|]. by rewrite IH. Qed.

Lemma groupby_transform_length (f : list float → list float) (keys : list cell)
    (vals : list float) :
  length (groupby_transform f keys vals) = length keys.
Proof. apply transform_from_length. Qed.

(** Reading two columns of the rows of one group. *)
Lemma filter_rows_zip {A} (key : list cell → cell) (g : list cell → A) (k : cell)
    (l : list (list cell)) :
  g <$> filter (λ r, key r = k) l
  = snd <$> filter (λ p, p.1 = k) (zip (key <$> l) (g <$> l)).
Proof.
  induction l as [|r l IH]; [done|]. rewrite !fmap_cons. cbn [zip_with].
  rewrite !filter_cons. cbn [fst].
  destruct (decide (key r = k)); [rewrite !fmap_cons; cbn [snd]|]; by rewrite IH.
Qed.

Lemma group_of_fmap_Num (k : cell) (keys : list cell) (vals : list float) :
  snd <$> filter (λ p, p.1 = k) (zip keys (Num <$> vals)) = Num <$> group_of k keys vals.
Proof.
  unfold group_of. revert vals.
  induction keys as [|k' keys IH]; intros [|v vals]; try done.
  rewrite fmap_cons. cbn [zip_with]. rewrite !filter_cons. cbn [fst].
  destruct (decide (k' = k)); [rewrite !fmap_cons; cbn [snd]|]; by rewrite IH.
Qed.

(** * Writing a column twice *)

Lemma frame_eta (df : frame) : DataFrame (columns df) (rows df) = df.
Proof. by destruct df. Qed.

(** Writing to a column what it already holds changes nothing. *)
Lemma setitem_same (c : string) (vals : list cell) (df : frame) :
  c ∈ columns df →
  Forall2 (λ v r, Forall (λ x, x = v) (at_label c (columns df) r)) vals (rows df) →
  setitem c vals df = df.
Proof.
  intros Hc Hall. rewrite setitem_rows, set_cols_same by done.
  rewrite zip_with_same; [apply frame_eta|].
  eapply Forall2_impl; [done|]. intros v r Hv. by apply set_row_same.
Qed.

Lemma setitem_at_eq (c : string) (vals : list cell) (df : frame) :
  wf_frame df → length vals = length (rows df) →
  Forall2 (λ v r, Forall (λ x, x = v) (at_label c (columns (setitem c vals df)) r))
    vals (rows (setitem c vals df)).
Proof.
  intros Hwf. rewrite setitem_rows. simpl. unfold wf_frame in Hwf.
  revert vals. induction Hwf as [|r l Hr _ IH]; intros [|v vals] Hlen; simplify_eq/=;
    constructor; [|by apply IH].
  destruct (set_row_at_eq c v (columns df) r Hr) as [n ->].
  apply Forall_forall. by intros x [-> _]%elem_of_replicate.
Qed.

Lemma setitem_at_ne (c c' : string) (vals : list cell) (df : frame) :
  c' ≠ c → wf_frame df → length vals = length (rows df) →
  Forall2 (λ r r', at_label c' (columns (setitem c vals df)) r' = at_label c' (columns df) r)
    (rows df) (rows (setitem c vals df)).
Proof.
  intros Hne Hwf. rewrite setitem_rows. simpl. unfold wf_frame in Hwf.
  revert vals. induction Hwf as [|r l Hr _ IH]; intros [|v vals] Hlen; simplify_eq/=;
    constructor; [by apply set_row_at_ne|by apply IH].
Qed.

Lemma setitem_column_in (c : string) (vals : list cell) (df : frame) :
  c ∈ columns (setitem c vals df).
Proof. rewrite setitem_rows. apply set_cols_in. Qed.

Lemma setitem_count_ne (c c' : string) (vals : list cell) (df : frame) :
  c' ≠ c → count_label c' (columns (setitem c vals df)) = count_label c' (columns df).
Proof. intros Hne. rewrite setitem_rows. by apply set_cols_count_ne. Qed.

Lemma setitem_twice (c : string) (vals : list cell) (df : frame) :
  wf_frame df → length vals = length (rows df) →
  setitem c vals (setitem c vals df) = setitem c vals df.
Proof.
  intros Hwf Hlen. apply setitem_same; [apply setitem_column_in|by apply setitem_at_eq].
Qed.

Lemma Forall2_through {A B C} (Q : A → C → Prop) (g1 g2 : B → C)
    (l : list A) (k1 k2 : list B) :
  Forall2 (λ a b, Q a (g1 b)) l k1 → Forall2 (λ b1 b2, g2 b2 = g1 b1) k1 k2 →
  Forall2 (λ a b, Q a (g2 b)) l k2.
Proof.
  intros Hl. revert k2. induction Hl as [|a b l k1 Hab _ IH]; intros k2; inversion 1; subst;
    constructor; [congruence|by apply IH].
Qed.

(** A column written before another one can be written again after it. *)
Lemma setitem_again (c c' : string) (vals vals' : list cell) (df : frame) :
  c' ≠ c → wf_frame df →
  length vals = length (rows df) → length vals' = length (rows df) →
  setitem c vals (setitem c' vals' (setitem c vals df)) = setitem c' vals' (setitem c vals df).
Proof.
  intros Hne Hwf Hlen Hlen'. apply setitem_same.
  - apply count_label_pos. rewrite setitem_count_ne by done.
    apply count_label_pos, setitem_column_in.
  - pose proof (setitem_at_eq c vals df Hwf Hlen) as Heq.
    pose proof (setitem_at_ne c' c vals' (setitem c vals df)) as Hne'.
    specialize (Hne' (not_eq_sym Hne) (setitem_wf _ _ _ Hwf)).
    rewrite setitem_length in Hne' by done. specialize (Hne' Hlen').
    exact (Forall2_through (λ v cells, Forall (λ x, x = v) cells) _ _ _ _ _ Heq Hne').
Qed.

(** A column that names one label can be written onto itself. *)
Lemma setitem_own_column (c : string) (df : frame) :
  wf_frame df → count_label c (columns df) = 1%nat →
  setitem c (map (cell_of c (columns df)) (rows df)) df = df.
Proof.
  intros Hwf Hc. apply setitem_same; [by apply count_label_one_in|].
  unfold wf_frame in Hwf. induction Hwf as [|r l Hr _ IH]; simpl; constructor; [|done].
  rewrite at_label_single by done. by constructor.
Qed.

(** * Columns of one type *)

Lemma homogeneous_spec (l : list cell) :
  homogeneous l = true ↔
  ∀ x y i j, x ∈ l → y ∈ l → kind x = Some i → kind y = Some j → i = j.
Proof.
  unfold homogeneous. split.
  - intros Hhom x y i j Hx Hy Hi Hj.
    assert (i ∈ omap kind l) as Hi' by (apply list_elem_of_omap; eauto).
    assert (j ∈ omap kind l) as Hj' by (apply list_elem_of_omap; eauto).
    destruct (omap kind l) as [|k ks]; [by apply elem_of_nil in Hi'|].
    assert (∀ n, n ∈ k :: ks → n = k) as Hk.
    { intros n [->|Hn]%elem_of_cons; [done|].
      rewrite forallb_forall in Hhom. symmetry. apply Nat.eqb_eq, Hhom.
      by apply list_elem_of_In. }
    by rewrite (Hk i), (Hk j).
  - intros Hall. destruct (omap kind l) as [|k ks] eqn:Hkinds; [done|].
    apply forallb_forall. intros n Hn%list_elem_of_In. apply Nat.eqb_eq.
    assert (k ∈ omap kind l) as (x & Hx & Hkx)%list_elem_of_omap by (rewrite Hkinds; left).
    assert (n ∈ omap kind l) as (y & Hy & Hny)%list_elem_of_omap
      by (rewrite Hkinds; by right).
    exact (Hall x y k n Hx Hy Hkx Hny).
Qed.

Lemma homogeneous_perm (l k : list cell) :
  l ≡ₚ k → homogeneous l = true → homogeneous k = true.
Proof.
  intros Hperm. rewrite !homogeneous_spec. intros Hl x y i j Hx Hy.
  apply Hl; by rewrite Hperm.
Qed.

(** A column whose cells, where not null, have one given type. *)
Lemma homogeneous_of_kind (n : nat) (l : list cell) :
  Forall (λ x, kind x = None ∨ kind x = Some n) l → homogeneous l = true.
Proof.
  intros Hall. apply homogeneous_spec. intros x y i j Hx Hy Hi Hj.
  rewrite Forall_forall in Hall.
  destruct (Hall x Hx) as [?|?], (Hall y Hy) as [?|?]; congruence.
Qed.

(** * Conversions *)

Lemma to_datetime_is_time `{Host} (c t : cell) : to_datetime c = Ret t → is_time t.
Proof.
  unfold to_datetime, is_time.
  destruct c as [|s|x|d|t']; try (intros [= <-]; eauto; fail);
    try (destruct (in_bounds _); intros [= <-]; eauto; fail);
    (destruct (isna _); [intros [= <-]; eauto|]);
    (destruct (scalar_to_datetime _) as [[?|]|]; intros [= <-]; eauto).
Qed.

(** A timestamp converts to itself. *)
Lemma to_datetime_time `{Host} (c : cell) : is_time c → to_datetime c = Ret c.
Proof. by intros [->|[t ->]]. Qed.

Lemma mapM_to_datetime_time `{Host} (l : list cell) :
  Forall is_time l → mapM to_datetime l = Ret l.
Proof.
  intros Hl. rewrite <- (list_fmap_id l) at 2. apply mapM_Ret_all.
  intros c Hc. apply to_datetime_time. by eapply Forall_forall in Hl.
Qed.

Lemma mapM_to_float_Ret (l : list cell) (xs : list float) :
  mapM to_float l = Ret xs ↔ l = Num <$> xs.
Proof.
  rewrite mapM_Ret_Forall2. split.
  - induction 1 as [|c x l xs Hc _ IH]; [done|]. rewrite fmap_cons. f_equal; [|done].
    destruct c; by try injection Hc as ->.
  - intros ->. induction xs as [|x xs IH]; [constructor|]. rewrite fmap_cons. by constructor.
Qed.

Lemma is_time_kind (c : cell) : is_time c → kind c = None ∨ kind c = Some 3%nat.
Proof. intros [->|[t ->]]; [by left|by right]. Qed.

(** * The KPI enricher *)

(** The cells of the rows under labels other than the one written. *)
Lemma setitem_keys_ne (c : string) (cs : list string) (vals : list cell) (df : frame) :
  c ∉ cs → wf_frame df → length vals = length (rows df) →
  map (sort_key cs (columns (setitem c vals df))) (rows (setitem c vals df))
  = map (sort_key cs (columns df)) (rows df).
Proof.
  intros Hc Hwf Hlen.
  assert (Forall2 (λ r r', sort_key cs (columns (setitem c vals df)) r'
                           = sort_key cs (columns df) r)
            (rows df) (rows (setitem c vals df))) as Hrows.
  { induction cs as [|c' cs IH].
    - assert (length (rows df) = length (rows (setitem c vals df))) as Hl
        by by rewrite setitem_length.
      revert Hl. generalize (rows (setitem c vals df)). generalize (rows df).
      induction l as [|r l IHl]; intros [|r' l'] Hl; try done; constructor; [done|].
      apply IHl. by injection Hl.
    - apply not_elem_of_cons in Hc as [Hne Hc]. specialize (IH Hc).
      pose proof (setitem_at_ne c c' vals df (not_eq_sym Hne) Hwf Hlen) as Hat.
      revert IH Hat. generalize (rows (setitem c vals df)). generalize (rows df).
      intros l l' IH. induction IH as [|r r' l l' Hr _ IH]; [constructor|].
      intros [Hat Hrest]%Forall2_cons. constructor; [|by apply IH].
      unfold sort_key in *. simpl. rewrite Hr. f_equal. unfold cell_of. by rewrite Hat. }
  revert Hrows. generalize (rows (setitem c vals df)). generalize (rows df).
  intros l l'. induction 1 as [|r r' l l' Hr _ IH]; simpl; [done|]. by rewrite Hr, IH.
Qed.

Lemma groupby_pct_change_Ret_inv `{Host} (by_ col : string) (periods : nat)
    (df : frame) (out : list cell) :
  groupby_pct_change by_ col periods df = Ret out →
  count_label by_ (columns df) = 1%nat ∧ count_label col (columns df) = 1%nat
  ∧ ∃ xs, mapM to_float (map (cell_of col (columns df)) (rows df)) = Ret xs
          ∧ out = Num <$> groupby_transform (pct_change periods)
                            (map (cell_of by_ (columns df)) (rows df)) xs.
Proof.
  unfold groupby_pct_change. intros Hrun.
  apply bind_Ret_inv in Hrun as (keys & Hkeys & Hrun).
  apply bind_Ret_inv in Hrun as (vals & Hvals & Hrun).
  apply bind_Ret_inv in Hrun as (xs & Hxs & Hrun).
  apply series_Ret_inv in Hkeys as [? ->]. apply series_Ret_inv in Hvals as [? ->].
  injection Hrun as <-. eauto.
Qed.

Lemma groupby_pct_change_Ret `{Host} (by_ col : string) (periods : nat)
    (df : frame) (xs : list float) :
  count_label by_ (columns df) = 1%nat → count_label col (columns df) = 1%nat →
  map (cell_of col (columns df)) (rows df) = Num <$> xs →
  groupby_pct_change by_ col periods df
  = Ret (Num <$> groupby_transform (pct_change periods)
                   (map (cell_of by_ (columns df)) (rows df)) xs).
Proof.
  intros Hby Hcol Hxs. unfold groupby_pct_change.
  rewrite !series_Ret by done. simpl. rewrite Hxs.
  by rewrite (proj2 (mapM_to_float_Ret _ xs) eq_refl).
Qed.

Lemma rates_length `{Host} (periods : nat) (keys : list cell) (xs : list float)
    (l : list (list cell)) (f : list cell → cell) :
  keys = map f l →
  length (Num <$> groupby_transform (pct_change periods) keys xs) = length l.
Proof. intros ->. by rewrite length_fmap, groupby_transform_length, length_map. Qed.

(** The steps of [enrich_kpi] on a table with rows: the dates [ts] that
    line 117 writes, and the sorted table that lines 120-121 complete. *)
Lemma enrich_kpi_steps `{Host} (df out : frame) :
  wf_frame df → empty df = false → enrich_kpi df = Ret out →
  ∃ ts xs,
    mapM to_datetime (map (cell_of "date" (columns df)) (rows df)) = Ret ts
    ∧ count_label "date" (columns df) = 1%nat
    ∧ let d1 := setitem "date" ts df in
      let d := DataFrame (columns d1)
                 (stable_sort (row_le ["ticker"; "date"] (columns d1)) (rows d1)) in
      sorted_base d xs ∧ out = with_rates d xs.
Proof.
  intros Hwf Hne Hrun. unfold enrich_kpi in Hrun. rewrite Hne in Hrun.
  apply bind_Ret_inv in Hrun as (d1 & Hd1 & Hrun).
  apply bind_Ret_inv in Hrun as (d2 & Hd2 & Hrun).
  apply bind_Ret_inv in Hrun as (mom & Hmom & Hrun). cbv zeta in Hrun.
  apply bind_Ret_inv in Hrun as (yoy & Hyoy & Hrun). injection Hrun as <-.
  unfold datetime_column in Hd1.
  apply bind_Ret_inv in Hd1 as (col & Hcol & Hd1).
  apply bind_Ret_inv in Hd1 as (ts & Hts & Hd1). injection Hd1 as <-.
  apply series_Ret_inv in Hcol as [Hdate ->].
  assert (length ts = length (rows df)) as Hlen_ts.
  { apply mapM_Ret_length in Hts. by rewrite length_map in Hts. }
  assert (Forall is_time ts) as Htimes.
  { apply mapM_Ret_Forall2 in Hts. clear -Hts.
    induction Hts as [|c t l ts Hc _ IH]; constructor; [|done].
    by eapply to_datetime_is_time. }
  pose proof (setitem_wf "date" ts df Hwf) as Hwf1.
  pose proof (setitem_cells_eq "date" ts df Hwf Hlen_ts) as Hdates.
  pose proof (setitem_length "date" ts df Hlen_ts) as Hlen1.
  assert (columns (setitem "date" ts df) = columns df) as Hcols1.
  { apply setitem_columns_in. by apply count_label_one_in. }
  set (d1 := setitem "date" ts df) in *.
  apply sort_values_Ret_inv in Hd2 as [-> Hby].
  set (d := DataFrame (columns d1) (stable_sort (row_le ["ticker"; "date"] (columns d1)) (rows d1)))
    in *.
  assert (wf_frame d) as Hwfd.
  { unfold wf_frame, d. simpl. by rewrite stable_sort_perm. }
  apply groupby_pct_change_Ret_inv in Hmom as (Hticker & Hrevenue & xs & Hxs & ->).
  apply groupby_pct_change_Ret_inv in Hyoy as (_ & _ & xs' & Hxs' & ->).
  assert (length (Num <$> groupby_transform (pct_change 1)
                    (map (cell_of "ticker" (columns d)) (rows d)) xs) = length (rows d))
    as Hlen_mom by by eapply rates_length.
  rewrite setitem_cells_ne in Hxs' by done.
  rewrite setitem_cells_ne by done.
  assert (xs' = xs) as -> by congruence.
  exists ts, xs. split; [done|]. split; [done|]. cbv zeta. fold d1. fold d.
  split; [|done].
  apply Forall_cons_1 in Hby as [[_ Hhom_ticker] Hby].
  apply Forall_cons_1 in Hby as [[Hdate1 Hhom_date] _].
  split; [done|].
  split. { repeat apply Forall_cons_2; [exact Hticker|exact Hdate1|exact Hrevenue|].
           constructor. }
  split. { apply (homogeneous_perm (map (cell_of "ticker" (columns d1)) (rows d1)));
           [|done]. unfold d. simpl. by rewrite stable_sort_perm. }
  split. { apply (homogeneous_perm (map (cell_of "date" (columns d1)) (rows d1)));
           [|done]. unfold d. simpl. by rewrite stable_sort_perm. }
  split. { unfold d. simpl. rewrite stable_sort_perm. by rewrite Hdates. }
  split. { by apply mapM_to_float_Ret. }
  apply stable_sort_Sorted, row_le_total.
Qed.

(** What [enrich_kpi] returns on a table with rows. *)
Lemma enrich_kpi_inv `{Host} (df out : frame) :
  wf_frame df → empty df = false → enrich_kpi df = Ret out →
  ∃ d xs, sorted_base d xs ∧ out = with_rates d xs
          ∧ columns d = columns df ∧ length (rows d) = length (rows df).
Proof.
  intros Hwf Hne Hrun.
  destruct (enrich_kpi_steps df out Hwf Hne Hrun) as (ts & xs & Hts & Hdate & Hbase & ->).
  apply mapM_Ret_length in Hts. rewrite length_map in Hts.
  eexists _, xs. split; [exact Hbase|]. split; [done|]. cbn [columns rows]. split.
  - apply setitem_columns_in. by apply count_label_one_in.
  - rewrite stable_sort_length. by apply setitem_length.
Qed.

Lemma Sorted_by_key {A} (key : A → list cell) (l : list A) :
  Sorted (λ a b, lex_le (key a) (key b) = true) l
  ↔ Sorted (λ x y, lex_le x y = true) (key <$> l).
Proof.
  induction l as [|a l IH]; [split; constructor|]. rewrite fmap_cons. split.
  - inversion 1 as [|? ? Hl Ha]; subst. constructor; [by apply IH|].
    destruct Ha; [constructor|]. rewrite fmap_cons. by constructor.
  - inversion 1 as [|? ? Hl Ha]; subst. constructor; [by apply IH|].
    destruct l as [|b l]; [constructor|]. rewrite fmap_cons in Ha.
    inversion Ha; subst. by constructor.
Qed.

Lemma fmap_pair_eq {A B} (f g : A → B) (f' g' : A → B) (l l' : list A) :
  f <$> l = f' <$> l' → g <$> l = g' <$> l' →
  (λ r, [f r; g r]) <$> l = (λ r, [f' r; g' r]) <$> l'.
Proof.
  revert l'. induction l as [|a l IH]; intros [|a' l']; try done.
  rewrite !fmap_cons. intros [= Hf Hfs] [= Hg Hgs]. rewrite Hf, Hg. f_equal. by apply IH.
Qed.

(** The columns [enrich_kpi] reads are those of the sorted table. *)
Lemma with_rates_base `{Host} (d : frame) (xs : list float) (c : string) :
  wf_frame d → c ≠ "revenue_mom" → c ≠ "revenue_yoy" →
  count_label c (columns (with_rates d xs)) = count_label c (columns d)
  ∧ map (cell_of c (columns (with_rates d xs))) (rows (with_rates d xs))
    = map (cell_of c (columns d)) (rows d).
Proof.
  intros Hwf Hmom Hyoy. unfold with_rates. cbv zeta.
  rewrite !setitem_count_ne by done. split; [done|].
  rewrite setitem_cells_ne; [|done|by apply setitem_wf|].
  - rewrite setitem_cells_ne; [done..|]. by eapply rates_length.
  - rewrite setitem_length by (by eapply rates_length). by eapply rates_length.
Qed.

Lemma with_rates_wf `{Host} (d : frame) (xs : list float) :
  wf_frame d → wf_frame (with_rates d xs).
Proof. intros Hwf. unfold with_rates. by do 2 apply setitem_wf. Qed.

Lemma with_rates_length `{Host} (d : frame) (xs : list float) :
  length (rows (with_rates d xs)) = length (rows d).
Proof.
  unfold with_rates. cbv zeta.
  rewrite setitem_length; rewrite setitem_length; try done; by eapply rates_length.
Qed.

(** Enriching an enriched table returns it unchanged. *)
Lemma enrich_kpi_with_rates `{Host} (d : frame) (xs : list float) :
  sorted_base d xs → rows d ≠ [] → enrich_kpi (with_rates d xs) = Ret (with_rates d xs).
Proof.
  intros (Hwf & Hcounts & Hhom_ticker & Hhom_date & Htimes & Hxs & Hsorted) Hrows.
  apply Forall_cons_1 in Hcounts as [Hticker Hcounts].
  apply Forall_cons_1 in Hcounts as [Hdate Hcounts].
  apply Forall_cons_1 in Hcounts as [Hrevenue _].
  destruct (with_rates_base d xs "ticker" Hwf) as [Hticker' Htickers]; [done..|].
  destruct (with_rates_base d xs "date" Hwf) as [Hdate' Hdates]; [done..|].
  destruct (with_rates_base d xs "revenue" Hwf) as [Hrevenue' Hrevenues]; [done..|].
  pose proof (with_rates_wf d xs Hwf) as Hwf'.
  pose proof (with_rates_length d xs) as Hlen'.
  set (out := with_rates d xs) in *.
  assert (empty out = false) as Hne.
  { unfold empty. rewrite !bool_decide_eq_false_2; [done| |].
    - unfold out, with_rates. cbv zeta. rewrite setitem_rows. apply set_cols_nonempty.
    - intros Hnil. rewrite Hnil in Hlen'. by destruct (rows d). }
  assert (datetime_column out = Ret out) as Hstep1.
  { unfold datetime_column. rewrite series_Ret by congruence. simpl.
    rewrite mapM_to_datetime_time by (by rewrite Hdates). simpl. f_equal.
    apply setitem_own_column; [done|congruence]. }
  assert (sort_values ["ticker"; "date"] out = Ret out) as Hstep2.
  { rewrite sort_values_Ret.
    - f_equal. rewrite stable_sort_id; [apply frame_eta|].
      apply (Sorted_by_key (sort_key ["ticker"; "date"] (columns out))).
      apply (Sorted_by_key (sort_key ["ticker"; "date"] (columns d))) in Hsorted.
      unfold sort_key in *. simpl in *.
      by rewrite (fmap_pair_eq _ _ _ _ _ _ Htickers Hdates).
    - repeat apply Forall_cons_2; [| |constructor].
      + split; [congruence|]. by rewrite Htickers.
      + split; [congruence|]. by rewrite Hdates. }
  assert (∀ periods,
            groupby_pct_change "ticker" "revenue" periods out
            = Ret (Num <$> groupby_transform (pct_change periods)
                             (map (cell_of "ticker" (columns d)) (rows d)) xs)) as Hstep3.
  { intros periods. rewrite (groupby_pct_change_Ret _ _ _ _ xs); [|congruence..].
    by rewrite Htickers. }
  unfold enrich_kpi. rewrite Hne, Hstep1. simpl. rewrite Hstep2. simpl.
  rewrite Hstep3. simpl.
  assert (setitem "revenue_mom"
            (Num <$> groupby_transform (pct_change 1)
                       (map (cell_of "ticker" (columns d)) (rows d)) xs) out = out) as ->.
  { unfold out, with_rates. cbv zeta.
    apply setitem_again; [done|done|by eapply rates_length..]. }
  rewrite Hstep3. simpl. f_equal.
  unfold out, with_rates. cbv zeta. apply setitem_twice; [by apply setitem_wf|].
  rewrite setitem_length by (by eapply rates_length). by eapply rates_length.
Qed.

(** C8. Enriching twice is enriching once: on a table that [enrich_kpi]
    accepts, the second run returns the table of the first, with the same
    [revenue_mom] and [revenue_yoy]; on a table it rejects, both raise the
    same exception. *)
Theorem C8_enrich_kpi_idempotent `{Host} (df : frame) :
  wf_frame df → enrich_kpi df ≫= enrich_kpi = enrich_kpi df.
Proof.
  intros Hwf. destruct (empty df) eqn:Hempty.
  - assert (enrich_kpi df = Ret df) as Hsame by (unfold enrich_kpi; by rewrite Hempty).
    rewrite Hsame. exact Hsame.
  - destruct (enrich_kpi df) as [e|out] eqn:Hrun; [done|]. simpl.
    apply enrich_kpi_inv in Hrun as (d & xs & Hbase & -> & _ & Hlen); [|done..].
    apply enrich_kpi_with_rates; [done|].
    intros Hnil. rewrite Hnil in Hlen. unfold empty in Hempty.
    destruct (rows df); [|done]. by rewrite bool_decide_eq_true_2 in Hempty.
Qed.

Lemma C8_enrich_kpi_idempotent_witness :
  @enrich_kpi (demo_host (Ret demo_registry) None silent Ffill) demo_revenue
  = Ret demo_enriched
  ∧ @enrich_kpi (demo_host (Ret demo_registry) None silent Ffill) demo_revenue
    ≫= @enrich_kpi (demo_host (Ret demo_registry) None silent Ffill)
    = @enrich_kpi (demo_host (Ret demo_registry) None silent Ffill) demo_revenue.
Proof.
  split; [vm_compute; reflexivity|].
  apply (@C8_enrich_kpi_idempotent (demo_host (Ret demo_registry) None silent Ffill)).
  by repeat constructor.
Defined.

Lemma all_Num (l : list cell) :
  Forall (λ c, ∃ x, c = Num x) l → ∃ xs, l = Num <$> xs.
Proof.
  induction 1 as [|c l [x ->] _ [xs ->]]; [by exists []|]. by exists (x :: xs).
Qed.

Lemma revenue_table_wf (df : frame) : revenue_table df → wf_frame df.
Proof. intros [_ Hrows]. eapply Forall_impl; [done|]. by intros r [? _]. Qed.

Lemma to_datetime_midnight `{Host} (c : cell) :
  c = NaT ∨ (∃ d, c = Day d) ∨ (∃ t, c = Stamp t) → datable c →
  to_datetime c = Ret (midnight c).
Proof. intros [->|[[d ->]|[t ->]]] Hc; simpl in *; [done| |done]. by rewrite Hc. Qed.

(** Line 117 on a revenue table whose dates [pd.to_datetime] takes. *)
Lemma datetime_column_stamped `{Host} (df : frame) :
  revenue_table df →
  Forall (λ r, datable (cell_of "date" (columns df) r)) (rows df) →
  mapM to_datetime (map (cell_of "date" (columns df)) (rows df))
  = Ret (map (λ r, midnight (cell_of "date" (columns df) r)) (rows df))
  ∧ datetime_column df = Ret (stamped df).
Proof.
  intros [Hcounts Hrows] Hdates.
  apply Forall_cons_1 in Hcounts as [_ Hcounts].
  apply Forall_cons_1 in Hcounts as [Hdate _].
  assert (mapM to_datetime (map (cell_of "date" (columns df)) (rows df))
          = Ret (map (λ r, midnight (cell_of "date" (columns df) r)) (rows df))) as Hts.
  { rewrite <- (map_map (cell_of "date" (columns df)) midnight).
    apply mapM_Ret_all. intros c (r & -> & Hr)%list_elem_of_fmap.
    apply to_datetime_midnight.
    - by eapply Forall_forall in Hrows as (_ & _ & Hd & _).
    - by eapply Forall_forall in Hdates. }
  split; [done|].
  unfold datetime_column. rewrite series_Ret by done. cbn [mbind res_bind].
  by rewrite Hts.
Qed.

(** [enrich_kpi] returns on every revenue table with rows whose dates
    [pd.to_datetime] takes. *)
Lemma enrich_kpi_total `{Host} (df : frame) :
  revenue_table df →
  Forall (λ r, datable (cell_of "date" (columns df) r)) (rows df) →
  empty df = false → ∃ out, enrich_kpi df = Ret out.
Proof.
  intros Htable Hdatable Hne. pose proof (revenue_table_wf df Htable) as Hwf.
  destruct (datetime_column_stamped df Htable Hdatable) as [_ Hstep1].
  destruct Htable as [Hcounts Hrows].
  apply Forall_cons_1 in Hcounts as [Hticker Hcounts].
  apply Forall_cons_1 in Hcounts as [Hdate Hcounts].
  apply Forall_cons_1 in Hcounts as [Hrevenue _].
  set (conv := λ r, midnight (cell_of "date" (columns df) r)).
  assert (Forall is_time (map conv (rows df))) as Htimes.
  { apply Forall_forall. intros c (r & -> & Hr)%list_elem_of_fmap.
    eapply Forall_forall in Hrows as (_ & _ & Hd & _); [|done].
    unfold conv. destruct Hd as [->|[[d ->]|[t ->]]]; unfold is_time; simpl; eauto. }
  assert (length (map conv (rows df)) = length (rows df)) as Hlen_ts
    by by rewrite length_map.
  pose proof (setitem_wf "date" (map conv (rows df)) df Hwf) as Hwf1.
  pose proof (setitem_cells_eq "date" (map conv (rows df)) df Hwf Hlen_ts) as Hdates.
  assert (columns (setitem "date" (map conv (rows df)) df) = columns df) as Hcols1.
  { apply setitem_columns_in. by apply count_label_one_in. }
  pose proof (setitem_cells_ne "date" "ticker" (map conv (rows df)) df) as Htickers.
  pose proof (setitem_cells_ne "date" "revenue" (map conv (rows df)) df) as Hrevenues.
  specialize (Htickers ltac:(done) Hwf Hlen_ts).
  specialize (Hrevenues ltac:(done) Hwf Hlen_ts).
  unfold stamped in Hstep1. fold conv in Hstep1.
  set (d1 := setitem "date" (map conv (rows df)) df) in *.
  set (d := DataFrame (columns d1)
              (stable_sort (row_le ["ticker"; "date"] (columns d1)) (rows d1))).
  assert (sort_values ["ticker"; "date"] d1 = Ret d) as Hstep2.
  { apply sort_values_Ret. repeat apply Forall_cons_2; [| |constructor].
    - split; [congruence|]. rewrite Htickers. apply (homogeneous_of_kind 0).
      apply Forall_forall. intros c (r & -> & Hr)%list_elem_of_fmap.
      eapply Forall_forall in Hrows as (_ & [s ->] & _); [|done]. by right.
    - split; [congruence|]. rewrite Hdates. apply (homogeneous_of_kind 3).
      eapply Forall_impl; [done|]. apply is_time_kind. }
  assert (wf_frame d) as Hwfd.
  { unfold wf_frame, d. simpl. by rewrite stable_sort_perm. }
  assert (∃ xs, map (cell_of "revenue" (columns d)) (rows d) = Num <$> xs) as [xs Hxs].
  { apply all_Num. unfold d. simpl. rewrite stable_sort_perm, Hrevenues.
    apply Forall_forall. intros c (r & -> & Hr)%list_elem_of_fmap.
    by eapply Forall_forall in Hrows as (_ & _ & _ & ?). }
  assert (count_label "ticker" (columns d) = 1%nat) as Hticker_d by (simpl; congruence).
  assert (count_label "revenue" (columns d) = 1%nat) as Hrevenue_d by (simpl; congruence).
  exists (with_rates d xs). unfold enrich_kpi. rewrite Hne, Hstep1. simpl.
  rewrite Hstep2. simpl.
  rewrite (groupby_pct_change_Ret _ _ _ _ xs) by done. simpl.
  assert (length (Num <$> groupby_transform (pct_change 1)
                    (map (cell_of "ticker" (columns d)) (rows d)) xs) = length (rows d))
    as Hlen_mom by by eapply rates_length.
  rewrite (groupby_pct_change_Ret _ _ _ _ xs).
  - simpl. by rewrite setitem_cells_ne.
  - by rewrite setitem_count_ne.
  - by rewrite setitem_count_ne.
  - by rewrite setitem_cells_ne.
Qed.

Lemma with_rates_columns `{Host} (d : frame) (xs : list float) :
  wf_frame d →
  let keys := map (cell_of "ticker" (columns d)) (rows d) in
  map (cell_of "revenue_mom" (columns (with_rates d xs))) (rows (with_rates d xs))
  = Num <$> groupby_transform (pct_change 1) keys xs
  ∧ map (cell_of "revenue_yoy" (columns (with_rates d xs))) (rows (with_rates d xs))
    = Num <$> groupby_transform (pct_change 12) keys xs.
Proof.
  intros Hwf keys. unfold with_rates. fold keys.
  assert (length (Num <$> groupby_transform (pct_change 1) keys xs) = length (rows d))
    as Hlen_mom by by eapply rates_length.
  assert (length (Num <$> groupby_transform (pct_change 12) keys xs) = length (rows d))
    as Hlen_yoy by by eapply rates_length.
  split.
  - rewrite setitem_cells_ne; [|done|by apply setitem_wf|by rewrite setitem_length].
    by apply setitem_cells_eq.
  - apply setitem_cells_eq; [by apply setitem_wf|by rewrite setitem_length].
Qed.

(** The rows of one ticker in the enriched table carry the growth rates of
    that ticker's own revenue sequence. *)
Lemma with_rates_group `{Host} (d : frame) (xs : list float) (k : cell) :
  sorted_base d xs → isna k = false →
  let out := with_rates d xs in
  let revs := group_of k (map (cell_of "ticker" (columns d)) (rows d)) xs in
  map (cell_of "revenue" (columns out)) (ticker_rows k out) = Num <$> revs
  ∧ map (cell_of "revenue_mom" (columns out)) (ticker_rows k out)
    = Num <$> pct_change 1 revs
  ∧ map (cell_of "revenue_yoy" (columns out)) (ticker_rows k out)
    = Num <$> pct_change 12 revs.
Proof.
  intros (Hwf & _ & _ & _ & _ & Hxs & _) Hk out revs.
  destruct (with_rates_base d xs "ticker" Hwf) as [_ Htickers]; [done..|].
  destruct (with_rates_base d xs "revenue" Hwf) as [_ Hrevenues]; [done..|].
  destruct (with_rates_columns d xs Hwf) as [Hmom Hyoy]. fold out in Htickers, Hrevenues, Hmom, Hyoy.
  assert (length (map (cell_of "ticker" (columns d)) (rows d)) = length xs) as Hlen.
  { rewrite length_map. apply (f_equal length) in Hxs.
    by rewrite length_map, length_fmap in Hxs. }
  unfold ticker_rows.
  rewrite !(filter_rows_zip (cell_of "ticker" (columns out))).
  change (cell_of "ticker" (columns out) <$> rows out)
    with (map (cell_of "ticker" (columns out)) (rows out)).
  change (cell_of "revenue" (columns out) <$> rows out)
    with (map (cell_of "revenue" (columns out)) (rows out)).
  change (cell_of "revenue_mom" (columns out) <$> rows out)
    with (map (cell_of "revenue_mom" (columns out)) (rows out)).
  change (cell_of "revenue_yoy" (columns out) <$> rows out)
    with (map (cell_of "revenue_yoy" (columns out)) (rows out)).
  rewrite Htickers, Hrevenues, Hmom, Hyoy, Hxs, !group_of_fmap_Num.
  split; [done|].
  split; (f_equal; apply groupby_transform_group; [done|done|apply pct_change_length]).
Qed.

Lemma with_rates_sorted `{Host} (d : frame) (xs : list float) :
  sorted_base d xs →
  Sorted (λ r1 r2, row_le ["ticker"; "date"] (columns (with_rates d xs)) r1 r2 = true)
    (rows (with_rates d xs)).
Proof.
  intros (Hwf & _ & _ & _ & _ & _ & Hsorted).
  destruct (with_rates_base d xs "ticker" Hwf) as [_ Htickers]; [done..|].
  destruct (with_rates_base d xs "date" Hwf) as [_ Hdates]; [done..|].
  apply (Sorted_by_key (sort_key ["ticker"; "date"] (columns (with_rates d xs)))).
  apply (Sorted_by_key (sort_key ["ticker"; "date"] (columns d))) in Hsorted.
  unfold sort_key in *. simpl in *.
  by rewrite (fmap_pair_eq _ _ _ _ _ _ Htickers Hdates).
Qed.

(** C3, as the code has it. On every revenue table with rows whose dates
    are within the bounds of timestamps, the enricher returns the input
    table, its dates as timestamps and its rows in (ticker, date) order
    (rows with equal keys in the order of the input), with the two rate
    columns written last or in place: under every other label the rows of
    the result are those of [chronological df], one by one. In it, row
    [j] of each ticker's own sequence holds [(s[j] / s[j-1]) - 1] as
    [revenue_mom] and [(s[j] / s[j-12]) - 1] as [revenue_yoy], computed in
    float64 on the ticker's revenues [s] as [pct_change] fills them
    (unchanged where it does not fill). Both are null in the first 1 and
    the first 12 rows of the sequence and wherever the denominator is
    null. No step raises on a zero denominator; the quotient is then that
    of float64, which is not null unless the numerator is zero or null
    too. *)
Theorem C3_growth_rates `{Host} (df : frame) :
  revenue_table df →
  Forall (λ r, datable (cell_of "date" (columns df) r)) (rows df) →
  empty df = false →
  ∃ out, enrich_kpi df = Ret out
    ∧ columns out = set_cols "revenue_yoy" (set_cols "revenue_mom" (columns df))
    ∧ (∀ cs, "revenue_mom" ∉ cs → "revenue_yoy" ∉ cs →
         map (sort_key cs (columns out)) (rows out)
         = map (sort_key cs (columns (chronological df))) (rows (chronological df)))
    ∧ rows (chronological df) ≡ₚ rows (stamped df)
    ∧ Sorted (λ r1 r2, row_le ["ticker"; "date"] (columns out) r1 r2 = true) (rows out)
    ∧ ∀ k, isna k = false →
        ∃ revs, map (cell_of "revenue" (columns out)) (ticker_rows k out) = Num <$> revs
          ∧ (pct_fill = NoFill → fill pct_fill revs = revs)
          ∧ ∀ j r, ticker_rows k out !! j = Some r →
              cell_of "revenue_mom" (columns out) r
              = Num (spec_pct 1 (fill pct_fill revs) j)
              ∧ cell_of "revenue_yoy" (columns out) r
                = Num (spec_pct 12 (fill pct_fill revs) j)
              ∧ (∀ p, (j < p)%nat → spec_pct p (fill pct_fill revs) j = nan)
              ∧ (∀ p, (p ≤ j)%nat → fill pct_fill revs !! (j - p)%nat = Some nan →
                      spec_pct p (fill pct_fill revs) j = nan).
Proof.
  intros Htable Hdatable Hne. pose proof (revenue_table_wf df Htable) as Hwf.
  destruct (enrich_kpi_total df Htable Hdatable Hne) as [out Hrun].
  exists out. split; [done|].
  destruct (enrich_kpi_steps df out Hwf Hne Hrun) as (ts & xs & Hts & Hdate & Hbase & ->).
  destruct (datetime_column_stamped df Htable Hdatable) as [Hts' _].
  rewrite Hts' in Hts. injection Hts as <-.
  change (setitem "date" _ df) with (stamped df) in *.
  change (DataFrame (columns (stamped df)) _) with (chronological df) in *.
  set (d := chronological df) in *.
  assert (wf_frame d) as Hwfd by apply Hbase.
  assert (columns d = columns df) as Hcols.
  { unfold d, chronological, stamped. cbn [columns].
    apply setitem_columns_in. by apply count_label_one_in. }
  set (keys := map (cell_of "ticker" (columns d)) (rows d)).
  set (mom := Num <$> groupby_transform (pct_change 1) keys xs).
  assert (length mom = length (rows d)) as Hlen_mom by by eapply rates_length.
  set (yoy := Num <$> groupby_transform (pct_change 12) keys xs).
  assert (length yoy = length (rows (setitem "revenue_mom" mom d))) as Hlen_yoy.
  { rewrite setitem_length by done. by eapply rates_length. }
  split; [|split; [|split; [|split]]].
  - unfold with_rates. cbv zeta. rewrite !setitem_rows. cbn [columns]. by rewrite Hcols.
  - intros cs Hmom Hyoy. unfold with_rates. cbv zeta. fold keys. fold mom. fold yoy.
    rewrite setitem_keys_ne by (done || by apply setitem_wf).
    by rewrite setitem_keys_ne.
  - unfold d, chronological. cbn [rows]. apply stable_sort_perm.
  - by apply with_rates_sorted.
  - intros k Hk.
    destruct (with_rates_group d xs k Hbase Hk) as (Hrev & Hmom & Hyoy).
    set (revs := group_of k (map (cell_of "ticker" (columns d)) (rows d)) xs) in *.
    exists revs. split; [done|]. split; [by intros ->|].
    intros j r Hr.
    assert (j < length revs)%nat as Hj.
    { apply lookup_lt_Some in Hr. apply (f_equal length) in Hrev.
      rewrite length_map, length_fmap in Hrev. lia. }
    split; [|split; [|split]].
    + apply (f_equal (λ l, l !! j)) in Hmom.
      change (map ?f ?l) with (f <$> l) in Hmom.
      rewrite !list_lookup_fmap, Hr, pct_change_lookup in Hmom by done.
      by injection Hmom.
    + apply (f_equal (λ l, l !! j)) in Hyoy.
      change (map ?f ?l) with (f <$> l) in Hyoy.
      rewrite !list_lookup_fmap, Hr, pct_change_lookup in Hyoy by done.
      by injection Hyoy.
    + intros p. apply spec_pct_first.
    + intros p. apply spec_pct_null_denominator.
Qed.

Lemma demo_revenue_table : revenue_table demo_revenue.
Proof.
  split; [by repeat constructor|].
  repeat apply Forall_cons_2; [..|constructor];
    (split; [done|]; split; [by eexists|]; split; [right; left; by eexists|by eexists]).
Qed.

Lemma C3_growth_rates_witness :
  ∃ out, @enrich_kpi (demo_host (Ret demo_registry) None silent NoFill) demo_revenue
         = Ret out
    ∧ map (sort_key ["ticker"; "date"; "revenue"] (columns out)) (rows out)
      = [[Str "A"; Stamp (19358 * day_ns); Num 100];
         [Str "A"; Stamp (19389 * day_ns); Num 110];
         [Str "A"; Stamp (19417 * day_ns); Num 121];
         [Str "B"; Stamp (19358 * day_ns); Num 0];
         [Str "B"; Stamp (19389 * day_ns); Num 5]]
    ∧ ∃ revs, map (cell_of "revenue" (columns out)) (ticker_rows (Str "A") out)
              = Num <$> revs
        ∧ ∀ j r, ticker_rows (Str "A") out !! j = Some r →
            cell_of "revenue_mom" (columns out) r = Num (spec_pct 1 revs j).
Proof.
  destruct (@C3_growth_rates (demo_host (Ret demo_registry) None silent NoFill)
              demo_revenue demo_revenue_table) as (out & Hrun & _ & Hrows & _ & _ & Hrates).
  - by repeat constructor.
  - reflexivity.
  - exists out. split; [done|]. split.
    + rewrite Hrows.
      * vm_compute. reflexivity.
      * apply (bool_decide_eq_true_1 _). reflexivity.
      * apply (bool_decide_eq_true_1 _). reflexivity.
    + destruct (Hrates (Str "A") eq_refl) as (revs & Hrevs & Hfill & Hrows').
      exists revs. split; [done|]. intros j r Hr.
      destruct (Hrows' j r Hr) as (Hmom & _). by rewrite Hfill in Hmom.
Defined.

(** C3, refuted as stated: ticker B earns 0 in January and 5 in February.
    The February row divides by zero and its [revenue_mom] is +infinity,
    which is not null, under either fill policy. *)
Lemma C3_counterexample :
  @enrich_kpi (demo_host (Ret demo_registry) None silent Ffill) demo_revenue
  = Ret demo_enriched
  ∧ @enrich_kpi (demo_host (Ret demo_registry) None silent NoFill) demo_revenue
    = Ret demo_enriched
  ∧ ∃ january february,
      ticker_rows (Str "B") demo_enriched = [january; february]
      ∧ cell_of "revenue" (columns demo_enriched) january = Num 0
      ∧ cell_of "revenue_mom" (columns demo_enriched) february = Num infinity
      ∧ isna (Num infinity) = false.
Proof.
  split; [vm_compute; reflexivity|]. split; [vm_compute; reflexivity|].
  eexists _, _. split; [vm_compute; reflexivity|]. by vm_compute.
Qed.

(** A calendar date beyond the bounds of timestamps ends the enricher on
    line 117. *)
Lemma enrich_kpi_out_of_bounds :
  @enrich_kpi (demo_host (Ret demo_registry) None silent NoFill) late_revenue
  = Ret (DataFrame ["ticker"; "name"; "date"; "revenue"; "revenue_mom"; "revenue_yoy"]
           [[Str "A"; Str "Alpha"; Stamp (106751 * day_ns); Num 100; NaN; NaN]])
  ∧ @enrich_kpi (demo_host (Ret demo_registry) None silent NoFill) too_late_revenue
    = Raise ValueError.
Proof. split; vm_compute; reflexivity. Qed.

(** With the forward fill of pandas 1.x and 2.x a null revenue is replaced
    by the one before it, so the row after a null is compared with the
    last known revenue and is not null; without the fill it is. *)
Lemma enrich_kpi_forward_fill :
  @enrich_kpi (demo_host (Ret demo_registry) None silent Ffill) gapped_revenue
  = Ret (DataFrame ["ticker"; "name"; "date"; "revenue"; "revenue_mom"; "revenue_yoy"]
           [[Str "A"; Str "Alpha"; Stamp (19358 * day_ns); Num 100; NaN; NaN];
            [Str "A"; Str "Alpha"; Stamp (19389 * day_ns); NaN; Num 0; NaN];
            [Str "A"; Str "Alpha"; Stamp (19417 * day_ns); Num 110; Num (110 / 100 - 1); NaN]])
  ∧ @enrich_kpi (demo_host (Ret demo_registry) None silent NoFill) gapped_revenue
    = Ret (DataFrame ["ticker"; "name"; "date"; "revenue"; "revenue_mom"; "revenue_yoy"]
             [[Str "A"; Str "Alpha"; Stamp (19358 * day_ns); Num 100; NaN; NaN];
              [Str "A"; Str "Alpha"; Stamp (19389 * day_ns); NaN; NaN; NaN];
              [Str "A"; Str "Alpha"; Stamp (19417 * day_ns); Num 110; NaN; NaN]]).
Proof. split; vm_compute; reflexivity. Qed.

(** * The batch refresh *)

Lemma astype_str_column_length `{Host} (c : string) (df df' : frame) :
  astype_str_column c df = Ret df' → length (rows df') = length (rows df).
Proof.
  unfold astype_str_column. case_decide; [|done]. intros [= <-]. simpl.
  by rewrite length_map.
Qed.

Lemma names_from_registry_length (name_map : list (cell * string)) (df df' : frame) :
  names_from_registry name_map df = Ret df' → length (rows df') = length (rows df).
Proof.
  unfold names_from_registry. intros Hrun.
  apply bind_Ret_inv in Hrun as (tickers & Htickers & Hrun). injection Hrun as <-.
  apply series_Ret_inv in Htickers as [_ ->].
  apply setitem_length. by rewrite length_fmap, length_map.
Qed.

Lemma select_length (labels : list string) (df df' : frame) :
  select labels df = Ret df' → length (rows df') = length (rows df).
Proof.
  unfold select. destruct (list_find _ labels) as [[? ?]|]; [done|].
  intros [= <-]. simpl. by rewrite length_map.
Qed.

Lemma date_column_length `{Host} (df df' : frame) :
  date_column df = Ret df' → length (rows df') = length (rows df).
Proof.
  unfold date_column. intros Hrun.
  apply bind_Ret_inv in Hrun as (col & Hcol & Hrun).
  apply bind_Ret_inv in Hrun as (ts & Hts & Hrun). injection Hrun as <-.
  apply series_Ret_inv in Hcol as [_ ->]. apply mapM_Ret_length in Hts.
  apply setitem_length. by rewrite length_map, Hts, length_map.
Qed.

Lemma sort_values_length (by_ : list string) (df df' : frame) :
  sort_values by_ df = Ret df' → length (rows df') = length (rows df).
Proof. intros [-> _]%sort_values_Ret_inv. simpl. apply stable_sort_length. Qed.




Lemma elem_of_unique {A} `{EqDecision A} (x : A) (l : list A) : x ∈ unique l ↔ x ∈ l.
Proof.
  induction l as [|y l IH]; simpl; [done|].
  rewrite !elem_of_cons, list_elem_of_filter, IH. split.
  - intros [->|[Hne Hin]]; [by left|by right].
  - intros [->|Hin]; [by left|].
    destruct (decide (x = y)) as [->|Hne]; [by left|right; by split].
Qed.

Lemma dict_set_keys {V} (k k' : cell) (v : V) (d : list (cell * V)) :
  k ∈ (dict_set k' v d).*1 ↔ k = k' ∨ k ∈ d.*1.
Proof.
  induction d as [|[k0 v0] d IH]; simpl.
  - rewrite list_elem_of_singleton. split; [by left|]. by intros [?|?%elem_of_nil].
  - destruct (decide (k0 = k')) as [->|Hne]; simpl; rewrite !elem_of_cons; [tauto|].
    rewrite IH. tauto.
Qed.

Lemma dict_set_NoDup {V} (k : cell) (v : V) (d : list (cell * V)) :
  NoDup d.*1 → NoDup (dict_set k v d).*1.
Proof.
  induction d as [|[k0 v0] d IH]; simpl.
  - intros _. apply NoDup_singleton.
  - intros [Hk0 Hd]%NoDup_cons. destruct (decide (k0 = k)) as [->|Hne]; simpl.
    + by apply NoDup_cons.
    + apply NoDup_cons. split; [|by apply IH].
      rewrite dict_set_keys. by intros [?|?].
Qed.

Lemma dict_set_Forall {V} (P : cell * V → Prop) (k : cell) (v : V) (d : list (cell * V)) :
  P (k, v) → Forall P d → Forall P (dict_set k v d).
Proof.
  intros Hkv. induction 1 as [|[k0 v0] d Hp Hd IH]; simpl; [constructor; [done|constructor]|].
  destruct (decide (k0 = k)); by constructor.
Qed.


Lemma mapM_Raise_inv {A B} (f : A → res B) (l : list A) (e : exn) :
  mapM f l = Raise e → ∃ x, x ∈ l ∧ f x = Raise e.
Proof.
  induction l as [|x l IH]; simpl; [done|]. intros Hrun.
  destruct (f x) as [e'|y] eqn:Hx; simpl in Hrun.
  - injection Hrun as ->. exists x. split; [left|done].
  - destruct (mapM f l) as [e'|k]; [|done]. injection Hrun as ->.
    destruct IH as (z & Hz & Hfz); [done|]. exists z. split; [by right|done].
Qed.

Lemma Ret_inj {A} (a b : A) : Ret a = Ret b → a = b.
Proof. by intros [= ->]. Qed.

(** What [sorted] returns holds the values it was given. *)
Lemma py_sorted_perm `{Host} (l k : list cell) : py_sorted l = Ret k → k ≡ₚ l.
Proof.
  unfold py_sorted. destruct l as [|c [|c' l]]; [by intros [= <-]..|].
  set (l0 := c :: c' :: l). destruct (forallb _ l0); [|done].
  destruct (existsb isna l0); intros <-%Ret_inj; apply stable_sort_perm.
Qed.

(** It returns only on values of one type. *)
Lemma py_sorted_type `{Host} (l k : list cell) (a b : cell) :
  py_sorted l = Ret k → a ∈ l → b ∈ l → py_type a = py_type b.
Proof.
  unfold py_sorted. destruct l as [|c [|c' l]].
  - by intros _ ?%elem_of_nil.
  - by intros _ ->%list_elem_of_singleton ->%list_elem_of_singleton.
  - set (l0 := c :: c' :: l). destruct (forallb _ l0) eqn:Hall; [|done]. intros _ Ha Hb.
    rewrite forallb_forall in Hall.
    apply list_elem_of_In, Hall, Nat.eqb_eq in Ha.
    apply list_elem_of_In, Hall, Nat.eqb_eq in Hb. congruence.
Qed.

(** Without a null among them, the values are returned in ascending order. *)
Lemma py_sorted_Sorted `{Host} (l k : list cell) :
  py_sorted l = Ret k → Forall (λ c, isna c = false) l →
  Sorted (λ a b, cell_le a b = true) k.
Proof.
  unfold py_sorted. destruct l as [|c [|c' l]]; [intros [= <-] _; repeat constructor..|].
  set (l0 := c :: c' :: l). destruct (forallb _ l0); [|done].
  destruct (existsb isna l0) eqn:Hnull; intros <-%Ret_inj Hna;
    [|apply stable_sort_Sorted, cell_le_total].
  apply existsb_exists in Hnull as (x & Hx%list_elem_of_In & Hnull).
  eapply Forall_forall in Hna; [|done]. congruence.
Qed.



(** An exception raised inside [fetch_all] ends the script as well. *)
Lemma main_propagates `{Host} (e : exn) :
  fetch_all "groups.csv" 3 = Raise e → main = Raise e ∧ exit_status main = 1.
Proof. intros Hrun. unfold main. by rewrite Hrun. Qed.




(** Two sectors with the same first 31 characters are passed to the
    writer under one title. *)
Lemma main_same_title :
  ∃ book, @main (demo_host (Ret long_registry) None steady NoFill) = Ret book
          ∧ book.*1 = ["Semiconductor equipment makers "; "Semiconductor equipment makers "].
Proof. eexists. split; [vm_compute; reflexivity|]. reflexivity. Qed.

(** A title the writer refuses ends the script with the writer's exception. *)
Lemma main_refused_title :
  @main (demo_host (Ret slash_registry) None steady NoFill)
  = Raise (WriterFault "Invalid character found in sheet title").
Proof. vm_compute. reflexivity. Qed.

(** The title counts characters, not bytes: a name of thirteen ideographs
    is a title as it is, and of forty the first thirty-one are kept. *)
Lemma sheet_title_characters :
  sheet_title (Str "半導體設備與材料供應鏈廠商") = Ret "半導體設備與材料供應鏈廠商"
  ∧ sheet_title (Str "一二三四五六七八九十一二三四五六七八九十一二三四五六七八九十一二三四五六七八九十")
    = Ret "一二三四五六七八九十一二三四五六七八九十一二三四五六七八九十一".
Proof. split; vm_compute; reflexivity. Qed.

(** A registry row without a sector: the NaN cannot be compared with the
    names of the other sectors, and the batch refresh ends there. *)
Lemma fetch_all_nan_sector :
  @sorted_sectors (demo_host (Ret holed_registry) None steady NoFill) holed_registry
  = Raise TypeError
  ∧ @fetch_all (demo_host (Ret holed_registry) None steady NoFill) "groups.csv" 3
    = Raise TypeError.
Proof. split; vm_compute; reflexivity. Qed.

(** * Further results *)

(** The steps of the page are unfolded by name as well. *)
Arguments latest_rows : simpl never.

(** ** The list of sectors *)

Lemma unique_NoDup {A} `{EqDecision A} (l : list A) : NoDup (unique l).
Proof.
  induction l as [|x l IH]; simpl; [constructor|].
  apply NoDup_cons. split; [|by apply NoDup_filter].
  rewrite list_elem_of_filter. by intros [? _].
Qed.

(** X12. The list of sectors, of the side bar and of the batch refresh
    alike: when [sorted] returns it, it holds each sector of the registry
    once and nothing else, and its values have one Python type (a NaN among
    string sectors is a [TypeError]). When none of them is null it is in
    ascending order; around a NaN among numbers it is in no sorted order. *)
Theorem X12_sorted_sectors `{Host} (df : frame) (sectors : list cell) :
  sorted_sectors df = Ret sectors →
  NoDup sectors
  ∧ (∀ k, k ∈ sectors ↔ ∃ r, r ∈ rows df ∧ cell_of "sector" (columns df) r = k)
  ∧ (∀ a b, a ∈ sectors → b ∈ sectors → py_type a = py_type b)
  ∧ (Forall (λ k, isna k = false) sectors →
     Sorted (λ a b, cell_le a b = true) sectors).
Proof.
  unfold sorted_sectors. intros Hrun.
  apply bind_Ret_inv in Hrun as (col & Hcol & Hrun).
  apply series_Ret_inv in Hcol as [_ ->].
  pose proof (py_sorted_perm _ _ Hrun) as Hperm.
  split; [|split; [|split]].
  - rewrite Hperm. apply unique_NoDup.
  - intros k. rewrite Hperm, elem_of_unique.
    change (map ?f ?l) with (f <$> l). rewrite list_elem_of_fmap.
    split; intros (r & ? & ?); by exists r.
  - intros a b Ha Hb. apply (py_sorted_type _ _ a b Hrun); by rewrite <- Hperm.
  - intros Hna. apply (py_sorted_Sorted _ _ Hrun). by rewrite <- Hperm.
Qed.

Lemma X12_sorted_sectors_witness :
  @sorted_sectors (demo_host (Ret two_sector_registry) None silent NoFill)
    two_sector_registry
  = Ret [Str "chips"; Str "paper"]
  ∧ NoDup [Str "chips"; Str "paper"]
  ∧ Sorted (λ a b, cell_le a b = true) [Str "chips"; Str "paper"].
Proof.
  split; [vm_compute; reflexivity|].
  destruct (@X12_sorted_sectors (demo_host (Ret two_sector_registry) None silent NoFill)
              two_sector_registry [Str "chips"; Str "paper"])
    as (Hnd & _ & _ & Hsorted).
  - vm_compute. reflexivity.
  - split; [exact Hnd|]. apply Hsorted. by repeat constructor.
Defined.

(** X13. Every sector the side bar offers has a ticker: for a sector taken
    from the list of sectors of the registry, the resolver's lookup of its
    tickers returns a list that is not empty. *)
Theorem X13_offered_sector_has_tickers `{Host} (groups_df : frame) (sectors : list cell)
    (sector : cell) :
  count_label "ticker" (columns groups_df) = 1%nat →
  sorted_sectors groups_df = Ret sectors → sector ∈ sectors → isna sector = false →
  ∃ tickers, sector_tickers sector groups_df = Ret tickers ∧ tickers ≠ [].
Proof.
  intros Hticker Hrun Hin Hna. unfold sorted_sectors in Hrun.
  apply bind_Ret_inv in Hrun as (col & Hcol & Hrun).
  apply py_sorted_perm in Hrun.
  apply series_Ret_inv in Hcol as [Hsector ->].
  rewrite Hrun, elem_of_unique in Hin.
  change (map ?f ?l) with (f <$> l) in Hin.
  apply list_elem_of_fmap in Hin as (r & -> & Hr).
  unfold sector_tickers. rewrite query_Ret by done. cbn [mbind res_bind].
  rewrite series_Ret by done. cbn [mbind res_bind columns rows].
  eexists. split; [done|].
  set (kept := filter _ (rows groups_df)).
  assert (r ∈ kept) as Hkept.
  { apply list_elem_of_filter. split; [|done]. unfold py_eq. rewrite Hna. simpl.
    by apply bool_decide_eq_true. }
  destruct kept as [|r0 kept]; [by apply elem_of_nil in Hkept|]. done.
Qed.

Lemma X13_offered_sector_has_tickers_witness :
  ∃ tickers, sector_tickers (Str "paper") two_sector_registry = Ret tickers ∧ tickers ≠ [].
Proof.
  apply (@X13_offered_sector_has_tickers
           (demo_host (Ret two_sector_registry) None silent NoFill)
           two_sector_registry [Str "chips"; Str "paper"]).
  - reflexivity.
  - vm_compute. reflexivity.
  - right. left.
  - reflexivity.
Defined.

(** ** The registry dict *)

Lemma dict_get_cons {V} (k k0 : cell) (v0 : V) (d : list (cell * V)) :
  dict_get k ((k0, v0) :: d) = if decide (k0 = k) then Some v0 else dict_get k d.
Proof.
  unfold dict_get. simpl.
  destruct (decide (k0 = k)); [done|]. by destruct (list_find _ d) as [[? [? ?]]|].
Qed.

Lemma dict_get_set {V} (k k' : cell) (v : V) (d : list (cell * V)) :
  dict_get k (dict_set k' v d) = if decide (k' = k) then Some v else dict_get k d.
Proof.
  induction d as [|[k0 v0] d IH]; simpl.
  - rewrite dict_get_cons. by destruct (decide (k' = k)).
  - destruct (decide (k0 = k')) as [->|Hne]; rewrite !dict_get_cons.
    + by destruct (decide (k' = k)).
    + rewrite IH. destruct (decide (k0 = k)) as [->|]; [|done].
      by destruct (decide (k' = k)) as [->|].
Qed.

Lemma dict_get_foldl {V} (k : cell) (l : list (cell * V)) (d : list (cell * V)) :
  dict_get k (foldl (λ d p, dict_set p.1 p.2 d) d l)
  = match last (filter (λ p, p.1 = k) l) with
    | Some p => Some p.2
    | None => dict_get k d
    end.
Proof.
  revert d. induction l as [|[k0 v0] l IH]; intros d; simpl; [done|].
  rewrite IH, filter_cons. simpl. rewrite dict_get_set.
  destruct (decide (k0 = k)) as [->|Hne]; [|done].
  rewrite last_cons. by destruct (last (filter _ l)).
Qed.

Lemma last_filter_zip {A} (key : list cell → cell) (g : list cell → A) (k : cell)
    (l : list (list cell)) :
  last (filter (λ p, p.1 = k) (zip (key <$> l) (g <$> l)))
  = (λ r, (key r, g r)) <$> last (filter (λ r, key r = k) l).
Proof.
  assert (filter (λ p : cell * A, p.1 = k) (zip (key <$> l) (g <$> l))
          = (λ r, (key r, g r)) <$> filter (λ r, key r = k) l) as ->.
  { induction l as [|r l IH]; [done|]. rewrite !fmap_cons. cbn [zip zip_with].
    rewrite !filter_cons. cbn [fst]. destruct (decide (key r = k)); [|done].
    by rewrite fmap_cons, IH. }
  by rewrite fmap_last.
Qed.

(** X4. The ticker-to-name dict built from the registry has one entry per
    ticker; a ticker listed several times gets the name of its last row,
    and a ticker the registry does not list maps to NaN. *)
Theorem X4_name_map_last_wins `{Host} (groups_df : frame) (name_map : list (cell * string))
    (t : cell) :
  name_map_of groups_df = Ret name_map →
  NoDup name_map.*1
  ∧ map_dict name_map t
    = match last (ticker_rows t groups_df) with
      | Some r => Str (astype_str (cell_of "name" (columns groups_df) r))
      | None => NaN
      end.
Proof.
  unfold name_map_of. intros Hrun.
  apply bind_Ret_inv in Hrun as (tickers & Htickers & Hrun).
  apply bind_Ret_inv in Hrun as (names & Hnames & Hrun). injection Hrun as <-.
  apply series_Ret_inv in Htickers as [_ ->]. apply series_Ret_inv in Hnames as [_ ->].
  split.
  - unfold to_dict. generalize (zip (map (cell_of "ticker" (columns groups_df)) (rows groups_df))
       (astype_str <$> map (cell_of "name" (columns groups_df)) (rows groups_df))).
    intros l. assert (NoDup (@nil (cell * string)).*1) as Hnil by constructor.
    revert Hnil. generalize (@nil (cell * string)).
    induction l as [|p l IH]; intros d Hd; simpl; [done|]. by apply IH, dict_set_NoDup.
  - unfold map_dict, to_dict. rewrite dict_get_foldl.
    change (map ?f ?l) with (f <$> l). rewrite <- list_fmap_compose.
    rewrite last_filter_zip. unfold ticker_rows.
    by destruct (last (filter _ (rows groups_df))).
Qed.

Lemma X4_name_map_last_wins_witness :
  @name_map_of (demo_host (Ret renamed_registry) None silent NoFill) renamed_registry
  = Ret [(Str "A", "Alfa")]
  ∧ map_dict [(Str "A", "Alfa")] (Str "A") = Str "Alfa".
Proof.
  split; [vm_compute; reflexivity|].
  destruct (@X4_name_map_last_wins (demo_host (Ret renamed_registry) None silent NoFill)
              renamed_registry [(Str "A", "Alfa")] (Str "A")) as [_ Hlast].
  - vm_compute. reflexivity.
  - exact Hlast.
Defined.

(** ** What the live fetcher returns *)

Lemma live_table_length `{Host} (groups_df raw out : frame) :
  live_table groups_df raw = Ret out →
  length (rows out) = if empty raw then 0%nat else length (rows raw).
Proof.
  unfold live_table. destruct (empty raw); [by intros [= <-]|]. intros Hrun.
  apply bind_Ret_inv in Hrun as (out1 & Hout1 & Hrun).
  apply bind_Ret_inv in Hrun as (out2 & Hout2 & Hrun).
  apply bind_Ret_inv in Hrun as (name_map & _ & Hrun).
  apply bind_Ret_inv in Hrun as (no_names & _ & Hrun).
  apply bind_Ret_inv in Hrun as (out3 & Hout3 & Hrun). cbv zeta in Hrun.
  apply bind_Ret_inv in Hrun as (out4 & Hout4 & Hrun).
  apply sort_values_length in Hrun. apply select_length in Hout4.
  apply astype_str_column_length in Hout1. apply date_column_length in Hout2.
  assert (length (rows out3) = length (rows out2)) as Hlen3.
  { destruct no_names; [by eapply names_from_registry_length|by injection Hout3 as <-]. }
  assert (∀ need o, length (rows (add_missing need o)) = length (rows o)) as Hadd.
  { unfold add_missing. induction need as [|c need IH]; intros o; simpl; [done|].
    rewrite IH. case_bool_decide; [done|]. unfold setitem_scalar.
    apply setitem_length. by rewrite length_map. }
  rewrite Hadd in Hout4. simpl in Hout1. lia.
Qed.

(** X3. Whenever the live fetcher returns, the provider was asked once, for
    the ticker and the start date 2023-01-01; the table returned has the
    four columns of a revenue table, is in ascending order of date, and has
    one row per row of the answer (none for an empty answer). *)
Theorem X3_fetcher_returns_revenue_table `{Host} (groups_df : frame) (ticker : cell) (years : Z)
    (out : frame) :
  fetch_monthly_revenue_finmind groups_df ticker years = Ret out →
  ∃ raw, taiwan_stock_month_revenue login (astype_str ticker) "2023-01-01" = Ret raw
    ∧ canonical ⊆ columns out
    ∧ Sorted (λ r1 r2, row_le ["date"] (columns out) r1 r2 = true) (rows out)
    ∧ length (rows out) = if empty raw then 0%nat else length (rows raw).
Proof.
  unfold fetch_monthly_revenue_finmind. cbv zeta. intros Hrun.
  apply bind_Ret_inv in Hrun as (raw & Hraw & Hrun). exists raw.
  split; [done|]. pose proof (live_table_length _ _ _ Hrun) as Hlen.
  apply live_table_shape in Hrun as (Hcols & Hsorted & _). done.
Qed.

Lemma X3_fetcher_returns_revenue_table_witness :
  ∃ raw, steady "A" "2023-01-01" = Ret raw
    ∧ canonical ⊆ columns steady_A
    ∧ Sorted (λ r1 r2, row_le ["date"] (columns steady_A) r1 r2 = true) (rows steady_A)
    ∧ length (rows steady_A) = if empty raw then 0%nat else length (rows raw).
Proof.
  apply (@X3_fetcher_returns_revenue_table
           (demo_host (Ret demo_registry) (Some demo_book) steady NoFill)
           demo_registry (Str "A") 3 steady_A).
  vm_compute. reflexivity.
Defined.

(** ** The dates of the cache *)

Lemma read_sheets_stored `{Host} (P : string → frame → Prop) (xlsx_path : string)
    (names : list string) (acc sheets : gmap string frame) :
  (∀ sheet raw df, read_excel xlsx_path sheet = Ret raw → has_canonical raw = true →
                   date_column raw = Ret df → P sheet df) →
  read_sheets xlsx_path names acc = Ret sheets →
  (∀ sheet df, acc !! sheet = Some df → P sheet df) →
  ∀ sheet df, sheets !! sheet = Some df → P sheet df.
Proof.
  intros HP. revert acc. induction names as [|name names IH]; intros acc; simpl.
  - by intros [= <-].
  - intros Hrun Hacc. apply bind_Ret_inv in Hrun as (raw & Hraw & Hrun).
    destruct (has_canonical raw) eqn:Hcanon.
    + apply bind_Ret_inv in Hrun as (df & Hdf & Hrun).
      apply (IH _ Hrun). intros sheet df'.
      destruct (decide (sheet = name)) as [->|Hne].
      * rewrite lookup_insert_eq. intros [= <-]. by eapply HP.
      * rewrite lookup_insert_ne by done. apply Hacc.
    + by apply (IH _ Hrun).
Qed.

Lemma dt_date_is_day (t : cell) : is_time t → is_day (dt_date t).
Proof. intros [->|[t' ->]]; [by left|right; by eexists]. Qed.

(** X2. Every sheet the cache reader returns has the columns and the number
    of rows of the sheet of the workbook; if that sheet is rectangular, its
    dates are calendar dates or NaT (the time of day is dropped) and every
    other column is as it was read. *)
Theorem X2_cached_dates_are_days `{Host} (xlsx_path : string) (sheets : gmap string frame)
    (sheet : string) (df : frame) :
  load_excel_dashboard xlsx_path = Ret sheets → sheets !! sheet = Some df →
  ∃ raw, read_excel xlsx_path sheet = Ret raw
    ∧ columns df = columns raw
    ∧ length (rows df) = length (rows raw)
    ∧ (wf_frame raw →
       Forall is_day (map (cell_of "date" (columns df)) (rows df))
       ∧ ∀ c, c ≠ "date" →
              map (cell_of c (columns df)) (rows df) = map (cell_of c (columns raw)) (rows raw)).
Proof.
  unfold load_excel_dashboard. destruct (path_exists xlsx_path); simpl.
  2: { intros [= <-]. by rewrite lookup_empty. }
  intros Hrun Hlook. apply bind_Ret_inv in Hrun as (names & _ & Hrun).
  eapply (read_sheets_stored
            (λ sheet df, ∃ raw, read_excel xlsx_path sheet = Ret raw
               ∧ columns df = columns raw
               ∧ length (rows df) = length (rows raw)
               ∧ (wf_frame raw →
                  Forall is_day (map (cell_of "date" (columns df)) (rows df))
                  ∧ ∀ c, c ≠ "date" →
                         map (cell_of c (columns df)) (rows df)
                         = map (cell_of c (columns raw)) (rows raw))));
    [|exact Hrun| |exact Hlook].
  2: { intros s d. by rewrite lookup_empty. }
  clear. intros sheet raw df Hraw _ Hdf. exists raw. split; [done|].
  split; [by eapply date_column_columns|]. split; [by eapply date_column_length|].
  intros Hwf. unfold date_column in Hdf.
  apply bind_Ret_inv in Hdf as (col & Hcol & Hdf).
  apply bind_Ret_inv in Hdf as (ts & Hts & Hdf). injection Hdf as <-.
  apply series_Ret_inv in Hcol as [_ ->].
  assert (length (map dt_date ts) = length (rows raw)) as Hlen.
  { apply mapM_Ret_length in Hts. by rewrite length_map, Hts, length_map. }
  split.
  - rewrite setitem_cells_eq by done. apply mapM_Ret_Forall2 in Hts. clear -Hts.
    induction Hts as [|c t l ts Hc _ IH]; simpl; constructor; [|done].
    by eapply dt_date_is_day, to_datetime_is_time.
  - intros c Hc. by apply setitem_cells_ne.
Qed.

Lemma X2_cached_dates_are_days_witness :
  Forall is_day (map (cell_of "date" (columns demo_sheet)) (rows demo_sheet)).
Proof.
  destruct (@X2_cached_dates_are_days
              (demo_host (Ret demo_registry) (Some demo_book) silent NoFill)
              DATA_XLSX {[ "chips" := demo_sheet ]} "chips" demo_sheet)
    as (raw & Hraw & _ & _ & Hdays).
  - vm_compute. reflexivity.
  - vm_compute. reflexivity.
  - destruct Hdays as [Hdates _]; [|exact Hdates].
    vm_compute in Hraw. injection Hraw as <-. by repeat constructor.
Defined.

(** ** The resolver and the cache *)

(** X6. When the workbook has a sheet named after the sector, the resolver
    reads no other sheet: two workbooks with the same sheet for the sector
    give the same result, whatever their other sheets (the fallback sheet
    included) hold. *)
Theorem X6_own_sheet_only `{Host} (groups_df : frame) (sector : string) (groups : frame)
    (sheets1 sheets2 : gmap string frame) (sheet : frame) :
  sheets1 !! sector = Some sheet → sheets2 !! sector = Some sheet →
  get_sector_data groups_df sector groups sheets1
  = get_sector_data groups_df sector groups sheets2.
Proof.
  intros H1 H2. unfold get_sector_data.
  destruct (sector_tickers (Str sector) groups) as [e|tickers]; [done|].
  cbn [mbind res_bind]. unfold cached_frames. by rewrite H1, H2.
Qed.

Lemma X6_own_sheet_only_witness :
  @get_sector_data (demo_host (Ret demo_registry) (Some demo_book) steady NoFill)
    demo_registry "chips" demo_registry
    (<[SHEET_NAME_FALLBACK := doubled_sheet]> {[ "chips" := demo_sheet ]})
  = @get_sector_data (demo_host (Ret demo_registry) (Some demo_book) steady NoFill)
      demo_registry "chips" demo_registry {[ "chips" := demo_sheet ]}.
Proof.
  apply (@X6_own_sheet_only (demo_host (Ret demo_registry) (Some demo_book) steady NoFill)
           demo_registry "chips" demo_registry
           (<[SHEET_NAME_FALLBACK := doubled_sheet]> {[ "chips" := demo_sheet ]})
           {[ "chips" := demo_sheet ]} demo_sheet).
  - vm_compute. reflexivity.
  - vm_compute. reflexivity.
Defined.

Lemma mapM_ext_in {A B} (f g : A → res B) (l : list A) :
  (∀ x, x ∈ l → f x = g x) → mapM f l = mapM g l.
Proof.
  induction l as [|x l IH]; intros Hfg; simpl; [done|].
  rewrite Hfg by left. rewrite IH; [done|]. intros y Hy. apply Hfg. by right.
Qed.

(** X7. The provider is asked only about the tickers of the sector that
    have no cached row: replacing the provider by one that agrees with it
    on those tickers, and does anything at all on the others, leaves the
    result of the resolver unchanged. *)
Theorem X7_covered_tickers_not_fetched (H : Host)
    (provider : option string → string → string → res frame)
    (groups_df : frame) (sector : string) (groups : frame)
    (excel_sheets : gmap string frame) (tickers have : list cell) (frames : list frame) :
  sector_tickers (Str sector) groups = Ret tickers →
  cached_frames sector tickers excel_sheets = Ret frames →
  covered frames = Ret have →
  (∀ t, t ∈ tickers → t ∉ have →
        provider login (astype_str t) "2023-01-01"
        = taiwan_stock_month_revenue login (astype_str t) "2023-01-01") →
  @get_sector_data (with_provider H provider) groups_df sector groups excel_sheets
  = @get_sector_data H groups_df sector groups excel_sheets.
Proof.
  intros Htickers Hframes Hhave Hsame. unfold get_sector_data.
  rewrite Htickers. cbn [mbind res_bind]. rewrite Hframes. cbn [mbind res_bind].
  rewrite Hhave. cbn [mbind res_bind]. cbv zeta.
  rewrite (mapM_ext_in
             (λ t, @fetch_monthly_revenue_finmind (with_provider H provider) groups_df t 3)
             (λ t, @fetch_monthly_revenue_finmind H groups_df t 3)); [done|].
  intros t [Hout Hin]%list_elem_of_filter.
  unfold fetch_monthly_revenue_finmind. cbv zeta.
  change (isoformat (Date 2023 1 1)) with "2023-01-01".
  change (@taiwan_stock_month_revenue (with_provider H provider)) with provider.
  change (@login (with_provider H provider)) with (@login H).
  change (@astype_str (with_provider H provider)) with (@astype_str H).
  by rewrite Hsame.
Qed.

Lemma X7_covered_tickers_not_fetched_witness :
  @get_sector_data
    (with_provider (demo_host (Ret demo_registry) (Some demo_book) steady NoFill)
       steady_but_A)
    demo_registry "chips" demo_registry {[ "chips" := demo_sheet ]}
  = @get_sector_data (demo_host (Ret demo_registry) (Some demo_book) steady NoFill)
      demo_registry "chips" demo_registry {[ "chips" := demo_sheet ]}.
Proof.
  apply (X7_covered_tickers_not_fetched
           (demo_host (Ret demo_registry) (Some demo_book) steady NoFill) steady_but_A
           demo_registry "chips" demo_registry {[ "chips" := demo_sheet ]}
           [Str "A"; Str "B"] [Str "A"] [demo_sheet]).
  - vm_compute. reflexivity.
  - vm_compute. reflexivity.
  - vm_compute. reflexivity.
  - intros t [->|[->|?%elem_of_nil]%elem_of_cons]%elem_of_cons Hout; [|reflexivity|done].
    exfalso. apply Hout. left.
Defined.

Lemma cached_frames_inv (sector : string) (tickers : list cell)
    (excel_sheets : gmap string frame) (frames : list frame) :
  cached_frames sector tickers excel_sheets = Ret frames →
  frames = []
  ∨ ∃ sheet, frames = [DataFrame (columns sheet)
                         (filter (λ r, bool_decide (cell_of "ticker" (columns sheet) r ∈ tickers)
                                       = true) (rows sheet))].
Proof.
  unfold cached_frames, query. intros Hrun.
  destruct (excel_sheets !! sector) as [sheet|].
  - destruct (count_label "ticker" (columns sheet)) as [|[|n]]; [done| |done].
    injection Hrun as <-. right. by exists sheet.
  - destruct (excel_sheets !! SHEET_NAME_FALLBACK) as [sheet|].
    + destruct (count_label "ticker" (columns sheet)) as [|[|n]]; [done| |done].
      injection Hrun as <-. right. by exists sheet.
    + injection Hrun as <-. by left.
Qed.

(** X8. When every ticker of the sector has a cached row, the rows the
    resolver returns are rows of the sector's tickers only: the rows a
    sheet holds for other tickers are left out. *)
Theorem X8_cached_rows_of_the_sector `{Host} (groups_df : frame) (sector : string)
    (groups : frame) (excel_sheets : gmap string frame) (tickers have : list cell)
    (frames : list frame) (df : frame) :
  sector_tickers (Str sector) groups = Ret tickers →
  cached_frames sector tickers excel_sheets = Ret frames →
  covered frames = Ret have →
  (∀ t, t ∈ tickers → t ∈ have) →
  get_sector_data groups_df sector groups excel_sheets = Ret df →
  Forall (λ r, cell_of "ticker" (columns df) r ∈ tickers) (rows df).
Proof.
  intros Htickers Hframes Hhave Hall Hrun. unfold get_sector_data in Hrun.
  rewrite Htickers in Hrun. cbn [mbind res_bind] in Hrun.
  rewrite Hframes in Hrun. cbn [mbind res_bind] in Hrun.
  rewrite Hhave in Hrun. cbn [mbind res_bind] in Hrun. cbv zeta in Hrun.
  rewrite filter_none in Hrun by (intros t Ht Hout; by apply Hout, Hall).
  cbn [mapM mbind res_bind mret res_ret] in Hrun. rewrite app_nil_r in Hrun.
  apply cached_frames_inv in Hframes as [->|[sheet ->]].
  - rewrite bool_decide_eq_true_2 in Hrun by done. injection Hrun as <-. constructor.
  - rewrite bool_decide_eq_false_2 in Hrun by done.
    rewrite pd_concat_single in Hrun. cbn [mbind res_bind columns rows] in Hrun.
    apply bind_Ret_inv in Hrun as (d & Hd & Hrun).
    apply dropna_Ret_inv in Hd as [_ ->].
    apply sort_values_Ret_inv in Hrun as [-> _]. cbn [columns rows].
    rewrite stable_sort_perm. apply Forall_forall.
    intros r [_ [Hr _]%list_elem_of_filter]%list_elem_of_filter.
    by apply bool_decide_eq_true in Hr.
Qed.

Lemma X8_cached_rows_of_the_sector_witness :
  Forall (λ r, cell_of "ticker" canonical r ∈ [Str "A"; Str "B"])
    [[Str "A"; Str "Alpha"; Day 19358; Num 100]; [Str "B"; Str "Beta"; Day 19358; Num 7]].
Proof.
  apply (@X8_cached_rows_of_the_sector
           (demo_host (Ret demo_registry) (Some demo_book) steady NoFill)
           demo_registry "chips" demo_registry {[ "chips" := shared_sheet ]}
           [Str "A"; Str "B"] [Str "B"; Str "A"]
           [DataFrame canonical
              [[Str "B"; Str "Beta"; Day 19358; Num 7];
               [Str "A"; Str "Alpha"; Day 19358; Num 100]]]
           (DataFrame canonical
              [[Str "A"; Str "Alpha"; Day 19358; Num 100];
               [Str "B"; Str "Beta"; Day 19358; Num 7]])).
  - vm_compute. reflexivity.
  - vm_compute. reflexivity.
  - vm_compute. reflexivity.
  - intros t [->|[->|?%elem_of_nil]%elem_of_cons]%elem_of_cons; [right; left|left|done].
  - vm_compute. reflexivity.
Defined.

(** ** The rows of the enriched table *)

(** [enrich_kpi] neither drops nor invents a row: under labels other than
    the three it writes, the rows of the result are those of the input, up
    to order. *)
Lemma enrich_kpi_rows `{Host} (df out : frame) (cs : list string) :
  wf_frame df → empty df = false → enrich_kpi df = Ret out →
  "date" ∉ cs → "revenue_mom" ∉ cs → "revenue_yoy" ∉ cs →
  columns out = set_cols "revenue_yoy" (set_cols "revenue_mom" (columns df))
  ∧ map (sort_key cs (columns out)) (rows out) ≡ₚ map (sort_key cs (columns df)) (rows df).
Proof.
  intros Hwf Hne Hrun Hdate Hmom Hyoy. unfold enrich_kpi in Hrun. rewrite Hne in Hrun.
  apply bind_Ret_inv in Hrun as (d1 & Hd1 & Hrun).
  apply bind_Ret_inv in Hrun as (d2 & Hd2 & Hrun).
  apply bind_Ret_inv in Hrun as (mom & Hmom' & Hrun). cbv zeta in Hrun.
  apply bind_Ret_inv in Hrun as (yoy & Hyoy' & Hrun). injection Hrun as <-.
  unfold datetime_column in Hd1.
  apply bind_Ret_inv in Hd1 as (col & Hcol & Hd1).
  apply bind_Ret_inv in Hd1 as (ts & Hts & Hd1). injection Hd1 as <-.
  apply series_Ret_inv in Hcol as [Hone ->].
  assert (length ts = length (rows df)) as Hlen_ts.
  { apply mapM_Ret_length in Hts. by rewrite length_map in Hts. }
  pose proof (setitem_wf "date" ts df Hwf) as Hwf1.
  pose proof (setitem_keys_ne "date" cs ts df Hdate Hwf Hlen_ts) as Hkeys1.
  assert (columns (setitem "date" ts df) = columns df) as Hcols1.
  { apply setitem_columns_in. by apply count_label_one_in. }
  set (d1 := setitem "date" ts df) in *.
  apply sort_values_Ret_inv in Hd2 as [-> _].
  set (d := DataFrame (columns d1) (stable_sort (row_le ["ticker"; "date"] (columns d1)) (rows d1)))
    in *.
  assert (wf_frame d) as Hwfd.
  { unfold wf_frame, d. simpl. by rewrite stable_sort_perm. }
  apply groupby_pct_change_Ret_inv in Hmom' as (_ & _ & xs & _ & ->).
  apply groupby_pct_change_Ret_inv in Hyoy' as (_ & _ & xs' & _ & ->).
  set (mom := Num <$> groupby_transform (pct_change 1) _ xs).
  assert (length mom = length (rows d)) as Hlen_mom by by eapply rates_length.
  set (yoy := Num <$> groupby_transform (pct_change 12) _ xs').
  assert (length yoy = length (rows (setitem "revenue_mom" mom d))) as Hlen_yoy
    by by eapply rates_length.
  split.
  - rewrite !setitem_rows. cbn [columns]. by rewrite <- Hcols1.
  - rewrite setitem_keys_ne by (done || by apply setitem_wf).
    rewrite setitem_keys_ne by done.
    rewrite <- Hkeys1. unfold d. cbn [columns rows].
    change (map ?f ?l) with (f <$> l). by rewrite stable_sort_perm.
Qed.

(** X9. The KPI enricher neither drops nor invents a row: on a rectangular
    table with rows its result has the columns of the input followed by
    the two rate columns (written in place where the input has them), as
    many rows as the input, and, under any labels other than date and the
    two rates, the cells of the input's rows up to order. *)
Theorem X9_enrich_kpi_keeps_rows `{Host} (df out : frame) (cs : list string) :
  wf_frame df → empty df = false → enrich_kpi df = Ret out →
  "date" ∉ cs → "revenue_mom" ∉ cs → "revenue_yoy" ∉ cs →
  columns out = set_cols "revenue_yoy" (set_cols "revenue_mom" (columns df))
  ∧ length (rows out) = length (rows df)
  ∧ map (sort_key cs (columns out)) (rows out) ≡ₚ map (sort_key cs (columns df)) (rows df).
Proof.
  intros Hwf Hne Hrun Hdate Hmom Hyoy.
  destruct (enrich_kpi_rows df out cs) as [Hcols Hperm]; [done..|].
  split; [done|]. split; [|done].
  apply Permutation_length in Hperm. by rewrite !length_map in Hperm.
Qed.

Lemma X9_enrich_kpi_keeps_rows_witness :
  length (rows demo_enriched) = length (rows demo_revenue)
  ∧ map (sort_key ["ticker"; "revenue"] (columns demo_enriched)) (rows demo_enriched)
    ≡ₚ map (sort_key ["ticker"; "revenue"] (columns demo_revenue)) (rows demo_revenue).
Proof.
  destruct (@X9_enrich_kpi_keeps_rows (demo_host (Ret demo_registry) None silent NoFill)
              demo_revenue demo_enriched ["ticker"; "revenue"]) as (_ & Hlen & Hperm).
  - by repeat constructor.
  - reflexivity.
  - vm_compute. reflexivity.
  - apply (bool_decide_eq_true_1 _). reflexivity.
  - apply (bool_decide_eq_true_1 _). reflexivity.
  - apply (bool_decide_eq_true_1 _). reflexivity.
  - by split.
Defined.

Lemma filter_key_length {A} (f : A → cell) (k : cell) (l : list A) :
  length (filter (λ r, f r = k) l) = length (filter (λ x, x = k) (f <$> l)).
Proof.
  induction l as [|r l IH]; [done|]. rewrite fmap_cons, !filter_cons.
  destruct (decide (f r = k)); simpl; by rewrite IH.
Qed.

(** X11. A ticker with at most twelve rows in a revenue table has no
    year-over-year rate: the enricher keeps the number of its rows and
    gives each of them a null revenue_yoy. *)
Theorem X11_short_history_has_no_yoy `{Host} (df out : frame) (k : cell) :
  revenue_table df → empty df = false → enrich_kpi df = Ret out → isna k = false →
  (length (ticker_rows k df) ≤ 12)%nat →
  length (ticker_rows k out) = length (ticker_rows k df)
  ∧ Forall (λ r, cell_of "revenue_yoy" (columns out) r = NaN) (ticker_rows k out).
Proof.
  intros Htable Hne Hrun Hk Hshort. pose proof (revenue_table_wf df Htable) as Hwf.
  assert (length (ticker_rows k out) = length (ticker_rows k df)) as Hsame.
  { destruct (enrich_kpi_rows df out ["ticker"]) as [_ Hperm]; [done..| | | |].
    1-3: by intros [[=]|?%elem_of_nil]%elem_of_cons.
    unfold ticker_rows.
    rewrite (filter_key_length (cell_of "ticker" (columns out))),
      (filter_key_length (cell_of "ticker" (columns df))).
    apply Permutation_length, filter_Permutation.
    apply (fmap_Permutation (λ key, default NaN (head key))) in Hperm.
    change (map ?f ?l) with (f <$> l) in Hperm.
    by rewrite <- !list_fmap_compose in Hperm. }
  split; [done|].
  apply enrich_kpi_inv in Hrun as (d & xs & Hbase & -> & _); [|done..].
  destruct (with_rates_group d xs k Hbase Hk) as (Hrev & _ & Hyoy).
  set (revs := group_of k _ xs) in *.
  assert (length revs = length (ticker_rows k (with_rates d xs))) as Hlen.
  { apply (f_equal length) in Hrev. by rewrite length_map, length_fmap in Hrev. }
  apply Forall_forall. intros r Hr.
  apply list_elem_of_lookup_1 in Hr as [j Hj].
  assert (map (cell_of "revenue_yoy" (columns (with_rates d xs)))
            (ticker_rows k (with_rates d xs)) !! j
          = Some (cell_of "revenue_yoy" (columns (with_rates d xs)) r)) as Hcell.
  { change (map ?f ?l) with (f <$> l). by rewrite list_lookup_fmap, Hj. }
  rewrite Hyoy, list_lookup_fmap in Hcell.
  apply lookup_lt_Some in Hj.
  rewrite pct_change_lookup in Hcell by lia. injection Hcell as <-.
  rewrite spec_pct_first by lia. done.
Qed.

Lemma X11_short_history_has_no_yoy_witness :
  Forall (λ r, cell_of "revenue_yoy" (columns demo_enriched) r = NaN)
    (ticker_rows (Str "A") demo_enriched).
Proof.
  destruct (@X11_short_history_has_no_yoy (demo_host (Ret demo_registry) None silent NoFill)
              demo_revenue demo_enriched (Str "A")) as [_ Hnull].
  - exact demo_revenue_table.
  - reflexivity.
  - vm_compute. reflexivity.
  - reflexivity.
  - vm_compute. lia.
  - exact Hnull.
Defined.

(** ** Names from the registry *)

Lemma map_label_length (c : string) (f : cell → cell) (cols : list string) (r : list cell) :
  length (map_label c f cols r) = length r.
Proof.
  revert r. induction cols as [|l cols IH]; intros [|x r]; simpl; [done..|]. by rewrite IH.
Qed.

Lemma at_label_map_label_ne (c c' : string) (f : cell → cell) (cols : list string)
    (r : list cell) :
  c' ≠ c → at_label c' cols (map_label c f cols r) = at_label c' cols r.
Proof.
  intros Hne. revert r. induction cols as [|l cols IH]; intros [|x r]; simpl; [done..|].
  destruct (decide (l = c')) as [->|]; [|done]. rewrite decide_False by done. by rewrite IH.
Qed.

Lemma at_label_filter (c c0 : string) (cols : list string) (r : list cell) :
  at_label c (filter (λ l, l = c0) cols) (at_label c0 cols r)
  = if decide (c = c0) then at_label c0 cols r else [].
Proof.
  revert r. induction cols as [|l cols IH]; intros [|x r]; simpl.
  - by destruct (decide (c = c0)).
  - by destruct (decide (c = c0)).
  - by destruct (filter _ (l :: cols)), (decide (c = c0)).
  - rewrite filter_cons. destruct (decide (l = c0)) as [->|Hne]; simpl.
    + rewrite IH. destruct (decide (c0 = c)) as [->|Hne].
      * by destruct (decide (c = c)).
      * by destruct (decide (c = c0)) as [->|].
    + apply IH.
Qed.

(** The cells of a row of [df[labels]] under one of the labels. *)
Lemma select_at_label (c : string) (labels cols : list string) (r : list cell) :
  length r = length cols → NoDup labels →
  at_label c (labels ≫= λ c', filter (λ l, l = c') cols) (labels ≫= λ c', at_label c' cols r)
  = if decide (c ∈ labels) then at_label c cols r else [].
Proof.
  intros Hlen. induction labels as [|c0 labels IH]; [done|].
  intros [Hc0 Hnd]%NoDup_cons. rewrite !bind_cons.
  rewrite at_label_app by by apply at_label_length.
  rewrite at_label_filter, (IH Hnd).
  destruct (decide (c = c0)) as [->|Hne].
  - destruct (decide (c0 ∈ labels)); [done|].
    destruct (decide (c0 ∈ c0 :: labels)) as [|Hout]; [by rewrite app_nil_r|].
    exfalso. apply Hout. left.
  - destruct (decide (c ∈ labels)), (decide (c ∈ c0 :: labels)) as [Hin|Hout]; try done.
    + exfalso. apply Hout. by right.
    + by apply elem_of_cons in Hin as [?|?].
Qed.

Lemma select_keys (labels cs : list string) (df df' : frame) :
  wf_frame df → NoDup labels → cs ⊆ labels → select labels df = Ret df' →
  map (sort_key cs (columns df')) (rows df') = map (sort_key cs (columns df)) (rows df).
Proof.
  intros Hwf Hnd Hsub [_ ->]%select_Ret_inv. cbn [columns rows].
  rewrite map_map. apply map_ext_in. intros r Hr%list_elem_of_In.
  unfold sort_key. apply map_ext_in. intros c Hc%list_elem_of_In.
  unfold cell_of. rewrite select_at_label; [|by apply (proj1 (Forall_forall _ _) Hwf)|done].
  rewrite decide_True; [done|]. by apply Hsub.
Qed.

Lemma add_missing_keys (need cs : list string) (o : frame) :
  wf_frame o → cs ⊆ columns o →
  wf_frame (add_missing need o)
  ∧ columns o ⊆ columns (add_missing need o)
  ∧ need ⊆ columns (add_missing need o)
  ∧ map (sort_key cs (columns (add_missing need o))) (rows (add_missing need o))
    = map (sort_key cs (columns o)) (rows o).
Proof.
  unfold add_missing. revert o. induction need as [|c need IH]; intros o Hwf Hcs; simpl.
  - split; [done|]. split; [done|]. split; [|done]. by intros c ?%elem_of_nil.
  - case_bool_decide as Hin.
    + destruct (IH o Hwf Hcs) as (Hwf' & Hsub & Hneed & Hkeys).
      split; [done|]. split; [done|]. split; [|done].
      intros c' [->|Hc']%elem_of_cons; [by apply Hsub|by apply Hneed].
    + assert (columns o ⊆ columns (setitem_scalar c NaN o)) as Hgrow.
      { unfold setitem_scalar. rewrite setitem_rows. cbn [columns]. unfold set_cols.
        rewrite decide_False by done. intros c' Hc'. apply elem_of_app. by left. }
      destruct (IH (setitem_scalar c NaN o)) as (Hwf' & Hsub & Hneed & Hkeys).
      { by apply setitem_wf. }
      { by etrans. }
      split; [done|]. split; [by etrans|]. split.
      * intros c' [->|Hc']%elem_of_cons; [|by apply Hneed].
        apply Hsub. unfold setitem_scalar. apply setitem_column_in.
      * rewrite Hkeys. unfold setitem_scalar. apply setitem_keys_ne; [|done|].
        -- intros Hc. by apply Hcs in Hc.
        -- by rewrite length_map.
Qed.

Lemma map_eq_Forall {A B} (f g : A → B) (l : list A) :
  map f l = map g l → Forall (λ x, f x = g x) l.
Proof.
  induction l as [|x l IH]; simpl; [constructor|]. intros [= Hx Hl]. constructor; [done|].
  by apply IH.
Qed.

Lemma named_by_keys (name_map : list (cell * string)) (cols cols' : list string)
    (l l' : list (list cell)) :
  map (sort_key ["ticker"; "name"] cols') l' = map (sort_key ["ticker"; "name"] cols) l →
  Forall (named_by name_map cols) l → Forall (named_by name_map cols') l'.
Proof.
  revert l'. induction l as [|r l IH]; intros [|r' l']; simpl; try done.
  intros [= Hticker Hname Hrest] [Hr Hl]%Forall_cons. constructor; [|by apply IH].
  unfold named_by in *. by rewrite Hticker, Hname.
Qed.

(** X5. When the provider's answer has no name column, or only nulls under
    it, every row the live fetcher returns carries the name the registry
    dict has for the row's ticker (NaN for a ticker the registry lacks). *)
Theorem X5_live_names_from_registry `{Host} (groups_df : frame) (ticker : cell) (years : Z)
    (raw out : frame) (name_map : list (cell * string)) :
  taiwan_stock_month_revenue login (astype_str ticker) "2023-01-01" = Ret raw →
  wf_frame raw → empty raw = false →
  "name" ∉ columns (rename provider_columns raw)
  ∨ Forall (λ r, isna (cell_of "name" (columns (rename provider_columns raw)) r) = true)
      (rows raw) →
  name_map_of groups_df = Ret name_map →
  fetch_monthly_revenue_finmind groups_df ticker years = Ret out →
  Forall (named_by name_map (columns out)) (rows out).
Proof.
  intros Hraw Hwf Hne Hnames Hmap Hrun. unfold fetch_monthly_revenue_finmind in Hrun.
  cbv zeta in Hrun. change (isoformat (Date 2023 1 1)) with "2023-01-01" in Hrun.
  rewrite Hraw in Hrun. cbn [mbind res_bind] in Hrun.
  unfold live_table in Hrun. rewrite Hne, Hmap in Hrun.
  apply bind_Ret_inv in Hrun as (out1 & Hout1 & Hrun).
  apply bind_Ret_inv in Hrun as (out2 & Hout2 & Hrun).
  cbn [mbind res_bind] in Hrun.
  apply bind_Ret_inv in Hrun as (no_names & Hno & Hrun).
  apply bind_Ret_inv in Hrun as (out3 & Hout3 & Hrun). cbv zeta in Hrun.
  apply bind_Ret_inv in Hrun as (out4 & Hselect & Hrun).
  set (cols := columns (rename provider_columns raw)) in *.
  (* the ticker column as strings *)
  unfold astype_str_column in Hout1. fold cols in Hout1.
  change (rows (rename provider_columns raw)) with (rows raw) in Hout1.
  destruct (decide ("ticker" ∈ cols)) as [Hticker|]; [|done].
  assert (out1 = DataFrame cols
                   (map (map_label "ticker" (λ x, Str (astype_str x)) cols) (rows raw)))
    as Hout1' by congruence.
  clear Hout1. subst out1.
  set (out1 := DataFrame cols _) in *.
  assert (wf_frame out1) as Hwf1.
  { unfold wf_frame, out1. cbn [columns rows]. apply Forall_map.
    eapply Forall_impl; [exact Hwf|]. intros r Hr. simpl.
    rewrite map_label_length. unfold cols. simpl. by rewrite length_map. }
  (* the dates *)
  pose proof (date_column_columns _ _ Hout2) as Hcols2.
  unfold date_column in Hout2.
  apply bind_Ret_inv in Hout2 as (col & Hcol & Hout2).
  apply bind_Ret_inv in Hout2 as (ts & Hts & Hout2). injection Hout2 as <-.
  apply series_Ret_inv in Hcol as [Hdate ->].
  assert (length (map dt_date ts) = length (rows out1)) as Hlen_ts.
  { apply mapM_Ret_length in Hts. by rewrite length_map, Hts, length_map. }
  pose proof (setitem_wf "date" (map dt_date ts) out1 Hwf1) as Hwf2.
  set (out2 := setitem "date" (map dt_date ts) out1) in *.
  (* the names are taken from the registry *)
  assert (no_names = true) as ->.
  { unfold lacks_names in Hno. case_bool_decide as Hin; [by injection Hno|].
    apply bind_Ret_inv in Hno as (names & Hcol & Hno). injection Hno as <-.
    apply series_Ret_inv in Hcol as [_ ->].
    destruct Hnames as [Hout|Hnull]; [by rewrite Hcols2 in Hin|].
    unfold out2. rewrite setitem_cells_ne by done.
    apply forallb_forall. intros x Hx%list_elem_of_In.
    apply list_elem_of_fmap in Hx as (r1 & -> & Hr1). unfold out1 in Hr1. cbn [rows] in Hr1.
    apply list_elem_of_fmap in Hr1 as (r & -> & Hr). cbn [columns out1].
    unfold cell_of. rewrite at_label_map_label_ne by done.
    by apply (proj1 (Forall_forall _ _) Hnull). }
  unfold names_from_registry in Hout3.
  apply bind_Ret_inv in Hout3 as (tickers & Htickers & Hout3). injection Hout3 as <-.
  apply series_Ret_inv in Htickers as [Hone ->].
  set (names := map_dict name_map <$> _) in *.
  assert (length names = length (rows out2)) as Hlen_names.
  { unfold names. by rewrite length_fmap, length_map. }
  pose proof (setitem_wf "name" names out2 Hwf2) as Hwf3.
  assert (Forall (named_by name_map (columns (setitem "name" names out2)))
            (rows (setitem "name" names out2))) as Hnamed.
  { apply map_eq_Forall.
    rewrite setitem_cells_eq by done.
    transitivity (map (map_dict name_map)
                    (map (cell_of "ticker" (columns (setitem "name" names out2)))
                       (rows (setitem "name" names out2)))); [|by rewrite map_map].
    by rewrite setitem_cells_ne. }
  set (out3 := setitem "name" names out2) in *.
  destruct (add_missing_keys canonical ["ticker"; "name"] out3) as (Hwf4 & _ & Hneed & Hkeys4).
  { done. }
  { intros c [->|[->|?%elem_of_nil]%elem_of_cons]%elem_of_cons; [|apply setitem_column_in|done].
    unfold out3. rewrite setitem_rows. cbn [columns]. unfold set_cols.
    case_decide; [|apply elem_of_app; left]; by rewrite Hcols2. }
  pose proof (select_keys canonical ["ticker"; "name"] (add_missing canonical out3) out4 Hwf4)
    as Hkeys5.
  apply sort_values_Ret_inv in Hrun as [-> _]. cbn [columns rows].
  rewrite stable_sort_perm.
  apply (named_by_keys name_map (columns out3) (columns out4) (rows out3) (rows out4));
    [|done].
  rewrite <- Hkeys4. apply Hkeys5; [|  |done].
  - apply (bool_decide_eq_true_1 _). reflexivity.
  - intros c [->|[->|?%elem_of_nil]%elem_of_cons]%elem_of_cons; [| |done].
    + left.
    + right. left.
Qed.

Lemma X5_live_names_from_registry_witness :
  Forall (named_by [(Str "A", "Alpha"); (Str "B", "Beta")] (columns steady_A))
    (rows steady_A).
Proof.
  apply (@X5_live_names_from_registry
           (demo_host (Ret demo_registry) (Some demo_book) steady NoFill)
           demo_registry (Str "A") 3
           (provider_rows "A" [("2023-01-01", 100%float); ("2023-02-01", 110%float)])
           steady_A).
  - reflexivity.
  - by repeat constructor.
  - reflexivity.
  - left. apply (bool_decide_eq_true_1 _). reflexivity.
  - vm_compute. reflexivity.
  - vm_compute. reflexivity.
Defined.

(** ** The cells of the fetched rows *)

Lemma at_label_map_label_eq (c : string) (f : cell → cell) (cols : list string)
    (r : list cell) :
  at_label c cols (map_label c f cols r) = f <$> at_label c cols r.
Proof.
  revert r. induction cols as [|l cols IH]; intros [|x r]; simpl; [done..|].
  destruct (decide (l = c)); [|done]. by rewrite fmap_cons, IH.
Qed.

Lemma live_row_keys (cols cols' : list string) (l l' : list (list cell)) :
  map (sort_key ["ticker"; "date"] cols') l' = map (sort_key ["ticker"; "date"] cols) l →
  Forall (live_row cols) l → Forall (live_row cols') l'.
Proof.
  revert l'. induction l as [|r l IH]; intros [|r' l']; simpl; try done.
  intros [= Hticker Hdate Hrest] [Hr Hl]%Forall_cons. constructor; [|by apply IH].
  unfold live_row in *. by rewrite Hticker, Hdate.
Qed.

Lemma Forall_both {A B C} (P : B → Prop) (Q : C → Prop) (f : A → B) (g : A → C)
    (l : list A) :
  Forall P (map f l) → Forall Q (map g l) → Forall (λ x, P (f x) ∧ Q (g x)) l.
Proof.
  induction l as [|x l IH]; simpl; [constructor|].
  intros [? ?]%Forall_cons [? ?]%Forall_cons. constructor; [done|]. by apply IH.
Qed.

(** X19. Every row the live fetcher returns for a rectangular answer has a
    string as its ticker and a calendar date, or NaT, as its date. *)
Theorem X19_live_rows_are_typed `{Host} (groups_df : frame) (ticker : cell) (years : Z)
    (raw out : frame) :
  taiwan_stock_month_revenue login (astype_str ticker) "2023-01-01" = Ret raw →
  wf_frame raw →
  fetch_monthly_revenue_finmind groups_df ticker years = Ret out →
  Forall (live_row (columns out)) (rows out).
Proof.
  intros Hraw Hwf Hrun. unfold fetch_monthly_revenue_finmind in Hrun. cbv zeta in Hrun.
  change (isoformat (Date 2023 1 1)) with "2023-01-01" in Hrun.
  rewrite Hraw in Hrun. cbn [mbind res_bind] in Hrun.
  unfold live_table in Hrun. destruct (empty raw); [injection Hrun as <-; constructor|].
  apply bind_Ret_inv in Hrun as (out1 & Hout1 & Hrun).
  apply bind_Ret_inv in Hrun as (out2 & Hout2 & Hrun).
  apply bind_Ret_inv in Hrun as (name_map & _ & Hrun).
  apply bind_Ret_inv in Hrun as (no_names & _ & Hrun).
  apply bind_Ret_inv in Hrun as (out3 & Hout3 & Hrun). cbv zeta in Hrun.
  apply bind_Ret_inv in Hrun as (out4 & Hselect & Hrun).
  set (cols := columns (rename provider_columns raw)) in *.
  (* the tickers become strings *)
  unfold astype_str_column in Hout1. fold cols in Hout1.
  change (rows (rename provider_columns raw)) with (rows raw) in Hout1.
  destruct (decide ("ticker" ∈ cols)) as [Hticker|]; [|done].
  assert (out1 = DataFrame cols
                   (map (map_label "ticker" (λ x, Str (astype_str x)) cols) (rows raw)))
    as -> by congruence.
  clear Hout1. set (out1 := DataFrame cols _) in *.
  assert (Forall (λ r, length r = length cols) (rows raw)) as Hlen.
  { eapply Forall_impl; [exact Hwf|]. intros r Hr. simpl in Hr.
    unfold cols. simpl. by rewrite length_map. }
  assert (wf_frame out1) as Hwf1.
  { unfold wf_frame, out1. cbn [columns rows]. apply Forall_map.
    eapply Forall_impl; [exact Hlen|]. intros r Hr. simpl. by rewrite map_label_length. }
  assert (Forall (λ c, ∃ s, c = Str s) (map (cell_of "ticker" cols) (rows out1)))
    as Hstrings.
  { unfold out1. cbn [rows]. rewrite map_map. apply Forall_map.
    eapply Forall_impl; [exact Hlen|]. intros r Hr. simpl. unfold cell_of.
    rewrite at_label_map_label_eq.
    assert (0 < length (at_label "ticker" cols r))%nat as Hpos.
    { rewrite at_label_length by done. by apply count_label_pos. }
    destruct (at_label "ticker" cols r) as [|x k]; [simpl in Hpos; lia|]. by eexists. }
  (* the dates become calendar dates *)
  unfold date_column in Hout2.
  apply bind_Ret_inv in Hout2 as (col & Hcol & Hout2).
  apply bind_Ret_inv in Hout2 as (ts & Hts & Hout2). injection Hout2 as <-.
  apply series_Ret_inv in Hcol as [Hdate ->].
  assert (length (map dt_date ts) = length (rows out1)) as Hlen_ts.
  { apply mapM_Ret_length in Hts. by rewrite length_map, Hts, length_map. }
  assert (Forall is_day (map dt_date ts)) as Hdays.
  { apply mapM_Ret_Forall2 in Hts. clear -Hts.
    induction Hts as [|c t l ts Hc _ IH]; simpl; constructor; [|done].
    by eapply dt_date_is_day, to_datetime_is_time. }
  pose proof (setitem_wf "date" (map dt_date ts) out1 Hwf1) as Hwf2.
  pose proof (setitem_cells_eq "date" (map dt_date ts) out1 Hwf1 Hlen_ts) as Hdates2.
  pose proof (setitem_cells_ne "date" "ticker" (map dt_date ts) out1 ltac:(done) Hwf1 Hlen_ts)
    as Htickers2.
  assert (columns (setitem "date" (map dt_date ts) out1) = cols) as Hcols2.
  { apply setitem_columns_in. by apply count_label_one_in. }
  set (out2 := setitem "date" (map dt_date ts) out1) in *.
  assert (Forall (live_row (columns out2)) (rows out2)) as Hrows2.
  { apply (Forall_both (λ c, ∃ s, c = Str s) is_day).
    - cbn [columns out1] in Htickers2. by rewrite Htickers2.
    - by rewrite Hdates2. }
  (* the names, the missing columns, the selection and the sort keep them *)
  assert (Forall (live_row (columns out3)) (rows out3)) as Hrows3.
  { destruct no_names; [|by injection Hout3 as <-].
    unfold names_from_registry in Hout3.
    apply bind_Ret_inv in Hout3 as (tickers & Htickers & Hout3). injection Hout3 as <-.
    apply series_Ret_inv in Htickers as [_ ->].
    apply (live_row_keys (columns out2) _ (rows out2)); [|done].
    apply setitem_keys_ne; [|done|by rewrite length_fmap, length_map].
    apply (bool_decide_eq_true_1 _). reflexivity. }
  assert (wf_frame out3) as Hwf3.
  { destruct no_names; [|by injection Hout3 as <-].
    unfold names_from_registry in Hout3.
    apply bind_Ret_inv in Hout3 as (tickers & _ & Hout3). injection Hout3 as <-.
    by apply setitem_wf. }
  assert (columns out2 ⊆ columns out3) as Hcols3.
  { destruct no_names; [|by injection Hout3 as <-].
    unfold names_from_registry in Hout3.
    apply bind_Ret_inv in Hout3 as (tickers & _ & Hout3). injection Hout3 as <-.
    rewrite setitem_rows. cbn [columns]. unfold set_cols.
    case_decide; [done|]. intros c Hc. apply elem_of_app. by left. }
  destruct (add_missing_keys canonical ["ticker"; "date"] out3) as (Hwf4 & _ & _ & Hkeys4).
  { done. }
  { intros c [->|[->|?%elem_of_nil]%elem_of_cons]%elem_of_cons; [| |done];
      apply Hcols3; rewrite Hcols2; [done|by apply count_label_one_in]. }
  pose proof (select_keys canonical ["ticker"; "date"] (add_missing canonical out3) out4 Hwf4)
    as Hkeys5.
  apply sort_values_Ret_inv in Hrun as [-> _]. cbn [columns rows].
  rewrite stable_sort_perm.
  apply (live_row_keys (columns out3) (columns out4) (rows out3) (rows out4)); [|done].
  rewrite <- Hkeys4. apply Hkeys5; [| |done].
  - apply (bool_decide_eq_true_1 _). reflexivity.
  - intros c [->|[->|?%elem_of_nil]%elem_of_cons]%elem_of_cons; [| |done].
    + left.
    + right. right. left.
Qed.

Lemma X19_live_rows_are_typed_witness :
  Forall (live_row (columns steady_A)) (rows steady_A).
Proof.
  apply (@X19_live_rows_are_typed
           (demo_host (Ret demo_registry) (Some demo_book) steady NoFill)
           demo_registry (Str "A") 3
           (provider_rows "A" [("2023-01-01", 100%float); ("2023-02-01", 110%float)])
           steady_A).
  - reflexivity.
  - by repeat constructor.
  - vm_compute. reflexivity.
Defined.

(** ** The overview and the drill-down *)

Lemma lex_le_single (a b : cell) : lex_le [a] [b] = cell_le a b.
Proof.
  simpl. destruct (cell_le b a) eqn:Hba, (cell_le a b) eqn:Hab; simpl; try done.
  by rewrite (cell_le_total _ _ Hba) in Hab.
Qed.

Lemma cell_le_time_trans (a b c : cell) :
  is_time a → is_time b → is_time c →
  cell_le a b = true → cell_le b c = true → cell_le a c = true.
Proof.
  intros [->|[x ->]] [->|[y ->]] [->|[z ->]]; unfold cell_le; simpl; try done. lia.
Qed.

Lemma cell_le_time_refl (a : cell) : is_time a → cell_le a a = true.
Proof. intros [->|[x ->]]; unfold cell_le; simpl; [done|]. lia. Qed.

(** In a list sorted by a relation that is transitive on its elements,
    each element is below all the later ones. *)
Lemma Sorted_strongly {A} (R : A → A → Prop) (P : A → Prop) (l : list A) :
  (∀ x y z, P x → P y → P z → R x y → R y z → R x z) →
  Forall P l → Sorted R l → StronglySorted R l.
Proof.
  intros Htrans HP. induction 1 as [|x l Hl IH Hhd]; [constructor|].
  apply Forall_cons in HP as [Hx HP]. specialize (IH HP). constructor; [done|].
  destruct Hhd as [|y l Hxy]; [constructor|].
  apply StronglySorted_inv in IH as [_ Hy]. apply Forall_cons in HP as [Hy' HP].
  constructor; [done|]. apply Forall_forall. intros z Hz.
  apply (Htrans x y z); [done..| |done|].
  - by apply (proj1 (Forall_forall _ _) HP).
  - by apply (proj1 (Forall_forall _ _) Hy).
Qed.

(** The last element that passes a test is above all the others that do. *)
Lemma last_filter_greatest {A} (R : A → A → Prop) (Q : A → Prop) `{∀ x, Decision (Q x)}
    (l : list A) (r : A) :
  StronglySorted R l → (∀ x, x ∈ l → R x x) →
  last (filter Q l) = Some r →
  ∀ r', r' ∈ l → Q r' → R r' r.
Proof.
  induction l as [|x l IH]; [done|].
  intros [Hl Hx]%StronglySorted_inv Hrefl. rewrite filter_cons.
  assert (∀ y, y ∈ l → R y y) as Hrefl' by (intros y Hy; apply Hrefl; by right).
  destruct (decide (Q x)) as [Hqx|Hqx].
  - destruct (filter Q l) as [|y k] eqn:Hfilter.
    + intros [= <-] r' [->|Hr']%elem_of_cons Hq; [apply Hrefl; left|].
      assert (r' ∈ filter Q l) as Hin by by apply list_elem_of_filter.
      rewrite Hfilter in Hin. by apply elem_of_nil in Hin.
    + rewrite last_cons_cons. intros Hlast r' [->|Hr']%elem_of_cons Hq.
      * apply (proj1 (Forall_forall _ _) Hx).
        assert (r ∈ filter Q l) as Hin.
        { rewrite Hfilter. by apply last_Some_elem_of. }
        by apply list_elem_of_filter in Hin as [_ ?].
      * by apply IH.
  - intros Hlast r' [->|Hr']%elem_of_cons Hq; [done|]. by apply IH.
Qed.

Lemma groupby_tail_in (n : nat) (key : list cell → cell) (l : list (list cell))
    (r : list cell) :
  r ∈ groupby_tail n key l → r ∈ l ∧ isna (key r) = false.
Proof.
  induction l as [|x l IH]; simpl; [by intros ?%elem_of_nil|].
  destruct (isna (key x)) eqn:Hna; simpl.
  - intros [? ?]%IH. split; [by right|done].
  - destruct (_ <? n)%nat.
    + intros [->|[? ?]%IH]%elem_of_cons; [split; [left|done]|split; [by right|done]].
    + intros [? ?]%IH. split; [by right|done].
Qed.

(** Of each group with a non-null key, [tail(1)] keeps the last row. *)
Lemma groupby_tail_last (key : list cell → cell) (k : cell) (l : list (list cell)) :
  isna k = false →
  filter (λ r, key r = k) (groupby_tail 1 key l)
  = match last (filter (λ r, key r = k) l) with
    | Some r => [r]
    | None => []
    end.
Proof.
  intros Hk. induction l as [|x l IH]; [done|]. simpl. rewrite (filter_cons _ x).
  destruct (decide (key x = k)) as [Hx|Hx].
  - rewrite Hx, Hk. simpl.
    destruct (filter (λ r, key r = k) l) as [|y f] eqn:Hfilter; simpl.
    + rewrite filter_cons, decide_True by done. by rewrite IH.
    + exact IH.
  - destruct (negb (isna (key x)) && _); [|done].
    by rewrite filter_cons, decide_False.
Qed.

(** X14. The overview of a sector, computed from a table whose dates are
    timestamps (as the enricher leaves them), has the columns of the table
    and exactly one row for each ticker of the table; that row is a row of
    the table, and no row of the same ticker has a later date. *)
Theorem X14_latest_rows (sector_df latest : frame) :
  Forall is_time (map (cell_of "date" (columns sector_df)) (rows sector_df)) →
  latest_rows sector_df = Ret latest →
  columns latest = columns sector_df
  ∧ (∀ k, isna k = false →
          length (ticker_rows k latest)
          = if decide (ticker_rows k sector_df = []) then 0%nat else 1%nat)
  ∧ ∀ r, r ∈ rows latest →
         r ∈ rows sector_df
         ∧ ∀ r', r' ∈ rows sector_df →
                 cell_of "ticker" (columns sector_df) r'
                 = cell_of "ticker" (columns sector_df) r →
                 cell_le (cell_of "date" (columns sector_df) r')
                   (cell_of "date" (columns sector_df) r) = true.
Proof.
  intros Htimes Hrun. unfold latest_rows in Hrun.
  apply bind_Ret_inv in Hrun as (df & Hdf & Hrun).
  apply bind_Ret_inv in Hrun as (tickers & _ & Hrun). injection Hrun as <-.
  apply sort_values_Ret_inv in Hdf as [-> _]. cbn [columns rows].
  set (cols := columns sector_df) in *.
  set (sorted := stable_sort (row_le ["date"] cols) (rows sector_df)).
  assert (sorted ≡ₚ rows sector_df) as Hperm by apply stable_sort_perm.
  assert (StronglySorted (λ r1 r2, cell_le (cell_of "date" cols r1) (cell_of "date" cols r2)
                                   = true) sorted) as Hsorted.
  { apply (Sorted_strongly _ (λ r, is_time (cell_of "date" cols r))).
    - intros x y z. apply cell_le_time_trans.
    - rewrite Hperm. change (map ?f ?l) with (f <$> l) in Htimes.
      by rewrite Forall_fmap in Htimes.
    - pose proof (stable_sort_Sorted (row_le ["date"] cols) (row_le_total ["date"] cols)
                    (rows sector_df)) as Hs.
      eapply Sorted_ind with (P := Sorted _); [constructor| |exact Hs].
      intros x l _ IH Hhd. constructor; [done|].
      destruct Hhd as [|y l Hxy]; constructor.
      unfold row_le, sort_key in Hxy. simpl in Hxy. by rewrite <- lex_le_single. }
  split; [done|]. split.
  - intros k Hk. unfold ticker_rows. cbn [columns rows]. fold cols.
    rewrite groupby_tail_last by done.
    assert (filter (λ r, cell_of "ticker" cols r = k) sorted
            ≡ₚ filter (λ r, cell_of "ticker" cols r = k) (rows sector_df)) as Hfilter
      by by rewrite Hperm.
    destruct (filter _ (rows sector_df)) as [|x f].
    + apply Permutation_nil_r in Hfilter. by rewrite Hfilter.
    + destruct (filter _ sorted) as [|y g] eqn:Hg; [by apply Permutation_nil_cons in Hfilter|].
      rewrite decide_False by done.
      by destruct (last_is_Some (y :: g)) as [_ [r ->]].
  - intros r Hr. pose proof Hr as [Hin Hna]%groupby_tail_in.
    split; [by rewrite <- Hperm|]. intros r' Hr' Hsame.
    assert (r ∈ filter (λ x, cell_of "ticker" cols x = cell_of "ticker" cols r)
                  (groupby_tail 1 (cell_of "ticker" cols) sorted)) as Hlast
      by by apply list_elem_of_filter.
    rewrite groupby_tail_last in Hlast by done.
    destruct (last (filter _ sorted)) as [x|] eqn:Hx; [|by apply elem_of_nil in Hlast].
    apply list_elem_of_singleton in Hlast as ->.
    apply (last_filter_greatest _ (λ r, cell_of "ticker" cols r = cell_of "ticker" cols x)
             sorted x Hsorted); [|done|by rewrite Hperm|done].
    intros y Hy. apply cell_le_time_refl.
    rewrite Hperm in Hy. apply (proj1 (Forall_forall _ _) Htimes).
    change (map ?f ?l) with (f <$> l). apply list_elem_of_fmap. by exists y.
Qed.

Lemma X14_latest_rows_witness :
  latest_rows demo_enriched = Ret demo_latest
  ∧ length (ticker_rows (Str "A") demo_latest) = 1%nat.
Proof.
  split; [vm_compute; reflexivity|].
  destruct (X14_latest_rows demo_enriched demo_latest) as (_ & Hone & _).
  - repeat (constructor; [right; by eexists|]). constructor.
  - vm_compute. reflexivity.
  - exact (Hone (Str "A") eq_refl).
Defined.

Lemma last_drop {A} (n : nat) (l : list A) : (n < length l)%nat → last (drop n l) = last l.
Proof.
  revert n. induction l as [|x l IH]; intros [|n]; simpl; try done; try lia.
  intros Hn. rewrite IH by lia. destruct l; [simpl in Hn; lia|done].
Qed.

(** X15. The two figures of the drill-down are those of the last row of
    the stock in the sector's table, a dash standing for a null; cutting
    the stock's rows to the last twelve has no effect on them, and a stock
    without rows shows no figure. *)
Theorem X15_latest_metrics_of_last_row (ticker : string) (sector_df stock_df : frame) :
  count_label "revenue_yoy" (columns sector_df) = 1%nat →
  count_label "revenue_mom" (columns sector_df) = 1%nat →
  stock_rows (Str ticker) sector_df = Ret stock_df →
  latest_metrics stock_df
  = Ret (r ← last (ticker_rows (Str ticker) sector_df);
         Some (shown (cell_of "revenue_yoy" (columns sector_df) r),
               shown (cell_of "revenue_mom" (columns sector_df) r))).
Proof.
  intros Hyoy Hmom Hstock. unfold stock_rows, query in Hstock.
  destruct (count_label "ticker" (columns sector_df)) as [|[|n]]; [done| |done].
  injection Hstock as <-. unfold latest_metrics, tail. cbn [columns rows]. cbv zeta.
  set (cols := columns sector_df) in *.
  assert (filter (λ r, py_eq (cell_of "ticker" cols r) (Str ticker) = true) (rows sector_df)
          = ticker_rows (Str ticker) sector_df) as ->.
  { unfold ticker_rows. apply list_filter_iff. intros r. apply py_eq_Str. }
  set (l := ticker_rows (Str ticker) sector_df).
  unfold empty. cbn [columns rows].
  assert (cols ≠ []) as Hcols.
  { intros Hnil. by rewrite Hnil in Hyoy. }
  rewrite (bool_decide_eq_false_2 (cols = [])) by done. rewrite orb_false_r.
  destruct (decide (l = [])) as [->|Hl]; [done|].
  assert (0 < length l)%nat as Hlen by (destruct l; [done|simpl; lia]).
  rewrite bool_decide_eq_false_2.
  2: { intros Hnil. apply (f_equal length) in Hnil. rewrite length_drop in Hnil.
       simpl in Hnil. lia. }
  unfold getitem. cbn [columns]. fold cols.
  rewrite !decide_True by by apply count_label_one_in. cbn [mbind res_bind].
  rewrite !series_Ret by done. cbn [mbind res_bind columns rows]. fold cols.
  f_equal. change (map ?f ?k) with (f <$> k). rewrite !fmap_last.
  rewrite last_drop by lia. by destruct (last l).
Qed.

Lemma X15_latest_metrics_of_last_row_witness :
  latest_metrics demo_stock_A = Ret (Some (None, Some (Num (121 / 110 - 1)))).
Proof.
  rewrite (X15_latest_metrics_of_last_row "A" demo_enriched demo_stock_A).
  - vm_compute. reflexivity.
  - reflexivity.
  - reflexivity.
  - vm_compute. reflexivity.
Defined.

(** ** Loading a loaded registry *)

Lemma lstrip_clean (cs : list string) : starts_clean cs → lstrip cs = cs.
Proof. destruct cs as [|c cs]; simpl; [done|]. by intros ->. Qed.

Lemma rstrip_clean (cs : list string) : ends_clean cs → rstrip cs = cs.
Proof.
  induction cs as [|c cs IH]; [done|]. simpl. destruct cs as [|b cs].
  - simpl. by intros ->.
  - intros Hcs. rewrite (IH Hcs). done.
Qed.

Lemma strip_clean (s : string) : trimmed s → strip s = s.
Proof.
  intros [Hstart Hend]. unfold strip.
  rewrite lstrip_clean by done. rewrite rstrip_clean by done. apply join_chars.
Qed.

Lemma lower_ascii_continuation (a : ascii) :
  is_continuation (lower_ascii a) = is_continuation a.
Proof. by destruct a as [[] [] [] [] [] [] [] []]. Qed.

Lemma lower_ascii_twice (a : ascii) : lower_ascii (lower_ascii a) = lower_ascii a.
Proof. by destruct a as [[] [] [] [] [] [] [] []]. Qed.

Lemma lower_twice (s : string) : lower (lower s) = lower s.
Proof. induction s as [|a s IH]; simpl; [done|]. by rewrite lower_ascii_twice, IH. Qed.

Lemma lower_app (s t : string) : lower (s +:+ t) = lower s +:+ lower t.
Proof. induction s as [|a s IH]; simpl; [done|]. by rewrite IH. Qed.

Lemma lower_join (cs : list string) : lower (join cs) = join (lower <$> cs).
Proof. induction cs as [|c cs IH]; simpl; [done|]. by rewrite lower_app, IH. Qed.

Lemma chars_lower (s : string) : chars (lower s) = lower <$> chars s.
Proof.
  induction s as [|a s IH]; [done|]. cbn [lower chars]. rewrite IH.
  destruct (chars s) as [|[|b c] cs]; try done. cbn [fmap list_fmap lower].
  rewrite lower_ascii_continuation. by destruct (is_continuation b).
Qed.

Lemma lower_letterless (s : string) : letterless s = true → lower s = s.
Proof.
  unfold letterless. induction s as [|a s IH]; simpl; [done|].
  intros [Ha Hs]%andb_true_iff. rewrite (IH Hs). f_equal.
  revert Ha. by destruct a as [[] [] [] [] [] [] [] []].
Qed.

Lemma lower_is_letterless (s w : string) : letterless w = true → lower s = w → s = w.
Proof.
  unfold letterless. revert w. induction s as [|a s IH]; intros [|b w]; simpl; try done.
  intros [Hb Hw]%andb_true_iff [= Hab Hsw]. rewrite (IH w Hw Hsw). f_equal.
  subst b. revert Hb. by destruct a as [[] [] [] [] [] [] [] []].
Qed.

Lemma spaces_letterless : Forall (λ w, letterless w = true) spaces.
Proof. apply Forall_forall. intros w Hw. by repeat (apply elem_of_cons in Hw as [->|Hw]; [done|]); apply elem_of_nil in Hw. Qed.

Lemma lower_space (c : string) : is_space (lower c) = is_space c.
Proof.
  unfold is_space. apply bool_decide_ext. split.
  - intros Hc. pose proof (proj1 (Forall_forall _ _) spaces_letterless _ Hc) as Hw.
    by rewrite (lower_is_letterless c (lower c) Hw eq_refl).
  - intros Hc. pose proof (proj1 (Forall_forall _ _) spaces_letterless _ Hc) as Hw.
    by rewrite lower_letterless.
Qed.

Lemma lstrip_lower (cs : list string) : lstrip (lower <$> cs) = lower <$> lstrip cs.
Proof.
  induction cs as [|c cs IH]; [done|]. cbn [fmap list_fmap lstrip]. rewrite lower_space.
  by destruct (is_space c).
Qed.

Lemma rstrip_lower (cs : list string) : rstrip (lower <$> cs) = lower <$> rstrip cs.
Proof.
  induction cs as [|c cs IH]; [done|]. cbn [fmap list_fmap rstrip].
  change (list_fmap _ _ lower cs) with (lower <$> cs). rewrite IH, lower_space.
  destruct (rstrip cs); simpl; [|done]. by destruct (is_space c).
Qed.

Lemma strip_lower (s : string) : strip (lower s) = lower (strip s).
Proof. unfold strip. by rewrite chars_lower, lstrip_lower, rstrip_lower, lower_join. Qed.

(** A normalized label is its own normal form. *)
Lemma normalize_label_twice (c : string) :
  lower (strip (lower (strip c))) = lower (strip c).
Proof.
  rewrite strip_lower, lower_twice. f_equal. apply strip_clean, strip_trimmed.
Qed.

Lemma normalize_header_twice (df : frame) :
  normalize_header (normalize_header df) = normalize_header df.
Proof.
  unfold normalize_header. cbn [columns rows]. f_equal. rewrite map_map.
  apply map_ext. intros c. apply normalize_label_twice.
Qed.

(** Stripping a column of trimmed strings changes nothing. *)
Lemma strip_column_clean `{Host} (c : string) (df : frame) :
  wf_frame df → count_label c (columns df) = 1%nat →
  Forall (λ r, ∃ s, cell_of c (columns df) r = Str s ∧ trimmed s) (rows df) →
  strip_column c df = Ret df.
Proof.
  intros Hwf Hone Hclean. rewrite strip_column_Ret by done.
  assert (strip_row c (columns df) <$> rows df = rows df) as ->; [|by rewrite frame_eta].
  transitivity (id <$> rows df); [|apply list_fmap_id].
  apply Forall_fmap_ext_1. unfold wf_frame in Hwf.
  induction Hclean as [|r l (s & Hs & Htrim) _ IH]; [constructor|].
  apply Forall_cons in Hwf as [Hr Hwf]. constructor; [|by apply IH].
  unfold strip_row. rewrite Hs. simpl. rewrite strip_clean by done.
  apply put_label_same. rewrite at_label_single by done. rewrite Hs. by constructor.
Qed.

Lemma strip_column_inv `{Host} (c : string) (df df' : frame) :
  strip_column c df = Ret df' →
  count_label c (columns df) = 1%nat
  ∧ df' = DataFrame (columns df) (strip_row c (columns df) <$> rows df).
Proof.
  intros Hrun. assert (count_label c (columns df) = 1%nat) as Hone.
  { unfold strip_column in Hrun. apply bind_Ret_inv in Hrun as (col & Hcol & _).
    by apply series_Ret_inv in Hcol as [? _]. }
  split; [done|]. rewrite strip_column_Ret in Hrun by done. by injection Hrun.
Qed.

(** What [load_groups] returns: the normalized header, in which each of
    the three names is one column, over rows whose three fields are
    trimmed strings. *)
Lemma load_groups_inv `{Host} (groups_csv : string) (raw df : frame) :
  read_csv groups_csv = Ret raw → wf_frame raw → load_groups groups_csv = Ret df →
  columns df = columns (normalize_header raw)
  ∧ wf_frame df
  ∧ Forall (λ c, count_label c (columns df) = 1%nat) required
  ∧ Forall (λ r, Forall (λ c, ∃ s, cell_of c (columns df) r = Str s ∧ trimmed s) required)
      (rows df).
Proof.
  intros Hraw Hwf Hrun. unfold load_groups in Hrun. rewrite Hraw in Hrun.
  cbn [mbind res_bind] in Hrun. cbv zeta in Hrun. case_bool_decide; [done|].
  apply bind_Ret_inv in Hrun as (d1 & Hd1 & Hrun).
  apply bind_Ret_inv in Hrun as (d2 & Hd2 & Hrun).
  apply bind_Ret_inv in Hrun as (d3 & Hd3 & Hrun). injection Hrun as <-.
  set (cols := columns (normalize_header raw)) in *.
  apply strip_column_inv in Hd1 as [Hticker ->]. cbn [columns rows] in *.
  apply strip_column_inv in Hd2 as [Hsector ->]. cbn [columns rows] in *.
  apply strip_column_inv in Hd3 as [Hname ->]. cbn [columns rows] in *.
  fold cols in Hticker, Hsector, Hname |- *.
  change (rows (normalize_header raw)) with (rows raw).
  assert (Forall (λ r, length r = length cols) (rows raw)) as Hlen.
  { eapply Forall_impl; [exact Hwf|]. intros r Hr. simpl in Hr.
    unfold cols. simpl. by rewrite length_map. }
  split; [done|]. split; [|split].
  - unfold wf_frame. cbn [columns rows]. rewrite <- !list_fmap_compose.
    apply Forall_fmap. eapply Forall_impl; [exact Hlen|]. intros r Hr. simpl.
    by rewrite !strip_row_length.
  - by repeat apply Forall_cons_2.
  - rewrite <- !list_fmap_compose. apply Forall_fmap.
    eapply Forall_impl; [exact Hlen|]. intros r Hr. simpl.
    repeat apply Forall_cons_2; [| | |constructor].
    + rewrite !strip_row_ne by done. apply strip_row_eq; [done|].
      by apply count_label_one_in.
    + apply strip_row_eq; [by rewrite !strip_row_length|]. by apply count_label_one_in.
    + rewrite strip_row_ne by done.
      apply strip_row_eq; [by rewrite strip_row_length|]. by apply count_label_one_in.
Qed.

(** X1. The registry loader is stable: the table it returns, read back as a
    registry file on any host, loads to itself. Its header is already
    normalized and its three fields are already trimmed strings, so the
    second load changes nothing and raises nothing. *)
Theorem X1_load_groups_stable (H H' : Host) (groups_csv groups_csv' : string) (raw df : frame) :
  @read_csv H groups_csv = Ret raw → wf_frame raw →
  @load_groups H groups_csv = Ret df →
  @read_csv H' groups_csv' = Ret df →
  @load_groups H' groups_csv' = Ret df.
Proof.
  intros Hraw Hwf Hrun Hraw'.
  destruct (@load_groups_inv H groups_csv raw df) as (Hcols & Hwf' & Hone & Hclean);
    [done..|].
  assert (normalize_header df = df) as Hsame.
  { rewrite <- (frame_eta df) at 2. unfold normalize_header. f_equal.
    rewrite Hcols. cbn [normalize_header columns]. rewrite map_map.
    apply map_ext. intros c. apply normalize_label_twice. }
  unfold load_groups. rewrite Hraw'. cbn [mbind res_bind]. cbv zeta. rewrite Hsame.
  rewrite bool_decide_eq_false_2.
  2: { intros Hmissing. apply Hmissing, missing_columns_nil. intros c Hc.
       apply count_label_one_in. by apply (proj1 (Forall_forall _ _) Hone). }
  apply Forall_cons_1 in Hone as [Hticker Hone].
  apply Forall_cons_1 in Hone as [Hname Hone].
  apply Forall_cons_1 in Hone as [Hsector _].
  assert (∀ c, c ∈ required →
               Forall (λ r, ∃ s, cell_of c (columns df) r = Str s ∧ trimmed s) (rows df))
    as Hfield.
  { intros c Hc. eapply Forall_impl; [exact Hclean|]. intros r Hr. simpl in Hr.
    by apply (proj1 (Forall_forall _ _) Hr). }
  rewrite (@strip_column_clean H' "ticker")
    by (done || apply Hfield, (bool_decide_eq_true_1 _); reflexivity).
  cbn [mbind res_bind].
  rewrite (@strip_column_clean H' "sector")
    by (done || apply Hfield, (bool_decide_eq_true_1 _); reflexivity).
  cbn [mbind res_bind].
  rewrite (@strip_column_clean H' "name")
    by (done || apply Hfield, (bool_decide_eq_true_1 _); reflexivity).
  done.
Qed.

Lemma X1_load_groups_stable_witness :
  @load_groups (demo_host (Ret tidy_registry) None silent NoFill) GROUPS_CSV
  = Ret tidy_registry.
Proof.
  apply (X1_load_groups_stable (demo_host (Ret untidy_csv) None silent NoFill)
           (demo_host (Ret tidy_registry) None silent NoFill)
           GROUPS_CSV GROUPS_CSV untidy_csv tidy_registry).
  - reflexivity.
  - by repeat constructor.
  - vm_compute. reflexivity.
  - reflexivity.
Defined.

(** ** Rows that are already in order *)

Lemma to_datetime_day `{Host} (c t : cell) :
  is_day c → to_datetime c = Ret t → t = midnight c.
Proof.
  intros [->|[d ->]]; simpl; [by intros [= <-]|].
  destruct (in_bounds _); [by intros [= <-]|done].
Qed.

Lemma mapM_to_datetime_days `{Host} (l ts : list cell) :
  Forall is_day l → mapM to_datetime l = Ret ts → ts = midnight <$> l.
Proof.
  intros Hl Hrun%mapM_Ret_Forall2. induction Hrun as [|c t l ts Hc _ IH]; [done|].
  apply Forall_cons_1 in Hl as [Hday Hl]. rewrite fmap_cons.
  by rewrite (to_datetime_day c t Hday Hc), (IH Hl).
Qed.

Lemma cell_le_midnight (a b : cell) :
  is_day a → is_day b → cell_le (midnight a) (midnight b) = cell_le a b.
Proof.
  intros [->|[x ->]] [->|[y ->]]; unfold cell_le; simpl; try done.
  unfold day_ns. destruct (x <=? y) eqn:Hxy; [apply Z.leb_le|apply Z.leb_gt];
    [apply Z.leb_le in Hxy|apply Z.leb_gt in Hxy]; lia.
Qed.

Lemma Sorted_impl_on {A} (R R' : A → A → Prop) (P : A → Prop) (l : list A) :
  (∀ a b, P a → P b → R a b → R' a b) → Forall P l → Sorted R l → Sorted R' l.
Proof.
  intros Himpl HP. induction 1 as [|x l Hl IH Hhd]; [constructor|].
  apply Forall_cons in HP as [Hx HP]. constructor; [by apply IH|].
  destruct Hhd as [|y l Hxy]; constructor. apply Forall_cons in HP as [Hy _].
  by apply Himpl.
Qed.

(** X10. On a table that is already in (ticker, date) order with calendar
    dates, as the resolver leaves it, the KPI enricher keeps every row in
    its place: the cells under the other labels are those of the input, row
    by row, and each date becomes the timestamp of its midnight. *)
Theorem X10_enrich_kpi_keeps_order `{Host} (df out : frame) (cs : list string) :
  wf_frame df → empty df = false →
  Forall is_day (map (cell_of "date" (columns df)) (rows df)) →
  Sorted (λ r1 r2, row_le ["ticker"; "date"] (columns df) r1 r2 = true) (rows df) →
  enrich_kpi df = Ret out →
  "date" ∉ cs → "revenue_mom" ∉ cs → "revenue_yoy" ∉ cs →
  map (sort_key cs (columns out)) (rows out) = map (sort_key cs (columns df)) (rows df)
  ∧ map (cell_of "date" (columns out)) (rows out)
    = map (λ r, midnight (cell_of "date" (columns df) r)) (rows df).
Proof.
  intros Hwf Hne Hdays Hsorted Hrun Hdate Hmom Hyoy.
  unfold enrich_kpi in Hrun. rewrite Hne in Hrun.
  apply bind_Ret_inv in Hrun as (d1 & Hd1 & Hrun).
  apply bind_Ret_inv in Hrun as (d2 & Hd2 & Hrun).
  apply bind_Ret_inv in Hrun as (mom & Hmom' & Hrun). cbv zeta in Hrun.
  apply bind_Ret_inv in Hrun as (yoy & Hyoy' & Hrun). injection Hrun as <-.
  unfold datetime_column in Hd1.
  apply bind_Ret_inv in Hd1 as (col & Hcol & Hd1).
  apply bind_Ret_inv in Hd1 as (ts & Hts & Hd1). injection Hd1 as <-.
  apply series_Ret_inv in Hcol as [Hone ->].
  apply (mapM_to_datetime_days _ _ Hdays) in Hts. subst ts.
  set (cols := columns df) in *.
  set (ts := midnight <$> map (cell_of "date" cols) (rows df)) in *.
  assert (length ts = length (rows df)) as Hlen_ts.
  { unfold ts. by rewrite length_fmap, length_map. }
  pose proof (setitem_wf "date" ts df Hwf) as Hwf1.
  pose proof (setitem_keys_ne "date" cs ts df Hdate Hwf Hlen_ts) as Hkeys1.
  pose proof (setitem_cells_eq "date" ts df Hwf Hlen_ts) as Hdates1.
  pose proof (setitem_cells_ne "date" "ticker" ts df ltac:(done) Hwf Hlen_ts) as Htickers1.
  set (d1 := setitem "date" ts df) in *.
  (* the table is still sorted *)
  assert (Sorted (λ r1 r2, row_le ["ticker"; "date"] (columns d1) r1 r2 = true) (rows d1))
    as Hsorted1.
  { apply (Sorted_by_key (sort_key ["ticker"; "date"] (columns d1))).
    assert (sort_key ["ticker"; "date"] (columns d1) <$> rows d1
            = (λ r, [cell_of "ticker" cols r; midnight (cell_of "date" cols r)]) <$> rows df)
      as ->.
    { apply (fmap_pair_eq (cell_of "ticker" (columns d1)) (cell_of "date" (columns d1))
               (cell_of "ticker" cols) (λ r, midnight (cell_of "date" cols r))).
      - exact Htickers1.
      - change (?f <$> ?l) with (map f l). rewrite Hdates1. unfold ts.
        change (map ?f ?l) with (f <$> l). by rewrite <- list_fmap_compose. }
    apply (Sorted_by_key
             (λ r, [cell_of "ticker" cols r; midnight (cell_of "date" cols r)])).
    apply (Sorted_impl_on
             (λ r1 r2, row_le ["ticker"; "date"] cols r1 r2 = true) _
             (λ r, is_day (cell_of "date" cols r))); [| |done].
    - intros a b Ha Hb. unfold row_le, sort_key. cbn [map].
      rewrite !lex_le_pair. by rewrite cell_le_midnight.
    - change (map ?f ?l) with (f <$> l) in Hdays. by rewrite Forall_fmap in Hdays. }
  apply sort_values_Ret_inv in Hd2 as [-> _]. rewrite stable_sort_id in * by done.
  rewrite (frame_eta d1) in *.
  assert (wf_frame d1) as Hwfd by done.
  apply groupby_pct_change_Ret_inv in Hmom' as (_ & _ & xs & _ & ->).
  apply groupby_pct_change_Ret_inv in Hyoy' as (_ & _ & xs' & _ & ->).
  set (mom := Num <$> groupby_transform (pct_change 1) _ xs).
  assert (length mom = length (rows d1)) as Hlen_mom by by eapply rates_length.
  set (yoy := Num <$> groupby_transform (pct_change 12) _ xs').
  assert (length yoy = length (rows (setitem "revenue_mom" mom d1))) as Hlen_yoy
    by by eapply rates_length.
  split.
  - rewrite setitem_keys_ne by (done || by apply setitem_wf).
    by rewrite setitem_keys_ne.
  - rewrite setitem_cells_ne by (done || by apply setitem_wf).
    rewrite setitem_cells_ne by done. rewrite Hdates1. unfold ts.
    change (map ?f ?l) with (f <$> l). by rewrite <- list_fmap_compose.
Qed.

Lemma X10_enrich_kpi_keeps_order_witness :
  map (sort_key ["ticker"; "revenue"] (columns gapped_enriched)) (rows gapped_enriched)
  = map (sort_key ["ticker"; "revenue"] (columns gapped_revenue)) (rows gapped_revenue).
Proof.
  destruct (@X10_enrich_kpi_keeps_order (demo_host (Ret demo_registry) None silent Ffill)
              gapped_revenue gapped_enriched ["ticker"; "revenue"]) as [Hkeys _].
  - by repeat constructor.
  - reflexivity.
  - repeat (constructor; [right; by eexists|]). constructor.
  - repeat constructor.
  - vm_compute. reflexivity.
  - apply (bool_decide_eq_true_1 _). reflexivity.
  - apply (bool_decide_eq_true_1 _). reflexivity.
  - apply (bool_decide_eq_true_1 _). reflexivity.
  - exact Hkeys.
Defined.

(** ** The batch refresh, sheet by sheet *)

Lemma select_missing (before after : list string) (c : string) (df : frame) :
  before ⊆ columns df → c ∉ columns df →
  select (before ++ c :: after) df = Raise (KeyError c).
Proof.
  intros Hbefore Hc. unfold select.
  destruct (list_find _ (before ++ c :: after)) as [[i c']|] eqn:Hfind.
  - apply list_find_Some in Hfind as (Hi & Hout & Hfirst).
    destruct (decide (i < length before)%nat) as [Hlt|Hge].
    + rewrite lookup_app_l in Hi by done. apply list_elem_of_lookup_2 in Hi. by apply Hbefore in Hi.
    + destruct (decide (i = length before)) as [->|Hne].
      * rewrite list_lookup_middle in Hi by done. by injection Hi as <-.
      * exfalso. apply (Hfirst (length before) c); [by rewrite list_lookup_middle|lia|done].
  - apply list_find_None in Hfind. rewrite Forall_app, Forall_cons in Hfind.
    by destruct Hfind as (_ & Hc' & _).
Qed.

(** X16. The batch refresh does not complete a provider answer: when the
    answer for a ticker has rows but no date column the inner loop raises
    KeyError for date, and when it has dates but no revenue column it
    raises KeyError for revenue (the live fetcher fills a missing revenue
    with NaN). *)
Theorem X16_batch_missing_column_raises `{Host} (dl : option string)
    (name_map : list (cell * string)) (years : Z) (t : string) (tickers : list string)
    (frames : list frame) (start : string) (sub : frame) :
  batch_start years = Ret start →
  taiwan_stock_month_revenue dl t start = Ret sub → empty sub = false →
  count_label "ticker" (columns (rename batch_columns sub)) = 1%nat →
  (count_label "name" (columns (rename batch_columns sub)) ≤ 1)%nat →
  ("date" ∉ columns (rename batch_columns sub) →
   fetch_tickers dl name_map years (t :: tickers) frames = Raise (KeyError "date"))
  ∧ ("date" ∈ columns (rename batch_columns sub) →
     "revenue" ∉ columns (rename batch_columns sub) →
     fetch_tickers dl name_map years (t :: tickers) frames = Raise (KeyError "revenue")).
Proof.
  intros Hstart Hsub Hempty Hticker Hname.
  set (cols := columns (rename batch_columns sub)) in *.
  assert (∃ sub2, (sub1 ← astype_str_column "ticker" (rename batch_columns sub);
                   no_names ← lacks_names sub1;
                   if no_names : bool then names_from_registry name_map sub1 else Ret sub1)
                  = Ret sub2
                  ∧ "ticker" ∈ columns sub2 ∧ "name" ∈ columns sub2
                  ∧ ∀ c, c ≠ "name" → c ∈ columns sub2 ↔ c ∈ cols)
    as (sub2 & Hsub2 & Hin).
  { unfold astype_str_column. rewrite decide_True by by apply count_label_one_in.
    cbn [mbind res_bind]. unfold lacks_names. cbn [columns].
    set (sub1 := DataFrame _ _).
    assert (names_from_registry name_map sub1
            = Ret (setitem "name" (map_dict name_map <$> map (cell_of "ticker" cols) (rows sub1))
                     sub1)) as Hfill.
    { unfold names_from_registry. by rewrite (series_Ret _ "ticker"). }
    fold cols. case_bool_decide as Hno.
    - cbn [mbind res_bind]. rewrite Hfill. eexists. split; [done|].
      unfold setitem. rewrite decide_False by done. cbn [columns sub1].
      split; [apply elem_of_app; left; by apply count_label_one_in|].
      split; [apply elem_of_app; right; left|].
      intros c Hc. rewrite elem_of_app, list_elem_of_singleton. tauto.
    - assert (count_label "name" cols = 1%nat) as Hone.
      { apply count_label_pos in Hno. lia. }
      rewrite (series_Ret _ "name") by done. cbn [mbind res_bind].
      destruct (forallb _ _).
      + rewrite Hfill. eexists. split; [done|].
        rewrite setitem_columns_in by done. cbn [columns sub1].
        split; [by apply count_label_one_in|]. by split.
      + eexists. split; [done|]. cbn [columns sub1].
        split; [by apply count_label_one_in|]. by split. }
  destruct Hin as (Hin_ticker & Hin_name & Hother).
  assert (∀ e, select canonical sub2 = Raise e →
               fetch_tickers dl name_map years (t :: tickers) frames = Raise e) as Hraise.
  { intros e He. simpl. rewrite Hstart. cbn [mbind res_bind]. rewrite Hsub.
    cbn [mbind res_bind]. rewrite Hempty.
    destruct (astype_str_column "ticker" (rename batch_columns sub)) as [|sub1]; [done|].
    cbn [mbind res_bind] in *. destruct (lacks_names sub1) as [|no_names]; [done|].
    cbn [mbind res_bind] in *. rewrite Hsub2. cbn [mbind res_bind]. by rewrite He. }
  split.
  - intros Hdate. apply Hraise. apply (select_missing ["ticker"; "name"] ["revenue"]).
    + intros c [->|[->|?%elem_of_nil]%elem_of_cons]%elem_of_cons. all: done.
    + by rewrite Hother.
  - intros Hdate Hrevenue. apply Hraise.
    apply (select_missing ["ticker"; "name"; "date"] []).
    + intros c [->|[->|[->|?%elem_of_nil]%elem_of_cons]%elem_of_cons]%elem_of_cons;
        try done. by rewrite Hother.
    + by rewrite Hother.
Qed.

Lemma X16_batch_missing_column_raises_witness :
  @fetch_tickers (demo_host (Ret demo_registry) None (λ _ _, Ret revenueless_answer) NoFill)
    None [] 3 ["A"] []
  = Raise (KeyError "revenue").
Proof.
  destruct (@X16_batch_missing_column_raises
              (demo_host (Ret demo_registry) None (λ _ _, Ret revenueless_answer) NoFill)
              None [] 3 "A" [] [] "2023-11-01" revenueless_answer) as [_ Hrevenue].
  - reflexivity.
  - reflexivity.
  - reflexivity.
  - reflexivity.
  - vm_compute. lia.
  - apply Hrevenue; apply (bool_decide_eq_true_1 _); reflexivity.
Defined.

(** What the inner loop keeps true of every table it gathers. *)
Lemma fetch_tickers_frames `{Host} (Q : frame → Prop) (dl : option string)
    (name_map : list (cell * string)) (years : Z) (tickers : list string)
    (acc frames : list frame) :
  (∀ sub sub', select canonical sub = Ret sub' → Q sub') →
  fetch_tickers dl name_map years tickers acc = Ret frames →
  Forall Q acc → Forall Q frames.
Proof.
  intros HQ. revert acc. induction tickers as [|t tickers IH]; intros acc; simpl.
  - by intros [= <-].
  - intros Hrun Hacc.
    apply bind_Ret_inv in Hrun as (start & _ & Hrun).
    apply bind_Ret_inv in Hrun as (sub & _ & Hrun).
    destruct (empty sub); [by apply (IH acc)|].
    apply bind_Ret_inv in Hrun as (sub1 & _ & Hrun).
    apply bind_Ret_inv in Hrun as (no_names & _ & Hrun).
    apply bind_Ret_inv in Hrun as (sub2 & _ & Hrun).
    apply bind_Ret_inv in Hrun as (sub3 & Hsub3 & Hrun).
    apply (IH _ Hrun). apply Forall_app. split; [done|].
    constructor; [by eapply HQ|constructor].
Qed.

Lemma select_columns (labels : list string) (df df' : frame) :
  select labels df = Ret df' → labels ⊆ columns df'.
Proof.
  intros [Hsub ->]%select_Ret_inv. cbn [columns]. intros c Hc.
  apply list_elem_of_bind. exists c. split; [|done].
  apply list_elem_of_filter. split; [done|]. by apply Hsub.
Qed.

(** Stacking keeps the labels that all the tables have. *)
Lemma pd_concat_columns (labels : list string) (frames : list frame) (all : frame) :
  Forall (λ f, labels ⊆ columns f) frames → pd_concat frames = Ret all →
  labels ⊆ columns all.
Proof.
  unfold pd_concat. destruct frames as [|f frames]; [done|].
  intros [Hf _]%Forall_cons Hrun.
  destruct (forallb _ (f :: frames)); [by injection Hrun as <-|].
  destruct (forallb _ (f :: frames)); [|done]. injection Hrun as <-. cbn [columns].
  intros c Hc. apply elem_of_unique, elem_of_app. left. by apply Hf.
Qed.

(** What the outer loop keeps true of every sheet it stores. *)
Lemma fetch_sectors_stored `{Host} (P : frame → Prop) (dl : option string)
    (name_map : list (cell * string)) (years : Z) (df : frame) (sectors : list cell)
    (acc sheets : list (cell * frame)) :
  (∀ frames all out1 out,
     Forall (λ f, canonical ⊆ columns f) frames →
     pd_concat frames = Ret all → date_column all = Ret out1 →
     sort_values ["ticker"; "date"] out1 = Ret out → P out) →
  fetch_sectors dl name_map years df sectors acc = Ret sheets →
  Forall (λ p, P p.2) acc → Forall (λ p, P p.2) sheets.
Proof.
  intros HP. revert acc. induction sectors as [|sector sectors IH]; intros acc; simpl.
  - by intros [= <-].
  - intros Hrun Hacc.
    apply bind_Ret_inv in Hrun as (g & _ & Hrun).
    apply bind_Ret_inv in Hrun as (col & _ & Hrun).
    apply bind_Ret_inv in Hrun as (frames & Hframes & Hrun).
    case_bool_decide.
    + apply bind_Ret_inv in Hrun as (out & Hout & Hrun).
      apply bind_Ret_inv in Hrun as (out1 & Hout1 & Hrun).
      apply bind_Ret_inv in Hrun as (out2 & Hout2 & Hrun).
      apply IH in Hrun; [done|]. apply dict_set_Forall; [|done]. simpl.
      eapply (HP frames); [|done..].
      eapply fetch_tickers_frames; [|exact Hframes|constructor].
      intros sub sub'. apply select_columns.
    + by apply IH in Hrun.
Qed.

(** X17. Every table the batch refresh holds when it returns has the four
    columns of a revenue table and is in ascending order of (ticker,
    date). *)
Theorem X17_batch_sheets_sorted `{Host} (groups_csv : string) (years : Z)
    (sheets : list (cell * frame)) :
  fetch_all groups_csv years = Ret sheets →
  Forall (λ p, canonical ⊆ columns p.2
               ∧ Sorted (λ r1 r2, row_le ["ticker"; "date"] (columns p.2) r1 r2 = true)
                   (rows p.2)) sheets.
Proof.
  unfold fetch_all. intros Hrun.
  apply bind_Ret_inv in Hrun as (raw & _ & Hrun). cbv zeta in Hrun.
  case_bool_decide; [done|].
  apply bind_Ret_inv in Hrun as (tickers & _ & Hrun).
  apply bind_Ret_inv in Hrun as (names & _ & Hrun).
  apply bind_Ret_inv in Hrun as (sectors & _ & Hrun).
  eapply (fetch_sectors_stored
            (λ out, canonical ⊆ columns out
                    ∧ Sorted (λ r1 r2, row_le ["ticker"; "date"] (columns out) r1 r2 = true)
                        (rows out))); [|exact Hrun|constructor].
  intros frames all out1 out Hframes Hall Hout1 [-> _]%sort_values_Ret_inv.
  cbn [columns rows]. split.
  - rewrite (date_column_columns _ _ Hout1). by eapply pd_concat_columns.
  - apply stable_sort_Sorted, row_le_total.
Qed.

Lemma X17_batch_sheets_sorted_witness :
  Forall (λ p : cell * frame,
            canonical ⊆ columns p.2
            ∧ Sorted (λ r1 r2, row_le ["ticker"; "date"] (columns p.2) r1 r2 = true)
                (rows p.2)) chips_only.
Proof.
  apply (@X17_batch_sheets_sorted (demo_host (Ret two_sector_registry) None only_A NoFill)
           "groups.csv" 3 chips_only).
  vm_compute. reflexivity.
Defined.

(** X18. A registry with the three columns and no rows makes the batch
    refresh ask nothing of the provider and hold no table, whatever the
    lookback; the script then ends with SystemExit and a non-zero status. *)
Theorem X18_empty_registry `{Host} (raw : frame) :
  read_csv "groups.csv" = Ret raw → rows raw = [] →
  Forall (λ c, count_label c (columns (normalize_header raw)) = 1%nat) required →
  (∀ years, fetch_all "groups.csv" years = Ret [])
  ∧ main = Raise (SystemExit no_data) ∧ exit_status main = 1.
Proof.
  intros Hraw Hrows Hone.
  assert (∀ years, fetch_all "groups.csv" years = Ret []) as Hall.
  { intros years. unfold fetch_all. rewrite Hraw. cbn [mbind res_bind]. cbv zeta.
    assert (missing_columns (normalize_header raw) = []) as ->.
    { apply missing_columns_nil. intros c Hc. apply count_label_one_in.
      by apply (proj1 (Forall_forall _ _) Hone). }
    rewrite bool_decide_eq_false_2 by (by intros ?).
    apply Forall_cons_1 in Hone as [Hticker Hone].
    apply Forall_cons_1 in Hone as [Hname Hone].
    apply Forall_cons_1 in Hone as [Hsector _].
    rewrite (series_Ret _ "ticker"), (series_Ret _ "name") by done. cbn [mbind res_bind].
    unfold sorted_sectors. rewrite (series_Ret _ "sector") by done.
    cbn [normalize_header rows]. by rewrite Hrows. }
  split; [done|]. unfold main. by rewrite Hall.
Qed.

Lemma X18_empty_registry_witness :
  @main (demo_host (Ret blank_registry) None steady NoFill) = Raise (SystemExit no_data).
Proof.
  destruct (@X18_empty_registry (demo_host (Ret blank_registry) None steady NoFill)
              blank_registry) as (_ & Hmain & _).
  - reflexivity.
  - reflexivity.
  - by repeat constructor.
  - exact Hmain.
Defined.

(** ** The order of the sheets *)

Lemma dict_set_fresh {V} (k : cell) (v : V) (d : list (cell * V)) :
  k ∉ d.*1 → (dict_set k v d).*1 = d.*1 ++ [k].
Proof.
  induction d as [|[k0 v0] d IH]; [done|]. rewrite fmap_cons. cbn [fst dict_set].
  intros [Hne Hout]%not_elem_of_cons. rewrite decide_False by done.
  rewrite fmap_cons. cbn [fst]. by rewrite IH.
Qed.

(** The outer loop stores the sheets in the order of the sectors. *)
Lemma fetch_sectors_order `{Host} (dl : option string) (name_map : list (cell * string))
    (years : Z) (df : frame) (sectors : list cell) (acc sheets : list (cell * frame)) :
  fetch_sectors dl name_map years df sectors acc = Ret sheets →
  NoDup (acc.*1 ++ sectors) →
  ∃ stored, sheets.*1 = acc.*1 ++ stored ∧ stored `sublist_of` sectors.
Proof.
  revert acc. induction sectors as [|sector sectors IH]; intros acc; simpl.
  - intros [= <-] _. exists []. by rewrite app_nil_r.
  - intros Hrun Hnd.
    apply bind_Ret_inv in Hrun as (g & _ & Hrun).
    apply bind_Ret_inv in Hrun as (col & _ & Hrun).
    apply bind_Ret_inv in Hrun as (frames & _ & Hrun).
    apply NoDup_app in Hnd as (Hacc & Hdisjoint & [Hsector Hsectors]%NoDup_cons).
    case_bool_decide.
    + apply bind_Ret_inv in Hrun as (out & _ & Hrun).
      apply bind_Ret_inv in Hrun as (out1 & _ & Hrun).
      apply bind_Ret_inv in Hrun as (out2 & _ & Hrun).
      assert (sector ∉ acc.*1) as Hfresh.
      { intros Hin. apply (Hdisjoint _ Hin). left. }
      apply IH in Hrun as (stored & Hkeys & Hsub).
      * exists (sector :: stored). rewrite Hkeys, dict_set_fresh by done.
        rewrite <- app_assoc. split; [done|]. by apply sublist_skip.
      * rewrite dict_set_fresh by done. rewrite <- app_assoc. simpl.
        apply NoDup_app. split; [done|]. split; [|by apply NoDup_cons].
        intros k Hk. by apply Hdisjoint.
    + apply IH in Hrun as (stored & Hkeys & Hsub).
      * exists stored. split; [done|]. by apply sublist_cons.
      * apply NoDup_app. split; [done|]. split; [|done].
        intros k Hk Hin. apply (Hdisjoint _ Hk). by right.
Qed.

(** X20. The tables the batch refresh holds are kept in the order of the
    sorted list of sectors: the sectors of the sheets, in the order in
    which the script writes them, are a sub-list of that list. *)
Theorem X20_sheets_in_sector_order `{Host} (groups_csv : string) (years : Z)
    (sheets : list (cell * frame)) :
  fetch_all groups_csv years = Ret sheets →
  ∃ raw sectors, read_csv groups_csv = Ret raw
    ∧ sorted_sectors (normalize_header raw) = Ret sectors
    ∧ sheets.*1 `sublist_of` sectors.
Proof.
  unfold fetch_all. intros Hrun.
  apply bind_Ret_inv in Hrun as (raw & Hraw & Hrun). cbv zeta in Hrun.
  case_bool_decide; [done|].
  apply bind_Ret_inv in Hrun as (tickers & _ & Hrun).
  apply bind_Ret_inv in Hrun as (names & _ & Hrun).
  apply bind_Ret_inv in Hrun as (sectors & Hsectors & Hrun).
  exists raw, sectors. split; [done|]. split; [done|].
  apply fetch_sectors_order in Hrun as (stored & Hkeys & Hsub).
  - by rewrite Hkeys.
  - simpl. unfold sorted_sectors in Hsectors.
    apply bind_Ret_inv in Hsectors as (col & _ & Hsectors).
    apply py_sorted_perm in Hsectors. rewrite Hsectors. apply unique_NoDup.
Qed.

Lemma X20_sheets_in_sector_order_witness :
  chips_only.*1 `sublist_of` [Str "chips"; Str "paper"].
Proof.
  destruct (@X20_sheets_in_sector_order
              (demo_host (Ret two_sector_registry) None only_A NoFill)
              "groups.csv" 3 chips_only) as (raw & sectors & Hraw & Hsectors & Hsub).
  - vm_compute. reflexivity.
  - vm_compute in Hraw. injection Hraw as <-.
    vm_compute in Hsectors. injection Hsectors as <-. exact Hsub.
Defined.
